(** * Technical-indicator engine and trade-setup generator

    A shallow embedding of the two services of the chart analyzer:
    [MarketDataService.calculateTechnicalIndicators] with its private
    helpers (RSI, SMA, EMA, MACD, Bollinger bands, support and resistance)
    and [AdvancedAnalysisService.performTechnicalAnalysis] with
    [calculateConfidence].

    A JavaScript [number] is an IEEE 754 binary64 value, which is what the
    primitive type [float] is: every arithmetic operation below rounds,
    overflows and produces NaN exactly as the TypeScript code does when it
    runs.  General statements about these operations go through the
    specification [Prim2SF] of the primitive operations.

    Left out of the embedding: fetching market data, quotas and persistence,
    the SVG chart, and the [reasoning] strings of a setup, none of which
    feeds a numeric field. *)

From Stdlib Require Import String ZArith List Bool Lia.
From Stdlib Require Import Floats.
Import ListNotations.

Set Warnings "-inexact-float".

Local Open Scope float_scope.

(** ** JavaScript values and array reads *)

Module JS.

(** The two kinds of value that flow through the indicator code: a number,
    or [undefined], which is what an array read outside the array gives. *)
Inductive value : Type :=
| Undefined
| Number (x : float).

(** [ToNumber]: the conversion applied by the arithmetic and relational
    operators; [undefined] becomes NaN. *)
Definition ToNumber (v : value) : float :=
  match v with
  | Undefined => nan
  | Number x => x
  end.

Definition is_number (v : value) : bool :=
  match v with
  | Undefined => false
  | Number _ => true
  end.

(** [a > b] and [a < b] on numbers: false as soon as one side is NaN. *)
Definition gt (a b : float) : bool := b <? a.
Definition lt (a b : float) : bool := a <? b.

(** An integer-valued number such as an array length or a period. *)
Definition of_nat (n : nat) : float :=
  of_uint63 (Uint63.of_Z (Z.of_nat n)).

(** A computation that reads arrays by index.  Reading outside an array does
    not fail in JavaScript, it yields [undefined]; the computation carries its
    result together with a flag that stays [true] as long as every index read
    so far was inside its array. *)
Record Reads (A : Type) : Type := mkReads {
  result : A;
  in_bounds : bool
}.

Arguments mkReads {A} _ _.
Arguments result {A} _.
Arguments in_bounds {A} _.

Definition ret {A : Type} (a : A) : Reads A := mkReads a true.

Definition bind {A B : Type} (m : Reads A) (f : A -> Reads B) : Reads B :=
  let r := f (result m) in
  mkReads (result r) (in_bounds m && in_bounds r).

(** [a[i]] *)
Definition get (a : list float) (i : Z) : Reads value :=
  if (i <? 0)%Z then mkReads Undefined false
  else match nth_error a (Z.to_nat i) with
       | Some x => ret (Number x)
       | None => mkReads Undefined false
       end.

(** [for] loop over the successive values [indices] of the loop variable,
    with the variables assigned in the body as the state [s]. *)
Fixpoint for_each {S : Type} (body : S -> nat -> Reads S) (indices : list nat) (s : S)
  : Reads S :=
  match indices with
  | [] => ret s
  | i :: rest => bind (body s i) (for_each body rest)
  end.

(** [a.slice(start, stop)]: a negative bound counts from the end, and both
    bounds are clamped to the array. *)
Definition clamp_index (len : nat) (i : Z) : nat :=
  if (i <? 0)%Z then Z.to_nat (Z.max (Z.of_nat len + i) 0)
  else Nat.min (Z.to_nat i) len.

Definition slice (start stop : Z) (a : list float) : list float :=
  let k := clamp_index (length a) start in
  let final := clamp_index (length a) stop in
  firstn (final - k) (skipn k a).

(** [a.slice(start)] *)
Definition slice_from (start : Z) (a : list float) : list float :=
  skipn (clamp_index (length a) start) a.

(** [a.reduce((acc, x) => f(acc, x), init)] *)
Definition reduce {A : Type} (f : A -> float -> A) (init : A) (a : list float) : A :=
  fold_left f a init.

(** *** The [Math] functions the services call, as ECMAScript defines them *)

Definition is_neg_zero (x : float) : bool :=
  match classify x with
  | NZero => true
  | _ => false
  end.

Definition is_pos_zero (x : float) : bool :=
  match classify x with
  | PZero => true
  | _ => false
  end.

(** [Math.min(...a)]: NaN as soon as one argument is NaN, [+Infinity] for no
    argument, and [-0] is smaller than [+0]. *)
Fixpoint min_from (lowest : float) (a : list float) : float :=
  match a with
  | [] => lowest
  | number :: rest =>
      if is_nan number then nan
      else
        let lowest := if is_neg_zero number && is_pos_zero lowest then neg_zero else lowest in
        let lowest := if number <? lowest then number else lowest in
        min_from lowest rest
  end.

Definition Math_min (a : list float) : float := min_from infinity a.

(** [Math.max(...a)], symmetrically. *)
Fixpoint max_from (highest : float) (a : list float) : float :=
  match a with
  | [] => highest
  | number :: rest =>
      if is_nan number then nan
      else
        let highest := if is_pos_zero number && is_neg_zero highest then zero else highest in
        let highest := if highest <? number then number else highest in
        max_from highest rest
  end.

Definition Math_max (a : list float) : float := max_from neg_infinity a.

Definition Math_abs (x : float) : float := abs x.

Definition Math_sqrt (x : float) : float := sqrt x.

(** [Math.pow(x, 2)], the only power the services take.  ECMAScript leaves
    the precision of [Math.pow] to the engine; the exponent 2 is taken here
    as the square rounded once, [x * x]. *)
Definition Math_pow2 (x : float) : float := x * x.

End JS.

Import JS.

Notation "x <- c ;; k" := (bind c (fun x => k))
  (at level 61, c at next level, right associativity).

(** ** Data model (marketDataService) *)

Record CandlestickData : Type := mkCandle {
  timestamp : float;
  open : float;
  high : float;
  low : float;
  close : float;
  volume : float
}.

Record MarketData : Type := mkMarketData {
  symbol : string;
  price : float;
  change24h : float;
  volume24h : float;
  high24h : float;
  low24h : float;
  candlesticks : list CandlestickData
}.

Module Macd.
Record t : Type := mk {
  macd : float;
  signal : value;
  histogram : float
}.
End Macd.

Record Bollinger : Type := mkBollinger {
  upper : float;
  middle : value;
  lower : float
}.

(** The fields that come from [calculateSMA] and [calculateEMA] hold whatever
    the fallback read returned, so they are [value]s; the others are always
    numbers. *)
Record TechnicalIndicators : Type := mkIndicators {
  rsi : float;
  macd : Macd.t;
  sma20 : value;
  sma50 : value;
  ema20 : value;
  bollinger : Bollinger;
  support : float;
  resistance : float
}.

(** ** Indicator engine (MarketDataService) *)

Definition calculateRSI (prices : list float) (period : nat) : Reads float :=
  if (length prices <? period + 1)%nat then ret 50
  else
    let len := Z.of_nat (length prices) in
    gl <- for_each
            (fun '(gains, losses) i =>
               a <- get prices (len - Z.of_nat i) ;;
               b <- get prices (len - Z.of_nat i - 1) ;;
               let change := ToNumber a - ToNumber b in
               ret (if gt change 0
                    then (gains + change, losses)
                    else (gains, losses - change)))
            (seq 1 period) (0, 0) ;;
    let avgGain := fst gl / of_nat period in
    let avgLoss := snd gl / of_nat period in
    let rs := avgGain / avgLoss in
    ret (100 - 100 / (1 + rs)).

Definition calculateSMA (prices : list float) (period : nat) : Reads value :=
  if (length prices <? period)%nat
  then get prices (Z.of_nat (length prices) - 1)
  else
    let sum := reduce (fun a b => a + b) 0 (slice_from (- Z.of_nat period) prices) in
    ret (Number (sum / of_nat period)).

Definition calculateEMA (prices : list float) (period : nat) : Reads value :=
  if (length prices <? period)%nat
  then get prices (Z.of_nat (length prices) - 1)
  else
    let multiplier := 2 / (of_nat period + 1) in
    ema <- calculateSMA (slice 0 (Z.of_nat period) prices) period ;;
    for_each
      (fun ema i =>
         p <- get prices (Z.of_nat i) ;;
         ret (Number (ToNumber p * multiplier + ToNumber ema * (1 - multiplier))))
      (seq period (length prices - period)) ema.

Definition calculateMACD (prices : list float) : Reads Macd.t :=
  ema12 <- calculateEMA prices 12 ;;
  ema26 <- calculateEMA prices 26 ;;
  let macd := ToNumber ema12 - ToNumber ema26 in
  let macdHistory := [macd] in
  signal <- calculateEMA macdHistory 9 ;;
  let histogram := macd - ToNumber signal in
  ret (Macd.mk macd signal histogram).

Definition calculateBollingerBands (prices : list float) (period : nat) (stdDev : float)
  : Reads Bollinger :=
  sma <- calculateSMA prices period ;;
  let recentPrices := slice_from (- Z.of_nat period) prices in
  let variance :=
    reduce (fun sum price => sum + Math_pow2 (price - ToNumber sma)) 0 recentPrices
    / of_nat period in
  let standardDeviation := Math_sqrt variance in
  ret (mkBollinger (ToNumber sma + standardDeviation * stdDev)
                   sma
                   (ToNumber sma - standardDeviation * stdDev)).

Definition calculateTechnicalIndicators (candlesticks : list CandlestickData)
  : Reads TechnicalIndicators :=
  let closes := map close candlesticks in
  let highs := map high candlesticks in
  let lows := map low candlesticks in
  rsi <- calculateRSI closes 14 ;;
  sma20 <- calculateSMA closes 20 ;;
  sma50 <- calculateSMA closes 50 ;;
  ema20 <- calculateEMA closes 20 ;;
  macd <- calculateMACD closes ;;
  bollinger <- calculateBollingerBands closes 20 2 ;;
  let support := Math_min (slice_from (-20) lows) in
  let resistance := Math_max (slice_from (-20) highs) in
  ret (mkIndicators rsi macd sma20 sma50 ema20 bollinger support resistance).

(** ** Setup generator (AdvancedAnalysisService) *)

Inductive Trend : Type := bullish | bearish | sideways.

Definition Trend_eqb (a b : Trend) : bool :=
  match a, b with
  | bullish, bullish | bearish, bearish | sideways, sideways => true
  | _, _ => false
  end.

(** What [performTechnicalAnalysis] returns, without [reasoning]: the five
    explanation strings are display text built from the same values with
    [toFixed], and no numeric field depends on them. *)
Record Analysis : Type := mkAnalysis {
  entry : float;
  stopLoss : float;
  takeProfit1 : float;
  takeProfit2 : float;
  confidence : float;
  trend : Trend;
  riskReward : float
}.

Definition calculateConfidence (scores : list float) : float :=
  let totalScore := reduce (fun sum score => sum + score) 0 scores in
  Math_min [95; Math_max [25; totalScore]].

Definition performTechnicalAnalysis (marketData : MarketData)
  (indicators : TechnicalIndicators) : Analysis :=
  let currentPrice := price marketData in
  let rsi := rsi indicators in
  let macd := macd indicators in
  let sma20 := ToNumber (sma20 indicators) in
  let sma50 := ToNumber (sma50 indicators) in
  let bollinger := bollinger indicators in
  let support := support indicators in
  let resistance := resistance indicators in
  let trend :=
    if gt currentPrice sma20 && gt sma20 sma50
       && gt (macd.(Macd.macd)) (ToNumber macd.(Macd.signal))
    then bullish
    else if lt currentPrice sma20 && lt sma20 sma50
            && lt (macd.(Macd.macd)) (ToNumber macd.(Macd.signal))
    then bearish
    else sideways in
  let '(entry, stopLoss, takeProfit1, takeProfit2, confidence) :=
    match trend with
    | bullish =>
        (currentPrice * 1.002,
         Math_max [support; bollinger.(lower); currentPrice * 0.95],
         Math_min [resistance; bollinger.(upper); currentPrice * 1.08],
         currentPrice * 1.15,
         calculateConfidence
           [ if lt rsi 70 then 20 else 0;
             if gt (macd.(Macd.macd)) (ToNumber macd.(Macd.signal)) then 25 else 0;
             if gt currentPrice sma20 then 20 else 0;
             if gt sma20 sma50 then 15 else 0;
             if gt currentPrice (ToNumber bollinger.(middle)) then 20 else 0 ])
    | bearish =>
        (currentPrice * 0.998,
         Math_min [resistance; bollinger.(upper); currentPrice * 1.05],
         Math_max [support; bollinger.(lower); currentPrice * 0.92],
         currentPrice * 0.85,
         calculateConfidence
           [ if gt rsi 30 then 20 else 0;
             if lt (macd.(Macd.macd)) (ToNumber macd.(Macd.signal)) then 25 else 0;
             if lt currentPrice sma20 then 20 else 0;
             if lt sma20 sma50 then 15 else 0;
             if lt currentPrice (ToNumber bollinger.(middle)) then 20 else 0 ])
    | sideways =>
        (currentPrice,
         (if Trend_eqb trend bullish then support else resistance),
         (if Trend_eqb trend bullish then resistance else support),
         (if Trend_eqb trend bullish then resistance * 1.02 else support * 0.98),
         45)
    end in
  let riskReward := Math_abs (takeProfit1 - entry) / Math_abs (entry - stopLoss) in
  mkAnalysis entry stopLoss takeProfit1 takeProfit2 confidence trend riskReward.

(** Market data for a price and the series it was read from; the ticker
    statistics, which the setup generator never reads, are left at 0. *)
Definition market (currentPrice : float) (candlesticks : list CandlestickData)
  : MarketData :=
  mkMarketData "BTC/USDT" currentPrice 0 0 0 0 candlesticks.

(** The two call contracts under the names the specification gives them. *)
Definition computeIndicators (series : list CandlestickData) : Reads TechnicalIndicators :=
  calculateTechnicalIndicators series.

Definition generateSetup (currentPrice : float) (indicators : TechnicalIndicators)
  : Analysis :=
  performTechnicalAnalysis (market currentPrice []) indicators.

(** ** Example series *)

(** [n] candles with closes 100, 101, ..., high = close + 1, low = close - 1. *)
Definition rising (n : nat) : list CandlestickData :=
  map (fun i => let c := of_nat (100 + i) in
                mkCandle (of_nat i) c (c + 1) (c - 1) c 0)
      (seq 0 n).

(** [n] candles that never move from 100. *)
Definition flat (n : nat) : list CandlestickData :=
  map (fun i => mkCandle (of_nat i) 100 100 100 100 0) (seq 0 n).

(** Closes near the top of the binary64 range: finite, but twelve of them
    no longer add up to a finite number. *)
Definition huge : float := 1e308.
Definition huge_closes (n : nat) : list float := repeat huge n.

(** The bundle of the rising series of sixty candles. *)
Definition rising60 : TechnicalIndicators :=
  result (calculateTechnicalIndicators (rising 60)).

(** A rising series whose highs are the closes: at the latest close the
    resistance is the price itself. *)
Definition rising_tight (n : nat) : list CandlestickData :=
  map (fun i => let c := of_nat (100 + i) in mkCandle (of_nat i) c c (c - 1) c 0)
      (seq 0 n).

(** Five old candles that range from 1 to 1000, then twenty candles that
    range from 49 to 51. *)
Definition spiked : list CandlestickData :=
  map (fun i => mkCandle (of_nat i) 500 1000 1 500 0) (seq 0 5) ++
  map (fun i => mkCandle (of_nat (5 + i)) 50 51 49 50 0) (seq 0 20).

(** Two hand-made bundles, one per directional branch: the pipeline itself
    never produces a bundle whose MACD value differs from its signal. *)
Definition bullish_example : TechnicalIndicators :=
  mkIndicators 55 (Macd.mk 2 (Number 1) 1) (Number 105) (Number 100) (Number 104)
    (mkBollinger 110 (Number 105) 100) 99 112.

Definition bearish_example : TechnicalIndicators :=
  mkIndicators 45 (Macd.mk 1 (Number 2) (-1)) (Number 105) (Number 110) (Number 106)
    (mkBollinger 110 (Number 105) 100) 99 112.

(** ** The analysis entry point (AdvancedAnalysisService.analyzeChart)

    [analyzeChart] awaits five collaborators inside one [try]: the users
    table, one of the two analyses, the analyses table and the users table
    again.  Each awaited call either resolves to a value or rejects; a
    rejection anywhere lands in the [catch].  What the collaborators answer
    is the [World]; the computation carries the log of the calls it made. *)

Module Orchestration.

Inductive AnalysisType : Type := upload | live.

Inductive File : Type := mkFile (name : string).

(** A row of the users table, as far as [analyzeChart] reads it.  The two
    counters are numbers in the [UserStats] interface; a row that lacks one
    has [undefined] there. *)
Record UserRow : Type := mkUserRow {
  id : string;
  analysesUsedToday : value;
  dailyLimit : value
}.

(** The trade setup an analysis resolves to (interface [TradeSetup]). *)
Record TradeSetup : Type := mkTradeSetup {
  setup_id : string;
  setup_symbol : string;
  analysisType : AnalysisType;
  setup_levels : Analysis;
  timeframe : string;
  reasoning : list string;
  technicalIndicators : TechnicalIndicators;
  chartImageUrl : option string;
  createdAt : string
}.

Record AnalysisResult : Type := mkResult {
  success : bool;
  tradeSetup : option TradeSetup;
  error : option string;
  quotaRemaining : float
}.

(** The calls [analyzeChart] awaits.  [analyses_create] is logged with the
    user and the setup its row is built from, [users_update] with the row id
    and the new [analysesUsedToday]; the timestamps written beside them are
    left out. *)
Inductive Call : Type :=
| users_list (userId : string)
| analyzeLiveData (symbol : string)
| analyzeUploadedChart (symbol : string) (imageFile : option File)
| analyses_create (userId : string) (tradeSetup : TradeSetup)
| users_update (id : string) (analysesUsedToday : float).

Inductive Outcome (A : Type) : Type :=
| Resolved (a : A)
| Rejected.

Arguments Resolved {A} _.
Arguments Rejected {A}.

(** What each collaborator answers.  [list_users] may resolve to nothing at
    all ([null]) or to an array of rows. *)
Record World : Type := mkWorld {
  list_users : string -> Outcome (option (list UserRow));
  run_live : string -> Outcome TradeSetup;
  run_upload : string -> option File -> Outcome TradeSetup;
  create_analysis : string -> TradeSetup -> Outcome unit;
  update_user : string -> float -> Outcome unit
}.

(** An asynchronous computation: from the log so far to its outcome and the
    log after it. *)
Definition Async (A : Type) : Type := list Call -> Outcome A * list Call.

Definition resolve {A : Type} (a : A) : Async A := fun log => (Resolved a, log).

Definition and_then {A B : Type} (m : Async A) (f : A -> Async B) : Async B :=
  fun log =>
    match m log with
    | (Resolved a, log') => f a log'
    | (Rejected, log') => (Rejected, log')
    end.

(** [await call], with the answer of the collaborator. *)
Definition await {A : Type} (call : Call) (answer : Outcome A) : Async A :=
  fun log => (answer, log ++ [call]).

(** [try { body } catch { handler }] *)
Definition try_catch {A : Type} (body handler : Async A) : Async A :=
  fun log =>
    match body log with
    | (Resolved a, log') => (Resolved a, log')
    | (Rejected, log') => handler log'
    end.

(** [a >= b] on numbers *)
Definition ge (a b : float) : bool := b <=? a.

Definition failure (message : string) : AnalysisResult :=
  mkResult false None (Some message) 0.

Definition analyzeChart (w : World) (userId : string) (analysisType : AnalysisType)
  (symbol : string) (imageFile : option File) : Async AnalysisResult :=
  try_catch
    (and_then (await (users_list userId) (list_users w userId)) (fun user =>
     match user with
     | None | Some [] => resolve (failure "User not found")
     | Some (userData :: _) =>
         if ge (ToNumber (analysesUsedToday userData)) (ToNumber (dailyLimit userData))
         then resolve (failure "Daily analysis limit reached")
         else
           and_then
             (match analysisType with
              | live => await (analyzeLiveData symbol) (run_live w symbol)
              | upload => await (analyzeUploadedChart symbol imageFile)
                                (run_upload w symbol imageFile)
              end) (fun tradeSetup =>
           and_then (await (analyses_create userId tradeSetup)
                           (create_analysis w userId tradeSetup)) (fun _ =>
           let used := ToNumber (analysesUsedToday userData) + 1 in
           and_then (await (users_update (id userData) used)
                           (update_user w (id userData) used)) (fun _ =>
           let quotaRemaining :=
             ToNumber (dailyLimit userData) - (ToNumber (analysesUsedToday userData) + 1) in
           resolve (mkResult true (Some tradeSetup) None quotaRemaining))))
     end))
    (resolve (failure "Analysis failed. Please try again.")).

(** The call of the analysis [analyzeChart] runs, and its answer. *)
Definition analysis_call (analysisType : AnalysisType) (symbol : string)
  (imageFile : option File) : Call :=
  match analysisType with
  | live => analyzeLiveData symbol
  | upload => analyzeUploadedChart symbol imageFile
  end.

Definition analysis_answer (w : World) (analysisType : AnalysisType)
  (symbol : string) (imageFile : option File) : Outcome TradeSetup :=
  match analysisType with
  | live => run_live w symbol
  | upload => run_upload w symbol imageFile
  end.

End Orchestration.

(** A world in which every collaborator resolves, for a user with the given
    counters, and the setup its analyses resolve to. *)
Definition example_setup : Orchestration.TradeSetup :=
  Orchestration.mkTradeSetup "analysis_1" "BTC/USDT" Orchestration.live
    (performTechnicalAnalysis (market 159 (rising 60)) rising60)
    "1H" [] rising60 None "2024-01-01T00:00:00.000Z".

Definition example_world (used limit : value) : Orchestration.World :=
  Orchestration.mkWorld
    (fun _ => Orchestration.Resolved (Some [Orchestration.mkUserRow "row_1" used limit]))
    (fun _ => Orchestration.Resolved example_setup)
    (fun _ _ => Orchestration.Resolved example_setup)
    (fun _ _ => Orchestration.Resolved tt)
    (fun _ _ => Orchestration.Resolved tt).

(** ** The mock feed (MarketDataService.getMockMarketData)

    [getMarketData] falls back on [getMockMarketData] when a request fails.
    The mock feed draws its candles from [Math.random] and stamps them with
    [Date.now]: what the successive calls of the two return is the [Env], and
    the computation carries the number of calls made so far. *)

Module Mock.

(** What the successive calls of [Math.random] and [Date.now] return. *)
Record Env : Type := mkEnv {
  random : nat -> float;
  now : nat -> float
}.

(** How many calls of each were made so far. *)
Record Calls : Type := mkCalls {
  randoms : nat;
  clocks : nat
}.

Definition Gen (A : Type) : Type := Calls -> A * Calls.

Definition Gen_ret {A : Type} (a : A) : Gen A := fun calls => (a, calls).

Definition Gen_bind {A B : Type} (m : Gen A) (f : A -> Gen B) : Gen B :=
  fun calls => let '(a, calls') := m calls in f a calls'.

Definition Math_random (env : Env) : Gen float :=
  fun calls => (random env (randoms calls), mkCalls (S (randoms calls)) (clocks calls)).

Definition Date_now (env : Env) : Gen float :=
  fun calls => (now env (clocks calls), mkCalls (randoms calls) (S (clocks calls))).

(** [for] loop over the successive values [indices] of the loop variable. *)
Fixpoint loop {S : Type} (body : S -> nat -> Gen S) (indices : list nat) (s : S) : Gen S :=
  match indices with
  | [] => Gen_ret s
  | i :: rest => Gen_bind (body s i) (loop body rest)
  end.

(** [s.includes(searchString)], for a search string of ASCII characters: an
    occurrence among the bytes of [s] is an occurrence among its code units. *)
Definition includes (s searchString : string) : bool :=
  match String.index 0 searchString s with
  | Some _ => true
  | None => false
  end.

(** A result of [Math.random]: of positive sign, at least [+0] and below 1. *)
Definition in_unit_interval (r : float) : bool :=
  (0 <=? r) && (r <? 1) && negb (is_neg_zero r).

Notation "x <~ c ;; k" := (Gen_bind c (fun x => k))
  (at level 61, c at next level, right associativity).

(** One turn of the loop: the candle of hour [i] before now. *)
Definition candle (env : Env) (basePrice : float) (i : nat) : Gen CandlestickData :=
  t <~ Date_now env ;;
  let timestamp := t - of_nat i * 3600000 in
  r <~ Math_random env ;;
  let open := basePrice + (r - 0.5) * basePrice * 0.02 in
  r <~ Math_random env ;;
  let close := open + (r - 0.5) * open * 0.01 in
  r <~ Math_random env ;;
  let high := Math_max [open; close] + r * Math_abs (open - close) in
  r <~ Math_random env ;;
  let low := Math_min [open; close] - r * Math_abs (open - close) in
  r <~ Math_random env ;;
  Gen_ret (mkCandle timestamp open high low close (r * 1000000)).

Definition basePrice (symbol : string) : float :=
  if includes symbol "BTC" then 45000 else if includes symbol "ETH" then 2800 else 1.0.

(** Reading [.close] of [candlesticks[candlesticks.length - 1]] throws when
    the array is empty; [None] stands for that. *)
Definition getMockMarketData (env : Env) (symbol : string) : Gen (option MarketData) :=
  let basePrice := basePrice symbol in
  candlesticks <~ loop (fun candlesticks i =>
                          c <~ candle env basePrice i ;;
                          Gen_ret (candlesticks ++ [c]))
                       (rev (seq 0 100)) [] ;;
  match nth_error candlesticks (length candlesticks - 1) with
  | None => Gen_ret None
  | Some newest =>
      r <~ Math_random env ;;
      let change24h := (r - 0.5) * 10 in
      r <~ Math_random env ;;
      let volume24h := r * 50000000 in
      Gen_ret (Some (mkMarketData symbol (close newest) change24h volume24h
                       (Math_max (map high candlesticks))
                       (Math_min (map low candlesticks))
                       candlesticks))
  end.

(** A candle whose four prices are finite, with the low at most the open and
    the close, and the high at least both. *)
Definition well_formed (c : CandlestickData) : bool :=
  is_finite (open c) && is_finite (close c) && is_finite (high c) && is_finite (low c) &&
  (low c <=? open c) && (low c <=? close c) && (open c <=? high c) && (close c <=? high c).

End Mock.

(** Draws that alternate between 0.25 and 0.75, and a clock that advances by
    one millisecond per reading. *)
Definition example_env : Mock.Env :=
  Mock.mkEnv (fun k => if Nat.even k then 0.25 else 0.75)
             (fun k => 1700000000000 + of_nat k).

(** ** Vocabulary for binary64 reasoning

    [Prim2SF] maps a number to its sign, mantissa and exponent; the
    predicates below speak about that representation, with the parameters
    [prec = 53] and [emax = 1024] of binary64. *)

Module SF64.

Local Open Scope Z_scope.

Definition SF_is_nan (x : spec_float) : bool :=
  match x with
  | S754_nan => true
  | _ => false
  end.

Definition SF_is_infinity (x : spec_float) : bool :=
  match x with
  | S754_infinity _ => true
  | _ => false
  end.

Definition SF_is_finite (x : spec_float) : bool :=
  negb (SF_is_nan x || SF_is_infinity x).

(** Order of magnitudes [m * 2^e] as [SFcompare] reads it: exponent first. *)
Definition mag_le (m1 : positive) (e1 : Z) (m2 : positive) (e2 : Z) : Prop :=
  (e1 < e2)%Z \/ (e1 = e2 /\ (m1 <= m2)%positive).

(** [x <= y] on representations: what [SFleb] decides. *)
Definition SFle (x y : spec_float) : Prop :=
  match x, y with
  | S754_nan, _ | _, S754_nan => False
  | S754_infinity s1, S754_infinity s2 => s1 = true \/ s2 = false
  | S754_infinity s, _ => s = true
  | _, S754_infinity s => s = false
  | S754_finite s _ _, S754_zero _ => s = true
  | S754_zero _, S754_finite s _ _ => s = false
  | S754_zero _, S754_zero _ => True
  | S754_finite s1 m1 e1, S754_finite s2 m2 e2 =>
      match s1, s2 with
      | true, false => True
      | false, true => False
      | false, false => mag_le m1 e1 m2 e2
      | true, true => mag_le m2 e2 m1 e1
      end
  end.

(** [+0], a positive finite number or [+Infinity]. *)
Definition NN (x : spec_float) : Prop :=
  match x with
  | S754_zero false | S754_infinity false | S754_finite false _ _ => True
  | _ => False
  end.

(** The sign of a rounded result; NaN has none. *)
Definition has_sign (s : bool) (x : spec_float) : Prop :=
  match x with
  | S754_zero s' | S754_infinity s' | S754_finite s' _ _ => s' = s
  | S754_nan => False
  end.

(** After [n] shifts of [P]: the kept bits, and what was dropped. *)
Definition shr_inv (P n : Z) (mrs : shr_record) : Prop :=
  0 <= shr_m mrs /\
  exists rem, P = shr_m mrs * 2 ^ n + rem /\ 0 <= rem < 2 ^ n /\
              (shr_r mrs = true -> 0 < rem).

(** A rounded mantissa at its exponent: finite, or infinite above [emax]. *)
Definition round_result (s : bool) (m : positive) (e : Z) : spec_float :=
  if e <=? 971 then S754_finite s m e else S754_infinity s.

(** A rounded magnitude that is not below a representable one. *)
Definition above (s : bool) (mx : positive) (ex : Z) (r : spec_float) : Prop :=
  match r with
  | S754_finite s' m e => s' = s /\ mag_le mx ex m e
  | S754_infinity s' => s' = s
  | _ => False
  end.

(** A rounded magnitude that is not above a representable one. *)
Definition below (s : bool) (mx : positive) (ex : Z) (r : spec_float) : Prop :=
  match r with
  | S754_finite s' m e => s' = s /\ mag_le m e mx ex
  | S754_zero s' => s' = s
  | _ => False
  end.

End SF64.

(** A number that is [+0], positive or [+Infinity]. *)
Definition nonneg (x : float) : Prop := SF64.NN (Prim2SF x).

(** ** Vocabulary for one-way markets *)

(** A number of sign [s] that is at least [n] units of [2^-1074], the smallest
    positive number, in size; [0] has no unit. *)
Definition at_least (s : bool) (n : Z) (x : spec_float) : Prop :=
  match x with
  | S754_zero _ => (n <= 0)%Z
  | S754_finite s' m e => s' = s /\ (-1074 <= e)%Z /\ (n <= Zpos m * 2 ^ (e + 1074))%Z
  | S754_infinity s' => s' = s
  | S754_nan => False
  end.

(** Each price is below the next one. *)
Fixpoint rises (w : list float) : bool :=
  match w with
  | a :: (b :: _) as rest => (a <? b) && rises rest
  | _ => true
  end.

(** Each price is above the next one. *)
Fixpoint falls (w : list float) : bool :=
  match w with
  | a :: (b :: _) as rest => (b <? a) && falls rest
  | _ => true
  end.

(** ** Vocabulary for sizes *)

(** [0], or a finite number of size at most [2^n]. *)
Definition within (n : Z) (x : spec_float) : Prop :=
  match x with
  | S754_zero _ => True
  | S754_finite _ m e => (e <= n /\ Zpos m <= 2 ^ (n - e))%Z
  | _ => False
  end.

Definition sized (n : Z) (x : float) : Prop := within n (Prim2SF x).

(** * Properties *)

(** ** Reading arrays *)

Section ReadsFacts.

Context {A B : Type}.

Lemma result_bind (m : Reads A) (f : A -> Reads B) :
  result (bind m f) = result (f (result m)).
Proof. reflexivity. Qed.

Lemma in_bounds_bind (m : Reads A) (f : A -> Reads B) :
  in_bounds (bind m f) = in_bounds m && in_bounds (f (result m)).
Proof. reflexivity. Qed.

Lemma in_bounds_bind_true (m : Reads A) (f : A -> Reads B) :
  in_bounds m = true ->
  (forall a, in_bounds (f a) = true) ->
  in_bounds (bind m f) = true.
Proof.
  intros Hm Hf. rewrite in_bounds_bind, Hm, Hf. reflexivity.
Qed.

End ReadsFacts.

(** A loop whose body stays inside its arrays at every index it visits stays
    inside them as a whole. *)
Lemma for_each_in_bounds {S : Type} (body : S -> nat -> Reads S) (indices : list nat) :
  (forall s i, In i indices -> in_bounds (body s i) = true) ->
  forall s, in_bounds (for_each body indices s) = true.
Proof.
  induction indices as [|i rest IH]; intros Hbody s; simpl.
  - reflexivity.
  - apply in_bounds_bind_true.
    + apply Hbody. now left.
    + intros s'. apply IH. intros s0 j Hj. apply Hbody. now right.
Qed.

(** A read is inside the array exactly when its index is. *)
Lemma get_inside (a : list float) (i : Z) :
  (0 <= i < Z.of_nat (length a))%Z ->
  in_bounds (get a i) = true /\ is_number (result (get a i)) = true.
Proof.
  intros [Hlo Hhi]. unfold get.
  destruct (Z.ltb_spec i 0) as [Hneg|_]; [lia|].
  destruct (nth_error a (Z.to_nat i)) as [x|] eqn:E.
  - split; reflexivity.
  - apply nth_error_None in E. lia.
Qed.

Lemma get_outside (a : list float) (i : Z) :
  (i < 0 \/ Z.of_nat (length a) <= i)%Z ->
  get a i = mkReads Undefined false.
Proof.
  intros H. unfold get.
  destruct (Z.ltb_spec i 0) as [Hneg|Hpos]; [reflexivity|].
  destruct (nth_error a (Z.to_nat i)) as [x|] eqn:E; [|reflexivity].
  assert (Hlt : (Z.to_nat i < length a)%nat).
  { apply nth_error_Some. rewrite E. discriminate. }
  lia.
Qed.

(** The fallback read [prices[prices.length - 1]] returns the most recent
    price of a non-empty array. *)
Lemma get_last (prices : list float) (d : float) :
  prices <> [] ->
  get prices (Z.of_nat (length prices) - 1) = ret (Number (last prices d)).
Proof.
  intros Hne.
  destruct (exists_last Hne) as (front & x & ->).
  rewrite last_last, length_app. simpl length.
  unfold get.
  destruct (Z.ltb_spec (Z.of_nat (length front + 1) - 1) 0) as [Hneg|_]; [lia|].
  replace (Z.to_nat (Z.of_nat (length front + 1) - 1)) with (length front) by lia.
  rewrite nth_error_app2 by lia.
  rewrite Nat.sub_diag. reflexivity.
Qed.

(** ** Slices *)

Lemma clamp_index_le (len : nat) (i : Z) : (clamp_index len i <= len)%nat.
Proof.
  unfold clamp_index. destruct (Z.ltb_spec i 0); lia.
Qed.

Lemma clamp_index_last (len : nat) (n : nat) :
  clamp_index len (- Z.of_nat n) = (if (n =? 0)%nat then 0 else len - n)%nat.
Proof.
  unfold clamp_index.
  destruct (Nat.eqb_spec n 0) as [->|Hn].
  - reflexivity.
  - destruct (Z.ltb_spec (- Z.of_nat n) 0); lia.
Qed.

Lemma length_slice_prefix (a : list float) (n : nat) :
  (n <= length a)%nat -> length (slice 0 (Z.of_nat n) a) = n.
Proof.
  intros Hn. unfold slice, clamp_index.
  destruct (Z.ltb_spec (Z.of_nat n) 0) as [Hneg|_]; [lia|].
  simpl. rewrite length_firstn. lia.
Qed.

Lemma slice_from_nonempty (a : list float) (start : Z) :
  a <> [] -> (start < 0)%Z -> slice_from start a <> [].
Proof.
  intros Hne Hstart Hnil. unfold slice_from in Hnil.
  apply (f_equal (@length float)) in Hnil. rewrite length_skipn in Hnil.
  simpl in Hnil.
  assert (length a <> 0)%nat by (destruct a; [congruence | discriminate]).
  unfold clamp_index in Hnil.
  destruct (Z.ltb_spec start 0); lia.
Qed.

Lemma for_each_result_invariant {S : Type} (P : S -> Prop)
  (body : S -> nat -> Reads S) (indices : list nat) :
  (forall s i, In i indices -> P s -> P (result (body s i))) ->
  forall s, P s -> P (result (for_each body indices s)).
Proof.
  induction indices as [|i rest IH]; intros Hbody s Hs; simpl.
  - exact Hs.
  - apply IH.
    + intros s0 j Hj. apply Hbody. now right.
    + apply Hbody; [now left | exact Hs].
Qed.

(** ** Fallbacks for short series *)

Section Fallbacks.

Variable prices : list float.
Variable period : nat.

Lemma calculateRSI_short :
  (length prices < period + 1)%nat ->
  calculateRSI prices period = ret 50.
Proof.
  intros Hlen. unfold calculateRSI.
  destruct (Nat.ltb_spec (length prices) (period + 1)); [reflexivity | lia].
Qed.

Lemma calculateSMA_short :
  prices <> [] -> (length prices < period)%nat ->
  calculateSMA prices period = ret (Number (last prices nan)).
Proof.
  intros Hne Hlen. unfold calculateSMA.
  destruct (Nat.ltb_spec (length prices) period); [|lia].
  now apply get_last.
Qed.

Lemma calculateEMA_short :
  prices <> [] -> (length prices < period)%nat ->
  calculateEMA prices period = ret (Number (last prices nan)).
Proof.
  intros Hne Hlen. unfold calculateEMA.
  destruct (Nat.ltb_spec (length prices) period); [|lia].
  now apply get_last.
Qed.

End Fallbacks.

(** C9: on a non-empty close sequence shorter than the lookback, each
    indicator returns its fallback: RSI(14) is exactly 50 when there are
    fewer than 15 closes, and SMA and EMA return the most recent close when
    there are fewer than [period] closes. *)
Theorem short_series_fallbacks (prices : list float) (period : nat) :
  prices <> [] ->
  ((length prices < 15)%nat -> result (calculateRSI prices 14) = 50) /\
  ((length prices < period)%nat ->
   result (calculateSMA prices period) = Number (last prices nan) /\
   result (calculateEMA prices period) = Number (last prices nan)).
Proof.
  intros Hne. split.
  - intros Hlen. rewrite calculateRSI_short by (simpl; lia). reflexivity.
  - intros Hlen.
    rewrite calculateSMA_short, calculateEMA_short by assumption.
    split; reflexivity.
Qed.

(** Ten closes, the example of the specification: RSI is 50, and the 20-bar
    SMA and EMA are the last close. *)
Lemma short_series_fallbacks_witness :
  result (calculateRSI (map close (rising 10)) 14) = 50 /\
  result (calculateSMA (map close (rising 10)) 20) = Number 109 /\
  result (calculateEMA (map close (rising 10)) 20) = Number 109.
Proof.
  assert (Hne : map close (rising 10) <> []) by discriminate.
  destruct (short_series_fallbacks (map close (rising 10)) 20 Hne) as [Hrsi Hma].
  split.
  - apply Hrsi. simpl. lia.
  - apply Hma. simpl. lia.
Defined.

(** ** Every read of the indicator engine is inside its array *)

Section InBounds.

Variable prices : list float.
Hypothesis prices_nonempty : prices <> [].

Lemma calculateRSI_in_bounds (period : nat) :
  in_bounds (calculateRSI prices period) = true.
Proof.
  unfold calculateRSI.
  destruct (Nat.ltb_spec (length prices) (period + 1)) as [Hshort|Hlong].
  - reflexivity.
  - apply in_bounds_bind_true; [|reflexivity].
    apply for_each_in_bounds. intros [gains losses] i Hi.
    apply in_seq in Hi.
    apply in_bounds_bind_true.
    + apply get_inside. lia.
    + intros a. apply in_bounds_bind_true.
      * apply get_inside. lia.
      * reflexivity.
Qed.

Lemma calculateSMA_defined (period : nat) :
  in_bounds (calculateSMA prices period) = true /\
  is_number (result (calculateSMA prices period)) = true.
Proof.
  unfold calculateSMA.
  destruct (Nat.ltb_spec (length prices) period) as [Hshort|Hlong].
  - rewrite (get_last prices nan prices_nonempty). split; reflexivity.
  - split; reflexivity.
Qed.

End InBounds.

Lemma calculateSMA_full_window (window : list float) (period : nat) :
  length window = period ->
  calculateSMA window period =
  ret (Number (reduce (fun a b => a + b) 0 (slice_from (- Z.of_nat period) window)
               / of_nat period)).
Proof.
  intros Hlen. unfold calculateSMA.
  destruct (Nat.ltb_spec (length window) period); [lia | reflexivity].
Qed.

Lemma calculateEMA_defined (prices : list float) (period : nat) :
  prices <> [] ->
  in_bounds (calculateEMA prices period) = true /\
  is_number (result (calculateEMA prices period)) = true.
Proof.
  intros Hne. unfold calculateEMA.
  destruct (Nat.ltb_spec (length prices) period) as [Hshort|Hlong].
  - rewrite (get_last prices nan Hne). split; reflexivity.
  - rewrite calculateSMA_full_window by now apply length_slice_prefix.
    split.
    + apply in_bounds_bind_true; [reflexivity|].
      intros ema. apply for_each_in_bounds. intros s i Hi.
      apply in_seq in Hi.
      apply in_bounds_bind_true; [|reflexivity].
      apply get_inside. lia.
    + rewrite result_bind.
      apply (for_each_result_invariant (fun v => is_number v = true)).
      * intros s i _ _. reflexivity.
      * reflexivity.
Qed.

Lemma calculateMACD_in_bounds (prices : list float) :
  prices <> [] -> in_bounds (calculateMACD prices) = true.
Proof.
  intros Hne. unfold calculateMACD.
  apply in_bounds_bind_true; [now apply calculateEMA_defined|].
  intros ema12. apply in_bounds_bind_true; [now apply calculateEMA_defined|].
  intros ema26. apply in_bounds_bind_true; [|reflexivity].
  apply calculateEMA_defined. discriminate.
Qed.

Lemma calculateBollingerBands_defined (prices : list float) (period : nat) (stdDev : float) :
  prices <> [] ->
  in_bounds (calculateBollingerBands prices period stdDev) = true /\
  is_number (middle (result (calculateBollingerBands prices period stdDev))) = true.
Proof.
  intros Hne. unfold calculateBollingerBands.
  destruct (calculateSMA_defined prices Hne period) as [Hin Hnum].
  split.
  - apply in_bounds_bind_true; [exact Hin | reflexivity].
  - exact Hnum.
Qed.

Lemma map_nonempty {X Y : Type} (f : X -> Y) (l : list X) : l <> [] -> map f l <> [].
Proof. destruct l; [congruence | discriminate]. Qed.

(** C10: on a non-empty series the indicator engine returns its bundle with
    every index read inside its array (the RSI loop, the SMA and EMA
    fallbacks and the EMA loop), the support and resistance extrema are taken
    over non-empty windows, and no field of the bundle is [undefined]. *)
Theorem calculateTechnicalIndicators_in_bounds (candlesticks : list CandlestickData) :
  candlesticks <> [] ->
  let r := calculateTechnicalIndicators candlesticks in
  in_bounds r = true /\
  is_number (sma20 (result r)) = true /\
  is_number (sma50 (result r)) = true /\
  is_number (ema20 (result r)) = true /\
  is_number (Macd.signal (macd (result r))) = true /\
  is_number (middle (bollinger (result r))) = true /\
  slice_from (-20) (map low candlesticks) <> [] /\
  slice_from (-20) (map high candlesticks) <> [].
Proof.
  intros Hcs r.
  assert (Hne : map close candlesticks <> []) by now apply map_nonempty.
  repeat apply conj.
  - unfold r, calculateTechnicalIndicators.
    apply in_bounds_bind_true; [now apply calculateRSI_in_bounds|]. intros rsi0.
    apply in_bounds_bind_true; [now apply calculateSMA_defined|]. intros s20.
    apply in_bounds_bind_true; [now apply calculateSMA_defined|]. intros s50.
    apply in_bounds_bind_true; [now apply calculateEMA_defined|]. intros e20.
    apply in_bounds_bind_true; [now apply calculateMACD_in_bounds|]. intros m.
    apply in_bounds_bind_true; [now apply calculateBollingerBands_defined|].
    reflexivity.
  - now apply (calculateSMA_defined _ Hne 20).
  - now apply (calculateSMA_defined _ Hne 50).
  - now apply (calculateEMA_defined _ 20 Hne).
  - apply (calculateEMA_defined [_] 9). discriminate.
  - now apply (calculateBollingerBands_defined _ 20 2 Hne).
  - apply slice_from_nonempty; [now apply map_nonempty | lia].
  - apply slice_from_nonempty; [now apply map_nonempty | lia].
Qed.

Lemma calculateTechnicalIndicators_in_bounds_witness :
  in_bounds (calculateTechnicalIndicators (rising 60)) = true.
Proof.
  assert (Hne : rising 60 <> []) by discriminate.
  exact (proj1 (calculateTechnicalIndicators_in_bounds (rising 60) Hne)).
Defined.

(** On the empty series the fallback reads [prices[-1]]: the flag is what
    tells the two situations apart. *)
Example empty_series_reads_outside :
  in_bounds (calculateTechnicalIndicators []) = false /\
  sma20 (result (calculateTechnicalIndicators [])) = Undefined.
Proof. split; reflexivity. Qed.

(** ** Binary64 facts

    The primitive operations are specified through [Prim2SF]; the facts the
    services rely on are derived here from that specification. *)

(** *** Rounding *)

Module Rounding64.

Import SF64.

Local Open Scope Z_scope.

Abbreviation fexp64 := (SpecFloat.fexp prec emax).

Lemma fexp64_eq (x : Z) : fexp64 x = Z.max (x - 53) (-1074).
Proof. reflexivity. Qed.

Lemma digits2_size (p : positive) : digits2_pos p = Pos.size p.
Proof. induction p; simpl; congruence. Qed.

Lemma digits2_bounds (p : positive) :
  2 ^ (Zpos (digits2_pos p) - 1) <= Zpos p < 2 ^ Zpos (digits2_pos p).
Proof.
  rewrite digits2_size. split.
  - pose proof (Pos.size_le p) as H.
    apply Pos2Z.pos_le_pos in H. rewrite Pos2Z.inj_pow in H.
    replace (Zpos (Pos.size p)) with (Zpos (Pos.size p) - 1 + 1) in H by lia.
    rewrite Z.pow_add_r in H by lia. change (Zpos p~0) with (2 * Zpos p) in H. lia.
  - pose proof (Pos.size_gt p) as H.
    apply Pos2Z.pos_lt_pos in H. rewrite Pos2Z.inj_pow in H. exact H.
Qed.

Lemma digits2_unique (p : positive) (n : Z) :
  2 ^ (n - 1) <= Zpos p < 2 ^ n -> Zpos (digits2_pos p) = n.
Proof.
  intros [Hlo Hhi]. destruct (digits2_bounds p) as [Dlo Dhi].
  set (d := Zpos (digits2_pos p)) in *.
  assert (0 < n).
  { destruct (Z.lt_trichotomy n 0) as [Hn|[Hn|Hn]]; [|subst n; simpl in Hhi; lia|exact Hn].
    rewrite (Z.pow_neg_r 2 n) in Hhi by lia. lia. }
  destruct (Z.lt_trichotomy d n) as [Hlt|[Heq|Hgt]]; [|exact Heq|].
  - assert (2 ^ d <= 2 ^ (n - 1)) by (apply Z.pow_le_mono_r; lia). lia.
  - assert (2 ^ n <= 2 ^ (d - 1)) by (apply Z.pow_le_mono_r; lia). lia.
Qed.

(** *** Shifting a mantissa to the right *)

Lemma shr_1_inv (P n : Z) (mrs : shr_record) :
  0 <= n -> shr_inv P n mrs -> shr_inv P (n + 1) (shr_1 mrs).
Proof.
  intros Hn (Hm & rem & HP & Hrem & _). unfold shr_inv.
  rewrite Z.pow_add_r, Z.pow_1_r by lia.
  assert (Hpow : 0 < 2 ^ n) by (apply Z.pow_pos_nonneg; lia).
  destruct mrs as [m r s]. simpl in *.
  destruct m as [|[p|p|]|p]; cbn [shr_1 shr_m shr_r]; try lia;
    (split; [lia|]).
  - exists rem; repeat split; try lia; discriminate.
  - exists (rem + 2 ^ n); repeat split; lia.
  - exists rem; repeat split; try lia; discriminate.
  - exists (rem + 2 ^ n); repeat split; lia.
Qed.

Lemma iter_shr_1_inv (P : Z) (p : positive) :
  forall n mrs, 0 <= n -> shr_inv P n mrs ->
  shr_inv P (n + Zpos p) (iter_pos shr_1 p mrs).
Proof.
  induction p as [p IH|p IH|]; intros n mrs Hn H; simpl.
  - replace (n + Zpos p~1) with (n + 1 + Zpos p + Zpos p) by lia.
    apply IH; [lia|]. apply IH; [lia|]. now apply shr_1_inv.
  - replace (n + Zpos p~0) with (n + Zpos p + Zpos p) by lia.
    apply IH; [lia|]. now apply IH.
  - now apply shr_1_inv.
Qed.

Lemma shr_nonneg_1 (mrs : shr_record) : 0 <= shr_m mrs -> 0 <= shr_m (shr_1 mrs).
Proof.
  destruct mrs as [m r s]. simpl. destruct m as [|[p|p|]|p]; simpl; lia.
Qed.

Lemma iter_shr_nonneg (p : positive) :
  forall mrs, 0 <= shr_m mrs -> 0 <= shr_m (iter_pos shr_1 p mrs).
Proof.
  induction p as [p IH|p IH|]; intros mrs H; simpl.
  - apply IH, IH. now apply shr_nonneg_1.
  - now apply IH, IH.
  - now apply shr_nonneg_1.
Qed.

Lemma shr_nonneg (mrs : shr_record) (e n : Z) :
  0 <= shr_m mrs -> 0 <= shr_m (fst (shr mrs e n)).
Proof.
  intros H. unfold shr. destruct n; simpl; try assumption. now apply iter_shr_nonneg.
Qed.

Lemma round_nearest_even_nonneg (m : Z) (l : location) :
  0 <= m -> 0 <= round_nearest_even m l.
Proof.
  intros H. unfold round_nearest_even.
  destruct l as [|[| |]]; try lia. destruct (Z.even m); lia.
Qed.

Lemma shr_record_of_loc_m (m : Z) (l : location) : shr_m (shr_record_of_loc m l) = m.
Proof. destruct l as [|[| |]]; reflexivity. Qed.

Lemma binary_round_aux_sign (s : bool) (m e : Z) (l : location) :
  0 <= m -> has_sign s (binary_round_aux prec emax s m e l).
Proof.
  intros Hm. unfold binary_round_aux.
  unfold shr_fexp at 1.
  destruct (shr (shr_record_of_loc m l) e _) as [mrs' e'] eqn:E1.
  assert (H1 : 0 <= shr_m mrs').
  { change mrs' with (fst (mrs', e')). rewrite <- E1. apply shr_nonneg.
    now rewrite shr_record_of_loc_m. }
  unfold shr_fexp.
  destruct (shr _ e' _) as [mrs'' e''] eqn:E2.
  assert (H2 : 0 <= shr_m mrs'').
  { change mrs'' with (fst (mrs'', e'')). rewrite <- E2. apply shr_nonneg.
    rewrite shr_record_of_loc_m. now apply round_nearest_even_nonneg. }
  destruct (shr_m mrs'') as [|p|p]; simpl; try reflexivity; try lia.
  destruct (Z.leb e'' _); reflexivity.
Qed.

(** *** Rounding an exact mantissa *)

Lemma shr_nonpos (mrs : shr_record) (e n : Z) : n <= 0 -> shr mrs e n = (mrs, e).
Proof. intros H. unfold shr. destruct n; try reflexivity. lia. Qed.

Lemma shr_fexp_small (M : positive) (e : Z) :
  Zpos (digits2_pos M) <= 53 -> -1074 <= e ->
  shr_fexp prec emax (Zpos M) e loc_Exact = (Build_shr_record (Zpos M) false false, e).
Proof.
  intros Hd He. unfold shr_fexp. cbn [Zdigits2 shr_record_of_loc].
  apply shr_nonpos. rewrite fexp64_eq. lia.
Qed.

Lemma binary_round_aux_small (s : bool) (M : positive) (e : Z) :
  Zpos (digits2_pos M) <= 53 -> -1074 <= e ->
  binary_round_aux prec emax s (Zpos M) e loc_Exact = round_result s M e.
Proof.
  intros Hd He. unfold binary_round_aux.
  rewrite shr_fexp_small by assumption.
  cbn [shr_m loc_of_shr_record round_nearest_even].
  rewrite shr_fexp_small by assumption.
  reflexivity.
Qed.

Lemma round_nearest_even_cases (mrs : shr_record) :
  let m1 := round_nearest_even (shr_m mrs) (loc_of_shr_record mrs) in
  m1 = shr_m mrs \/ (m1 = shr_m mrs + 1 /\ shr_r mrs = true).
Proof.
  destruct mrs as [m [|] [|]]; cbn; auto.
  destruct (Z.even m); auto.
Qed.

Lemma binary_round_aux_large (s : bool) (M : positive) (e : Z) :
  53 < Zpos (digits2_pos M) -> -1074 <= e ->
  let k := Zpos (digits2_pos M) - 53 in
  exists (mt : Z) (rem : Z) (up : bool),
    Zpos M = mt * 2 ^ k + rem /\ 0 <= rem < 2 ^ k /\
    2 ^ 52 <= mt < 2 ^ 53 /\ (up = true -> 0 < rem) /\
    binary_round_aux prec emax s (Zpos M) e loc_Exact =
    if mt + Z.b2z up =? 2 ^ 53
    then round_result s (2 ^ 52)%positive (e + k + 1)
    else round_result s (Z.to_pos (mt + Z.b2z up)) (e + k).
Proof.
  intros Hd He k.
  assert (Hk : 0 < k) by (unfold k; lia).
  unfold binary_round_aux.
  unfold shr_fexp at 1. cbn [Zdigits2 shr_record_of_loc].
  rewrite fexp64_eq.
  replace (Z.max (Zpos (digits2_pos M) + e - 53) (-1074) - e) with k by (unfold k; lia).
  unfold shr at 1. destruct k as [|p|p] eqn:Ek; try lia.
  rewrite <- Ek in *.
  pose proof (iter_shr_1_inv (Zpos M) p 0 (Build_shr_record (Zpos M) false false)) as Hinv.
  simpl Z.add in Hinv. rewrite <- Ek in Hinv.
  destruct Hinv as (Hm & rem & HM & Hrem & Hr).
  { lia. }
  { split; [simpl; lia|]. exists 0; simpl; repeat split; try lia; discriminate. }
  set (mrs := iter_pos shr_1 p (Build_shr_record (Zpos M) false false)) in *.
  set (mt := shr_m mrs) in *.
  assert (Hpow : 0 < 2 ^ k) by (apply Z.pow_pos_nonneg; lia).
  assert (Hmt : 2 ^ 52 <= mt < 2 ^ 53).
  { destruct (digits2_bounds M) as [Dlo Dhi].
    replace (Zpos (digits2_pos M) - 1) with (52 + k) in Dlo by (unfold k in *; lia).
    replace (Zpos (digits2_pos M)) with (53 + k) in Dhi by (unfold k in *; lia).
    rewrite Z.pow_add_r in Dlo, Dhi by lia.
    split; nia. }
  change (2 ^ 52) with 4503599627370496 in *.
  change (2 ^ 53) with 9007199254740992 in *.
  destruct (round_nearest_even_cases mrs) as [Hm1|[Hm1 Hup]]; fold mt in Hm1.
  - (* rounded down *)
    exists mt, rem, false. cbn [Z.b2z]. rewrite Z.add_0_r.
    repeat split; try lia; try discriminate.
    rewrite Hm1.
    destruct (Z.eqb_spec mt 9007199254740992) as [Heq|Hne]; [lia|].
    destruct mt as [|q|q] eqn:Eq; try lia.
    rewrite shr_fexp_small; [reflexivity| |lia].
    rewrite (digits2_unique q 53); [lia|].
    change (2 ^ (53 - 1)) with 4503599627370496.
    change (2 ^ 53) with 9007199254740992. lia.
  - (* rounded up *)
    exists mt, rem, true. cbn [Z.b2z].
    repeat split; try lia; [auto|].
    rewrite Hm1.
    destruct (Z.eqb_spec (mt + 1) 9007199254740992) as [Heq|Hne].
    + rewrite Heq. unfold shr_fexp.
      change (Zdigits2 9007199254740992) with 54. rewrite fexp64_eq.
      replace (Z.max (54 + (e + k) - 53) (-1074) - (e + k)) with 1 by lia.
      reflexivity.
    + destruct (mt + 1) as [|q|q] eqn:Eq; try lia.
      rewrite shr_fexp_small; [reflexivity| |lia].
      rewrite (digits2_unique q 53); [lia|].
      change (2 ^ (53 - 1)) with 4503599627370496.
      change (2 ^ 53) with 9007199254740992. lia.
Qed.

(** *** Aligning a mantissa to a smaller exponent *)

Lemma iter_xO_value (m d : positive) : Zpos (Pos.iter xO m d) = Zpos m * 2 ^ Zpos d.
Proof.
  induction d as [|d IH] using Pos.peano_ind.
  - simpl. lia.
  - rewrite Pos.iter_succ, Pos2Z.inj_succ, Z.pow_succ_r by lia.
    rewrite Pos2Z.inj_xO, IH. lia.
Qed.

Lemma shl_align_spec (mx : positive) (ex e' : Z) :
  let r := shl_align mx ex e' in
  snd r = Z.min ex e' /\ Zpos (fst r) = Zpos mx * 2 ^ (ex - snd r).
Proof.
  unfold shl_align.
  destruct (e' - ex) as [|d|d] eqn:E; cbn [fst snd].
  - split; [lia|]. rewrite Z.sub_diag. simpl. lia.
  - split; [lia|]. rewrite Z.sub_diag. simpl. lia.
  - split; [lia|]. rewrite iter_xO_value. f_equal. f_equal. lia.
Qed.

Lemma digits2_shifted (m m' : positive) (n : Z) :
  0 <= n -> Zpos m' = Zpos m * 2 ^ n ->
  Zpos (digits2_pos m') = Zpos (digits2_pos m) + n.
Proof.
  intros Hn Hm'. apply digits2_unique. rewrite Hm'.
  destruct (digits2_bounds m) as [Dlo Dhi].
  replace (Zpos (digits2_pos m) + n - 1) with (Zpos (digits2_pos m) - 1 + n) by lia.
  rewrite !Z.pow_add_r by lia.
  assert (0 < 2 ^ n) by (apply Z.pow_pos_nonneg; lia).
  split; nia.
Qed.

Lemma bounded_spec (m : positive) (e : Z) :
  bounded prec emax m e = true ->
  Zpos (digits2_pos m) <= 53 /\ -1074 <= e <= 971 /\
  (e = -1074 \/ Zpos (digits2_pos m) = 53).
Proof.
  unfold bounded, canonical_mantissa. rewrite fexp64_eq.
  intros H. apply andb_prop in H. destruct H as [H1 H2].
  apply Z.eqb_eq in H1. apply Z.leb_le in H2.
  change (emax - prec) with 971 in H2. lia.
Qed.

(** The two shapes of [binary_round] on a mantissa at an exponent that a
    representable number can have. *)
Lemma binary_round_cases (s : bool) (P : positive) (ez : Z) :
  -1074 <= ez ->
  let d := Zpos (digits2_pos P) in
  (d <= 53 /\
   exists (mz : positive) (f : Z),
     f <= ez /\ -1074 <= f /\ Zpos mz = Zpos P * 2 ^ (ez - f) /\
     Zpos (digits2_pos mz) <= 53 /\
     binary_round prec emax s P ez = round_result s mz f) \/
  (53 < d /\
   exists (mt rem : Z) (up : bool),
     Zpos P = mt * 2 ^ (d - 53) + rem /\ 0 <= rem < 2 ^ (d - 53) /\
     2 ^ 52 <= mt < 2 ^ 53 /\ (up = true -> 0 < rem) /\
     binary_round prec emax s P ez =
     if mt + Z.b2z up =? 2 ^ 53
     then round_result s (2 ^ 52)%positive (ez + (d - 53) + 1)
     else round_result s (Z.to_pos (mt + Z.b2z up)) (ez + (d - 53))).
Proof.
  intros Hez d. unfold binary_round.
  pose proof (shl_align_spec P ez (fexp64 (Zpos (digits2_pos P) + ez))) as Hal.
  destruct (shl_align P ez _) as [mz f]. cbn [fst snd] in Hal.
  destruct Hal as [Hf Hmz]. rewrite fexp64_eq in Hf. fold d in Hf.
  destruct (Z.le_gt_cases d 53) as [Hd|Hd].
  - left. split; [exact Hd|]. exists mz, f.
    assert (Hdz : Zpos (digits2_pos mz) = d + (ez - f))
      by (apply digits2_shifted; [lia | exact Hmz]).
    repeat split; try lia.
    apply binary_round_aux_small; lia.
  - right. split; [exact Hd|].
    assert (Hfe : f = ez) by lia.
    rewrite Hfe in Hmz |- *. clear Hf Hfe.
    rewrite Z.sub_diag in Hmz. simpl in Hmz.
    assert (Hmp : mz = P) by lia. rewrite Hmp.
    apply (binary_round_aux_large s P ez); [exact Hd | exact Hez].
Qed.

Lemma above_round_result (s : bool) (mx : positive) (ex : Z) (m : positive) (e : Z) :
  mag_le mx ex m e -> above s mx ex (round_result s m e).
Proof.
  intros H. unfold round_result. destruct (e <=? 971); simpl; auto.
Qed.

Lemma below_round_result (s : bool) (mx : positive) (ex : Z) (m : positive) (e : Z) :
  e <= 971 -> mag_le m e mx ex -> below s mx ex (round_result s m e).
Proof.
  intros He H. unfold round_result.
  destruct (Z.leb_spec e 971); [|lia]. simpl; auto.
Qed.

Lemma pow2_ge_2 (n : Z) : 0 < n -> 2 <= 2 ^ n.
Proof.
  intros H. change 2 with (2 ^ 1) at 1. apply Z.pow_le_mono_r; lia.
Qed.

Section Monotone.

Variables (s : bool) (mx : positive) (ex : Z) (P : positive) (ez : Z).
Hypothesis Hbounded : bounded prec emax mx ex = true.
Hypothesis Hez : -1074 <= ez <= ex.

(** Rounding is monotone against a representable number, from below... *)
Lemma binary_round_above :
  Zpos mx * 2 ^ (ex - ez) <= Zpos P ->
  above s mx ex (binary_round prec emax s P ez).
Proof.
  intros Hle.
  destruct (bounded_spec mx ex Hbounded) as (Hdx & Hex & Hcanon).
  destruct (digits2_bounds mx) as [Xlo Xhi].
  destruct (digits2_bounds P) as [Plo Phi].
  set (d := Zpos (digits2_pos P)) in *.
  set (a := ex - ez) in *.
  assert (Ha : 0 <= a) by (unfold a; lia).
  assert (HA : 0 < 2 ^ a) by (apply Z.pow_pos_nonneg; lia).
  destruct (binary_round_cases s P ez (proj1 Hez))
    as [(Hd & mz & f & Hf & Hf' & Hmz & Hdz & ->)
       |(Hd & mt & rem & up & HP & Hrem & Hmt & Hup & ->)]; fold d in Hd.
  - (* exact *)
    apply above_round_result. unfold mag_le.
    destruct (Z.eq_dec ex f) as [Heq|Hne].
    + right. split; [exact Heq|].
      replace (ez - f) with 0 in Hmz by lia.
      replace a with 0 in Hle by (unfold a; lia). simpl in Hmz, Hle. lia.
    + exfalso.
      assert (Hx53 : Zpos (digits2_pos mx) = 53) by lia.
      rewrite Hx53 in Xlo. change (2 ^ (53 - 1)) with 4503599627370496 in Xlo.
      destruct (digits2_bounds mz) as [_ Zhi].
      assert (Zhi' : Zpos mz < 2 ^ 53).
      { eapply Z.lt_le_trans; [exact Zhi|]. apply Z.pow_le_mono_r; lia. }
      change (2 ^ 53) with 9007199254740992 in Zhi'.
      set (b := ez - f) in *.
      assert (Hb : 0 <= b) by (unfold b; lia).
      assert (HB : 0 < 2 ^ b) by (apply Z.pow_pos_nonneg; lia).
      assert (HAB : 2 <= 2 ^ a * 2 ^ b).
      { rewrite <- Z.pow_add_r by lia. apply pow2_ge_2. unfold a, b. lia. }
      nia.
  - (* inexact *)
    fold d in HP, Hrem |- *.
    set (k := d - 53) in *.
    assert (Hk : 0 < k) by (unfold k; lia).
    assert (HK : 0 < 2 ^ k) by (apply Z.pow_pos_nonneg; lia).
    change (2 ^ 52) with 4503599627370496 in *.
    change (2 ^ 53) with 9007199254740992 in *.
    assert (Hgoal : ex < ez + k \/ (ex = ez + k /\ Zpos mx <= mt)).
    { destruct (Z.lt_trichotomy ex (ez + k)) as [Hlt|[Heq|Hgt]]; [now left| |].
      - right. split; [exact Heq|].
        replace a with k in Hle by (unfold a; lia). nia.
      - exfalso.
        assert (Hx53 : Zpos (digits2_pos mx) = 53) by lia.
        rewrite Hx53 in Xlo. change (2 ^ (53 - 1)) with 4503599627370496 in Xlo.
        replace a with (k + (a - k)) in Hle by lia.
        rewrite Z.pow_add_r in Hle by (unfold a; lia).
        assert (HC : 2 <= 2 ^ (a - k)) by (apply pow2_ge_2; unfold a; lia).
        set (K := 2 ^ k) in *. set (C := 2 ^ (a - k)) in *.
        assert (H1 : Zpos mx * C * K < (mt + 1) * K) by lia.
        apply Z.mul_lt_mono_pos_r in H1; [|exact HK].
        assert (H2 : Zpos mx * 2 <= Zpos mx * C) by (apply Z.mul_le_mono_nonneg_l; lia).
        lia. }
    destruct (Z.eqb_spec (mt + Z.b2z up) 9007199254740992) as [Hcarry|Hnocarry].
    + apply above_round_result. unfold mag_le. left. lia.
    + apply above_round_result. unfold mag_le.
      destruct Hgoal as [Hlt|[Heq Hm]]; [left; lia|right].
      split; [lia|]. destruct up; cbn [Z.b2z] in *; lia.
Qed.

(** ... and from above. *)
Lemma binary_round_below :
  Zpos P <= Zpos mx * 2 ^ (ex - ez) ->
  below s mx ex (binary_round prec emax s P ez).
Proof.
  intros Hle.
  destruct (bounded_spec mx ex Hbounded) as (Hdx & Hex & Hcanon).
  destruct (digits2_bounds mx) as [Xlo Xhi].
  destruct (digits2_bounds P) as [Plo Phi].
  set (d := Zpos (digits2_pos P)) in *.
  set (a := ex - ez) in *.
  assert (Ha : 0 <= a) by (unfold a; lia).
  assert (HA : 0 < 2 ^ a) by (apply Z.pow_pos_nonneg; lia).
  destruct (binary_round_cases s P ez (proj1 Hez))
    as [(Hd & mz & f & Hf & Hf' & Hmz & Hdz & ->)
       |(Hd & mt & rem & up & HP & Hrem & Hmt & Hup & ->)]; fold d in Hd.
  - (* exact *)
    apply below_round_result; [lia|]. unfold mag_le.
    destruct (Z.eq_dec ex f) as [Heq|Hne]; [right|left; lia].
    split; [lia|].
    replace (ez - f) with 0 in Hmz by lia.
    replace a with 0 in Hle by (unfold a; lia). simpl in Hmz, Hle. lia.
  - (* inexact *)
    fold d in HP, Hrem |- *.
    set (k := d - 53) in *.
    assert (Hk : 0 < k) by (unfold k; lia).
    assert (HK : 0 < 2 ^ k) by (apply Z.pow_pos_nonneg; lia).
    assert (Hka : k <= a).
    { (* 2^(d-1) <= P <= mx * 2^a < 2^(53+a) *)
      assert (Hlt : 2 ^ (d - 1) < 2 ^ (53 + a)).
      { eapply Z.le_lt_trans; [exact Plo|]. eapply Z.le_lt_trans; [exact Hle|].
        rewrite Z.pow_add_r by lia.
        assert (Zpos mx < 2 ^ 53).
        { eapply Z.lt_le_trans; [exact Xhi|]. apply Z.pow_le_mono_r; lia. }
        nia. }
      apply Z.pow_lt_mono_r_iff in Hlt; unfold k; lia. }
    change (2 ^ 52) with 4503599627370496 in *.
    change (2 ^ 53) with 9007199254740992 in *.
    assert (Hsame : ex = ez + k -> mt + Z.b2z up <= Zpos mx).
    { intros Heq. replace a with k in Hle by (unfold a; lia).
      destruct up; cbn [Z.b2z].
      - specialize (Hup eq_refl). nia.
      - nia. }
    assert (Hx : ez + k < ex -> 4503599627370496 <= Zpos mx).
    { intros Hlt.
      assert (Hx53 : Zpos (digits2_pos mx) = 53) by lia.
      rewrite Hx53 in Xlo. exact Xlo. }
    assert (Xhi' : Zpos mx < 9007199254740992).
    { change 9007199254740992 with (2 ^ 53).
      eapply Z.lt_le_trans; [exact Xhi|]. apply Z.pow_le_mono_r; lia. }
    destruct (Z.eqb_spec (mt + Z.b2z up) 9007199254740992) as [Hcarry|Hnocarry].
    + assert (Hlt : ez + k < ex).
      { destruct (Z.eq_dec ex (ez + k)) as [Heq|Hne]; [|unfold a in Hka; lia].
        specialize (Hsame Heq). lia. }
      apply below_round_result; [lia|]. unfold mag_le.
      destruct (Z.eq_dec (ez + k + 1) ex) as [Heq|Hne]; [right|left; lia].
      split; [exact Heq|]. specialize (Hx Hlt).
      change (Zpos (2 ^ 52)) with 4503599627370496. lia.
    + apply below_round_result; [unfold a in Hka; lia|]. unfold mag_le.
      destruct (Z.eq_dec (ez + k) ex) as [Heq|Hne]; [right|left; unfold a in Hka; lia].
      split; [exact Heq|].
      assert (Hm := Hsame (eq_sym Heq)).
      destruct up; cbn [Z.b2z] in *; lia.
Qed.

End Monotone.

(** *** The order on representations *)

Lemma SFcompare_refl (x : spec_float) :
  SF_is_nan x = false -> SFcompare x x = Some Eq.
Proof.
  destruct x as [s|s| |s m e]; simpl; intros H;
    try discriminate; try (destruct s; reflexivity).
  rewrite Z.compare_refl.
  change (Pos.compare_cont Eq m m) with (Pos.compare m m).
  rewrite Pos.compare_refl. destruct s; reflexivity.
Qed.

Lemma SFltb_irrefl (x : spec_float) : SFltb x x = false.
Proof.
  unfold SFltb.
  destruct x as [s|s| |s m e]; try (destruct s; reflexivity); try reflexivity.
  rewrite SFcompare_refl; reflexivity.
Qed.

Lemma mag_compare (m1 : positive) (e1 : Z) (m2 : positive) (e2 : Z) :
  let c := match Z.compare e1 e2 with
           | Lt => Lt
           | Gt => Gt
           | Eq => Pos.compare_cont Eq m1 m2
           end in
  (c <> Gt <-> mag_le m1 e1 m2 e2) /\ (c <> Lt <-> mag_le m2 e2 m1 e1).
Proof.
  unfold mag_le. simpl.
  change (Pos.compare_cont Eq m1 m2) with (Pos.compare m1 m2).
  destruct (Z.compare_spec e1 e2) as [He|He|He];
    [destruct (Pos.compare_spec m1 m2) as [Hm|Hm|Hm]| |];
    split; split; intros H; try congruence; try lia; try discriminate.
Qed.

Ltac sign_cases :=
  repeat match goal with s : bool |- _ => destruct s end;
  simpl; try tauto; try discriminate; try reflexivity;
  try (split; [intros H; try discriminate H; auto | intros H; try reflexivity; try tauto;
         repeat match goal with
         | H : _ \/ _ |- _ => destruct H
         | H : False |- _ => destruct H
         end; try discriminate; try congruence]).

Lemma SFleb_SFle (x y : spec_float) : SFleb x y = true <-> SFle x y.
Proof.
  unfold SFleb.
  destruct x as [s1|s1| |s1 m1 e1], y as [s2|s2| |s2 m2 e2]; simpl;
    try (sign_cases; fail).
  destruct (mag_compare m1 e1 m2 e2) as [H1 H2]. simpl in H1, H2.
  destruct s1, s2; simpl; try (sign_cases; fail);
    [rewrite <- H2 | rewrite <- H1];
    (destruct (e1 ?= e2)%Z; [destruct (Pos.compare_cont Eq m1 m2)| |]);
    simpl; split; intros H; try reflexivity; try discriminate; try congruence.
Qed.

Lemma mag_le_trans (m1 : positive) (e1 : Z) (m2 : positive) (e2 : Z)
  (m3 : positive) (e3 : Z) :
  mag_le m1 e1 m2 e2 -> mag_le m2 e2 m3 e3 -> mag_le m1 e1 m3 e3.
Proof. unfold mag_le. lia. Qed.

Lemma mag_le_refl (m : positive) (e : Z) : mag_le m e m e.
Proof. unfold mag_le. lia. Qed.

Lemma mag_le_total (m1 : positive) (e1 : Z) (m2 : positive) (e2 : Z) : mag_le m1 e1 m2 e2 \/ mag_le m2 e2 m1 e1.
Proof. unfold mag_le. lia. Qed.

Lemma SFle_trans (x y z : spec_float) : SFle x y -> SFle y z -> SFle x z.
Proof.
  destruct x as [s1|s1| |s1 m1 e1], y as [s2|s2| |s2 m2 e2], z as [s3|s3| |s3 m3 e3];
    simpl; try tauto; try congruence;
    try (destruct s1, s2, s3; simpl; intuition congruence).
  destruct s1, s2, s3; simpl; try tauto; eauto using mag_le_trans.
Qed.

Lemma SFle_refl (x : spec_float) : SF_is_nan x = false -> SFle x x.
Proof.
  destruct x as [s|s| |s m e]; simpl; try tauto; try discriminate.
  - destruct s; auto.
  - destruct s; intros _; apply mag_le_refl.
Qed.

Lemma SFle_total (x y : spec_float) : SF_is_nan x = false -> SF_is_nan y = false -> SFle x y \/ SFle y x.
Proof.
  destruct x as [s1|s1| |s1 m1 e1], y as [s2|s2| |s2 m2 e2]; simpl; try discriminate;
    try (destruct s1, s2; simpl; intuition congruence);
     try (destruct s1; simpl; intuition congruence);
     try (destruct s2; simpl; intuition congruence); intros _ _.
  destruct s1, s2; simpl; auto using mag_le_total.
Qed.

Lemma SFltb_SFle (x y : spec_float) : SFltb x y = true -> SFle x y.
Proof.
  intros H. apply SFleb_SFle. unfold SFltb in H. unfold SFleb.
  destruct (SFcompare x y) as [[| |]|]; try discriminate; reflexivity.
Qed.

Lemma SFltb_false_SFle (x y : spec_float) :
  SF_is_nan x = false -> SF_is_nan y = false -> SFltb x y = false -> SFle y x.
Proof.
  intros Hx Hy H. destruct (SFle_total x y Hx Hy) as [Hxy|Hyx]; [|exact Hyx].
  (* x <= y and not x < y: they compare equal *)
  apply SFleb_SFle in Hxy. unfold SFleb in Hxy. unfold SFltb in H.
  destruct (SFcompare x y) as [[| |]|] eqn:E; try discriminate.
  clear H Hxy.
  destruct x as [s1|s1| |s1 m1 e1], y as [s2|s2| |s2 m2 e2]; simpl in *;
    try discriminate; try tauto;
    try (destruct s1, s2; simpl in *; try discriminate; auto; fail);
    try (destruct s1; simpl in *; try discriminate; auto; fail);
    try (destruct s2; simpl in *; try discriminate; auto; fail).
  change (Pos.compare_cont Eq m1 m2) with (Pos.compare m1 m2) in E.
  destruct s1, s2; try discriminate;
    destruct (Z.compare_spec e1 e2) as [->| |]; try discriminate;
    destruct (Pos.compare_spec m1 m2) as [->| |]; try discriminate;
    apply mag_le_refl.
Qed.

(** *** Sums and differences against a representable number *)

Lemma binary_round_sign (s : bool) (P : positive) (e : Z) :
  has_sign s (binary_round prec emax s P e).
Proof.
  unfold binary_round. destruct (shl_align P e _) as [mz ez].
  apply binary_round_aux_sign. lia.
Qed.

Lemma shl_align_min (m : positive) (e ez : Z) :
  ez <= e -> Zpos (fst (shl_align m e ez)) = Zpos m * 2 ^ (e - ez).
Proof.
  intros H. destruct (shl_align_spec m e ez) as [H1 H2].
  rewrite H2, H1. f_equal. f_equal. lia.
Qed.

Section AddSub.

Variables (sx : bool) (mx : positive) (ex : Z) (mt : positive) (et : Z).
Hypothesis Hx : bounded prec emax mx ex = true.
Hypothesis Ht : bounded prec emax mt et = true.

Let X := S754_finite sx mx ex.
Let T := S754_finite false mt et.

Lemma SFadd_finite_above : SFle X (SFadd prec emax X T).
Proof.
  destruct (bounded_spec mt et Ht) as (_ & Het & _).
  destruct (bounded_spec mx ex Hx) as (_ & Hex & _).
  unfold X, T, SFadd.
  set (ez := Z.min ex et).
  assert (Hez : -1074 <= ez <= ex) by (unfold ez; lia).
  pose proof (shl_align_min mx ex ez (proj2 Hez)) as Hx'.
  pose proof (shl_align_min mt et ez ltac:(unfold ez; lia)) as Ht'.
  set (x' := fst (shl_align mx ex ez)) in *.
  set (t' := fst (shl_align mt et ez)) in *.
  cbn [cond_Zopp].
  destruct sx; cbn [cond_Zopp].
  - (* a negative number plus a positive one *)
    destruct (Z.opp (Zpos x') + Zpos t') as [|P|P] eqn:E; cbn [binary_normalize].
    + reflexivity.
    + pose proof (binary_round_sign false P ez) as Hs.
      destruct (binary_round prec emax false P ez) as [s'|s'| |s' m e];
        simpl in Hs |- *; try subst s'; tauto.
    + pose proof (binary_round_below true mx ex P ez Hx Hez ltac:(lia)) as Hb.
      destruct (binary_round prec emax true P ez) as [s'|s'| |s' m e];
        simpl in Hb |- *; try tauto.
      destruct Hb as [-> Hb]. exact Hb.
  - (* two positive numbers *)
    change (Zpos x' + Zpos t') with (Zpos (x' + t')). cbn [binary_normalize].
    pose proof (binary_round_above false mx ex (x' + t') ez Hx Hez ltac:(lia)) as Ha.
    destruct (binary_round prec emax false (x' + t') ez) as [s'|s'| |s' m e];
      simpl in Ha |- *; try tauto.
    destruct Ha as [-> Ha]. exact Ha.
Qed.

Lemma SFsub_finite_below : SFle (SFsub prec emax X T) X.
Proof.
  destruct (bounded_spec mt et Ht) as (_ & Het & _).
  destruct (bounded_spec mx ex Hx) as (_ & Hex & _).
  unfold X, T, SFsub.
  set (ez := Z.min ex et).
  assert (Hez : -1074 <= ez <= ex) by (unfold ez; lia).
  pose proof (shl_align_min mx ex ez (proj2 Hez)) as Hx'.
  pose proof (shl_align_min mt et ez ltac:(unfold ez; lia)) as Ht'.
  set (x' := fst (shl_align mx ex ez)) in *.
  set (t' := fst (shl_align mt et ez)) in *.
  cbn [cond_Zopp].
  destruct sx; cbn [cond_Zopp].
  - (* a negative number minus a positive one *)
    change (Z.opp (Zpos x') - Zpos t') with (Zneg (x' + t')). cbn [binary_normalize].
    pose proof (binary_round_above true mx ex (x' + t') ez Hx Hez ltac:(lia)) as Ha.
    destruct (binary_round prec emax true (x' + t') ez) as [s'|s'| |s' m e];
      simpl in Ha |- *; try tauto.
    destruct Ha as [-> Ha]. exact Ha.
  - (* a positive number minus a positive one *)
    destruct (Zpos x' - Zpos t') as [|P|P] eqn:E; cbn [binary_normalize].
    + reflexivity.
    + pose proof (binary_round_below false mx ex P ez Hx Hez ltac:(lia)) as Hb.
      destruct (binary_round prec emax false P ez) as [s'|s'| |s' m e];
        simpl in Hb |- *; try tauto.
      destruct Hb as [-> Hb]. exact Hb.
    + pose proof (binary_round_sign true P ez) as Hs.
      destruct (binary_round prec emax true P ez) as [s'|s'| |s' m e];
        simpl in Hs |- *; try subst s'; tauto.
Qed.

End AddSub.

(** *** Numbers that are not negative *)

Lemma has_sign_NN (x : spec_float) : has_sign false x -> NN x.
Proof. destruct x as [s|s| |s m e]; simpl; intros H; try subst s; tauto. Qed.

Lemma has_sign_not_nan (s : bool) (x : spec_float) : has_sign s x -> SF_is_nan x = false.
Proof. destruct x; simpl; intros H; try reflexivity. destruct H. Qed.

Lemma NN_not_nan (x : spec_float) : NN x -> SF_is_nan x = false.
Proof. destruct x as [[|]|[|]| |[|] m e]; simpl; tauto. Qed.

Lemma binary_normalize_not_nan (z e : Z) :
  SF_is_nan (binary_normalize prec emax z e false) = false.
Proof.
  destruct z as [|P|P]; cbn [binary_normalize].
  - reflexivity.
  - apply (has_sign_not_nan false), binary_round_sign.
  - apply (has_sign_not_nan true), binary_round_sign.
Qed.

Lemma SFsub_finite_not_nan (x y : spec_float) :
  SF_is_finite x = true -> SF_is_finite y = true ->
  SF_is_nan (SFsub prec emax x y) = false.
Proof.
  destruct x as [sx|sx| |sx mx ex], y as [sy|sy| |sy my ey];
    try discriminate; intros _ _; unfold SFsub.
  - destruct sx, sy; reflexivity.
  - reflexivity.
  - reflexivity.
  - apply binary_normalize_not_nan.
Qed.

Lemma SFmul_square_NN (x : spec_float) :
  SF_is_nan x = false -> NN (SFmul prec emax x x).
Proof.
  destruct x as [s|s| |s m e]; try discriminate; intros _; unfold SFmul.
  - rewrite xorb_nilpotent. exact I.
  - rewrite xorb_nilpotent. exact I.
  - rewrite xorb_nilpotent. apply has_sign_NN, binary_round_aux_sign. lia.
Qed.

Lemma SFadd_NN (x y : spec_float) : NN x -> NN y -> NN (SFadd prec emax x y).
Proof.
  destruct x as [[|]|[|]| |[|] mx ex], y as [[|]|[|]| |[|] my ey];
    simpl; try tauto; intros _ _.
  set (ez := Z.min ex ey).
  change (Zpos (fst (shl_align mx ex ez)) + Zpos (fst (shl_align my ey ez)))
    with (Zpos (fst (shl_align mx ex ez) + fst (shl_align my ey ez))).
  cbn [binary_normalize]. apply has_sign_NN, binary_round_sign.
Qed.

Lemma SFmul_NN (x : spec_float) (my : positive) (ey : Z) :
  NN x -> NN (SFmul prec emax x (S754_finite false my ey)).
Proof.
  destruct x as [[|]|[|]| |[|] mx ex]; simpl; try tauto; intros _.
  apply has_sign_NN, binary_round_aux_sign. lia.
Qed.

Lemma SFdiv_core_nonneg (m1 : positive) (e1 : Z) (m2 : positive) (e2 : Z) :
  0 <= fst (fst (SFdiv_core_binary prec emax (Zpos m1) e1 (Zpos m2) e2)).
Proof.
  unfold SFdiv_core_binary.
  set (s := e1 - e2 - _).
  set (m' := match s with Zpos _ => Z.shiftl (Zpos m1) s | Z0 => Zpos m1 | Zneg _ => 0 end).
  assert (Hm' : 0 <= m').
  { unfold m'. destruct s; try lia. apply Z.shiftl_nonneg. lia. }
  pose proof (Z_div_mod m' (Zpos m2) ltac:(lia)) as Hdiv.
  destruct (Z.div_eucl m' (Zpos m2)) as [q r]. cbn [fst].
  destruct Hdiv as [Hq Hr]. nia.
Qed.

Lemma SFdiv_NN (x : spec_float) (my : positive) (ey : Z) :
  NN x -> NN (SFdiv prec emax x (S754_finite false my ey)).
Proof.
  destruct x as [[|]|[|]| |[|] mx ex]; simpl; try tauto; intros _.
  pose proof (SFdiv_core_nonneg mx ex my ey) as Hq.
  destruct (SFdiv_core_binary prec emax (Zpos mx) ex (Zpos my) ey) as [[mz ez] lz].
  cbn [fst] in Hq. now apply has_sign_NN, binary_round_aux_sign.
Qed.

Lemma SFsqrt_core_nonneg (m : positive) (e : Z) :
  0 <= fst (fst (SFsqrt_core_binary prec emax (Zpos m) e)).
Proof.
  unfold SFsqrt_core_binary.
  set (s := e - _).
  set (m' := match s with Zpos _ => Z.shiftl (Zpos m) s | Z0 => Zpos m | Zneg _ => 0 end).
  assert (Hm' : 0 <= m').
  { unfold m'. destruct s; try lia. apply Z.shiftl_nonneg. lia. }
  pose proof (Z.sqrtrem_spec m' Hm') as Hs.
  destruct (Z.sqrtrem m') as [q r]. cbn [fst]. lia.
Qed.

Lemma SFsqrt_NN (x : spec_float) : NN x -> NN (SFsqrt prec emax x).
Proof.
  destruct x as [[|]|[|]| |[|] m e]; simpl; try tauto; intros _.
  pose proof (SFsqrt_core_nonneg m e) as Hq.
  destruct (SFsqrt_core_binary prec emax (Zpos m) e) as [[mz ez] lz].
  cbn [fst] in Hq. now apply has_sign_NN, binary_round_aux_sign.
Qed.

(** Adding a number that is not negative to a finite number does not go
    down, and subtracting it does not go up. *)
Lemma SFadd_sub_order (x t : spec_float) :
  valid_binary x = true -> valid_binary t = true ->
  SF_is_finite x = true -> NN t ->
  SFle x (SFadd prec emax x t) /\ SFle (SFsub prec emax x t) x.
Proof.
  intros Vx Vt Fx Nt.
  destruct x as [sx|sx| |sx mx ex]; try discriminate;
    destruct t as [[|]|[|]| |[|] mt et]; simpl in Nt; try tauto.
  - destruct sx; simpl; tauto.
  - simpl; tauto.
  - simpl; tauto.
  - simpl. split; apply (SFle_refl (S754_finite sx mx ex)); reflexivity.
  - destruct sx; simpl; tauto.
  - split; [now apply SFadd_finite_above | now apply SFsub_finite_below].
Qed.

End Rounding64.

(** *** Numbers *)

Module Binary64.

Import SF64 Rounding64.

(** No number is smaller than itself, NaN included. *)
Lemma ltb_irrefl (x : float) : (x <? x) = false.
Proof. rewrite ltb_spec. apply SFltb_irrefl. Qed.

Lemma is_nan_spec (x : float) : is_nan x = SF_is_nan (Prim2SF x).
Proof.
  unfold is_nan. rewrite eqb_spec. unfold SFeqb.
  destruct (Prim2SF x) as [s|s| |s m e];
    try (destruct s; reflexivity); try reflexivity.
  rewrite SFcompare_refl; reflexivity.
Qed.

Lemma is_infinity_spec (x : float) : is_infinity x = SF_is_infinity (Prim2SF x).
Proof.
  unfold is_infinity. rewrite eqb_spec, abs_spec.
  change (Prim2SF infinity) with (S754_infinity false).
  destruct (Prim2SF x) as [s|s| |s m e]; reflexivity.
Qed.

(** [x - x] is [+0] for a finite [x], and NaN for NaN and the infinities. *)
Lemma sub_diag (x : float) : x - x = if is_finite x then 0 else nan.
Proof.
  apply Prim2SF_inj. unfold is_finite.
  rewrite sub_spec, is_nan_spec, is_infinity_spec.
  destruct (Prim2SF x) as [s|s| |s m e]; simpl.
  - destruct s; reflexivity.
  - destruct s; reflexivity.
  - reflexivity.
  - unfold SF64sub, SFsub. rewrite Z.sub_diag. reflexivity.
Qed.

(** *** The order on numbers *)

Lemma leb_trans (x y z : float) :
  (x <=? y) = true -> (y <=? z) = true -> (x <=? z) = true.
Proof. rewrite !leb_spec, !SFleb_SFle. apply SFle_trans. Qed.

Lemma leb_refl (x : float) : is_nan x = false -> (x <=? x) = true.
Proof. rewrite is_nan_spec, leb_spec, SFleb_SFle. apply SFle_refl. Qed.

Lemma leb_not_nan (x y : float) :
  (x <=? y) = true -> is_nan x = false /\ is_nan y = false.
Proof.
  rewrite !is_nan_spec, leb_spec, SFleb_SFle.
  destruct (Prim2SF x), (Prim2SF y); simpl; tauto.
Qed.

Lemma ltb_leb (x y : float) : (x <? y) = true -> (x <=? y) = true.
Proof. rewrite ltb_spec, leb_spec, SFleb_SFle. apply SFltb_SFle. Qed.

Lemma not_ltb_leb (x y : float) :
  is_nan x = false -> is_nan y = false -> (x <? y) = false -> (y <=? x) = true.
Proof.
  rewrite !is_nan_spec, ltb_spec, leb_spec, SFleb_SFle. apply SFltb_false_SFle.
Qed.

Lemma is_pos_zero_eq (x : float) : is_pos_zero x = true -> x = zero.
Proof.
  unfold is_pos_zero. rewrite classify_spec. intros H.
  apply Prim2SF_inj. change (Prim2SF zero) with (S754_zero false).
  unfold SF64classify, SFclassify in H.
  destruct (Prim2SF x) as [s|s| |s m e]; try discriminate H.
  - destruct s; [discriminate H | reflexivity].
  - destruct s; discriminate H.
  - destruct s; destruct (Z.eqb _ _); discriminate H.
Qed.

Lemma is_neg_zero_eq (x : float) : is_neg_zero x = true -> x = neg_zero.
Proof.
  unfold is_neg_zero. rewrite classify_spec. intros H.
  apply Prim2SF_inj. change (Prim2SF neg_zero) with (S754_zero true).
  unfold SF64classify, SFclassify in H.
  destruct (Prim2SF x) as [s|s| |s m e]; try discriminate H.
  - destruct s; [reflexivity | discriminate H].
  - destruct s; discriminate H.
  - destruct s; destruct (Z.eqb _ _); discriminate H.
Qed.

(** Two numbers that compare equal are at distance [+0], or at distance NaN
    when they are the same infinity. *)
Lemma abs_sub_of_eqb (x y : float) :
  (x =? y) = true ->
  Prim2SF (abs (x - y)) = S754_zero false \/ Prim2SF (abs (x - y)) = S754_nan.
Proof.
  rewrite eqb_spec, abs_spec, sub_spec. unfold SFeqb.
  destruct (Prim2SF x) as [s1|s1| |s1 m1 e1], (Prim2SF y) as [s2|s2| |s2 m2 e2];
    simpl; try discriminate;
    try (destruct s1, s2; simpl; intros H; try discriminate H; auto; fail).
  destruct s1, s2; try discriminate;
    destruct (Z.compare_spec e1 e2) as [->| |]; try discriminate;
    change (Pos.compare_cont Eq m1 m2) with (Pos.compare m1 m2);
    destruct (Pos.compare_spec m1 m2) as [->| |]; try discriminate;
    intros _; left; unfold SF64sub, SFsub; rewrite Z.sub_diag; reflexivity.
Qed.

(** Dividing by [+0] or by NaN never gives a finite number. *)
Lemma div_by_zero_or_nan (n d : float) :
  Prim2SF d = S754_zero false \/ Prim2SF d = S754_nan ->
  is_nan (n / d) || is_infinity (n / d) = true.
Proof.
  rewrite is_nan_spec, is_infinity_spec, div_spec.
  intros [-> | ->]; destruct (Prim2SF n) as [s|s| |s m e]; reflexivity.
Qed.

Lemma is_finite_spec (x : float) : is_finite x = SF_is_finite (Prim2SF x).
Proof.
  unfold is_finite, SF_is_finite. now rewrite is_nan_spec, is_infinity_spec.
Qed.

(** *** Numbers that are not negative *)

Lemma nonneg_not_nan (x : float) : nonneg x -> is_nan x = false.
Proof. rewrite is_nan_spec. apply NN_not_nan. Qed.

Lemma sub_finite_not_nan (x y : float) :
  is_finite x = true -> is_finite y = true -> is_nan (x - y) = false.
Proof.
  rewrite !is_finite_spec, is_nan_spec, sub_spec. apply SFsub_finite_not_nan.
Qed.

Lemma square_nonneg (x : float) : is_nan x = false -> nonneg (x * x).
Proof.
  rewrite is_nan_spec. unfold nonneg. rewrite mul_spec. apply SFmul_square_NN.
Qed.

Lemma add_nonneg (x y : float) : nonneg x -> nonneg y -> nonneg (x + y).
Proof. unfold nonneg. rewrite add_spec. apply SFadd_NN. Qed.

Lemma sqrt_nonneg (x : float) : nonneg x -> nonneg (sqrt x).
Proof. unfold nonneg. rewrite sqrt_spec. apply SFsqrt_NN. Qed.

Lemma div_nonneg (x y : float) (my : positive) (ey : Z) :
  Prim2SF y = S754_finite false my ey -> nonneg x -> nonneg (x / y).
Proof. unfold nonneg. rewrite div_spec. intros ->. apply SFdiv_NN. Qed.

Lemma mul_nonneg (x y : float) (my : positive) (ey : Z) :
  Prim2SF y = S754_finite false my ey -> nonneg x -> nonneg (x * y).
Proof. unfold nonneg. rewrite mul_spec. intros ->. apply SFmul_NN. Qed.

(** Adding a number that is not negative to a finite number does not go
    down, and subtracting it does not go up: rounding is monotone and a
    finite number rounds to itself. *)
Lemma add_sub_order (x t : float) :
  is_finite x = true -> nonneg t ->
  (x <=? x + t) = true /\ (x - t <=? x) = true.
Proof.
  rewrite is_finite_spec, !leb_spec, add_spec, sub_spec, !SFleb_SFle.
  intros Fx Nt. apply SFadd_sub_order; auto using Prim2SF_valid.
Qed.

End Binary64.

(** ** The MACD triple *)

Lemma macd_of_indicators (candlesticks : list CandlestickData) :
  macd (result (calculateTechnicalIndicators candlesticks)) =
  result (calculateMACD (map close candlesticks)).
Proof. reflexivity. Qed.

(** The signal is the EMA of the one-element history [[macd]], which the
    fallback of [calculateEMA] returns as it is. *)
Lemma calculateEMA_singleton (x : float) : calculateEMA [x] 9 = ret (Number x).
Proof. reflexivity. Qed.

Lemma calculateMACD_signal (prices : list float) :
  Macd.signal (result (calculateMACD prices)) =
  Number (Macd.macd (result (calculateMACD prices))).
Proof. reflexivity. Qed.

Lemma calculateMACD_histogram (prices : list float) :
  let m := result (calculateMACD prices) in
  Macd.histogram m = Macd.macd m - Macd.macd m.
Proof. reflexivity. Qed.

(** C2, as the code has it: for every close sequence the signal is the MACD
    value itself, and the histogram is [macd - macd], which is 0 when the
    MACD value is finite and NaN when it is NaN or infinite. *)
Theorem macd_signal_is_macd (prices : list float) :
  let m := result (calculateMACD prices) in
  Macd.signal m = Number (Macd.macd m) /\
  Macd.histogram m = if is_finite (Macd.macd m) then 0 else nan.
Proof.
  intros m. split.
  - apply calculateMACD_signal.
  - unfold m. rewrite calculateMACD_histogram. apply Binary64.sub_diag.
Qed.

(** C2 as stated fails: twelve finite closes whose sum overflows give an
    infinite MACD value, and then the histogram is NaN, not 0. *)
Lemma macd_histogram_not_zero :
  let m := result (calculateMACD (huge_closes 12)) in
  Macd.macd m = infinity /\
  is_nan (Macd.histogram m) = true /\
  (Macd.histogram m =? 0) = false /\
  Macd.histogram m <> 0.
Proof.
  repeat apply conj; try reflexivity.
  intros H. apply (f_equal is_nan) in H. vm_compute in H. discriminate H.
Qed.

(** The same happens on the empty sequence, where both EMAs are [undefined]. *)
Example macd_of_empty_series :
  result (calculateMACD []) = Macd.mk nan (Number nan) nan.
Proof. reflexivity. Qed.

(** ** The setup generator *)

Section Setup.

Variable marketData : MarketData.
Variable indicators : TechnicalIndicators.

Let setup := performTechnicalAnalysis marketData indicators.

(** The three branches of [performTechnicalAnalysis], by the two tests that
    choose the trend. *)
Ltac by_trend :=
  unfold setup, performTechnicalAnalysis;
  match goal with
  | |- context [if ?c then bullish else _] => destruct c
  end;
  [ | match goal with
      | |- context [if ?c then bearish else _] => destruct c
      end ].

Lemma riskReward_formula :
  riskReward setup =
  Math_abs (takeProfit1 setup - entry setup) / Math_abs (entry setup - stopLoss setup).
Proof. by_trend; reflexivity. Qed.

(** What the range branch assigns: the stop on the resistance and the target
    on the support, because [trend === 'bullish'] is false there. *)
Lemma sideways_levels :
  trend setup = sideways ->
  entry setup = price marketData /\
  stopLoss setup = resistance indicators /\
  takeProfit1 setup = support indicators /\
  takeProfit2 setup = support indicators * 0.98 /\
  confidence setup = 45.
Proof.
  by_trend; simpl; intros H; try discriminate H; repeat apply conj; reflexivity.
Qed.

(** Of the market data only the price is read. *)
Lemma performTechnicalAnalysis_reads_price :
  setup = generateSetup (price marketData) indicators.
Proof. reflexivity. Qed.

(** A bundle whose signal is its MACD value passes neither the bullish nor
    the bearish test. *)
Lemma sideways_when_signal_is_macd :
  Macd.signal (macd indicators) = Number (Macd.macd (macd indicators)) ->
  trend setup = sideways.
Proof.
  intros Hsig. unfold setup, performTechnicalAnalysis.
  rewrite Hsig. simpl ToNumber. unfold gt, lt.
  rewrite Binary64.ltb_irrefl, !andb_false_r. reflexivity.
Qed.

End Setup.

(** C3: in every bundle produced by [calculateTechnicalIndicators] the signal
    is the MACD value, both strict comparisons between them are false, and
    every setup generated from such a bundle is sideways with confidence 45:
    the bullish and bearish branches cannot be reached through the pipeline. *)
Theorem pipeline_is_always_sideways (marketData : MarketData)
  (candlesticks : list CandlestickData) :
  let indicators := result (calculateTechnicalIndicators candlesticks) in
  let m := macd indicators in
  Macd.signal m = Number (Macd.macd m) /\
  gt (Macd.macd m) (ToNumber (Macd.signal m)) = false /\
  lt (Macd.macd m) (ToNumber (Macd.signal m)) = false /\
  trend (performTechnicalAnalysis marketData indicators) = sideways /\
  confidence (performTechnicalAnalysis marketData indicators) = 45.
Proof.
  intros indicators m.
  assert (Hsig : Macd.signal m = Number (Macd.macd m)).
  { unfold m, indicators. rewrite macd_of_indicators. apply calculateMACD_signal. }
  assert (Hside : trend (performTechnicalAnalysis marketData indicators) = sideways)
    by now apply sideways_when_signal_is_macd.
  repeat apply conj.
  - exact Hsig.
  - rewrite Hsig. apply Binary64.ltb_irrefl.
  - rewrite Hsig. apply Binary64.ltb_irrefl.
  - exact Hside.
  - now apply sideways_levels.
Qed.

(** ** The rising series of sixty candles *)

(** C1, as the code has it: on closes 100, ..., 159 the engine returns
    sma20 = 149.5, sma50 = 134.5 and RSI = 100, and the setup generated at the
    latest close 159 is sideways with confidence 45, because the signal equals
    the MACD value. *)
Theorem rising_series_setup :
  sma20 rising60 = Number 149.5 /\
  sma50 rising60 = Number 134.5 /\
  rsi rising60 = 100 /\
  Macd.macd (macd rising60) = 7 /\
  Macd.signal (macd rising60) = Number 7 /\
  trend (performTechnicalAnalysis (market 159 (rising 60)) rising60) = sideways /\
  confidence (performTechnicalAnalysis (market 159 (rising 60)) rising60) = 45.
Proof. repeat apply conj; vm_compute; reflexivity. Qed.

(** C1 as stated fails: the three indicator values are right, but the trend
    is not bullish. *)
Lemma rising_series_not_bullish :
  ~ (sma20 rising60 = Number 149.5 /\
     sma50 rising60 = Number 134.5 /\
     rsi rising60 = 100 /\
     trend (performTechnicalAnalysis (market 159 (rising 60)) rising60) = bullish).
Proof.
  intros (_ & _ & _ & H). vm_compute in H. discriminate H.
Qed.

(** C4 on the same input: the stop is on the resistance (160) and the first
    target on the support (139), the opposite of what the range rule asks
    for, and the second target is [support * 0.98], not
    [resistance * 1.02]. *)
Theorem sideways_levels_are_swapped :
  let s := performTechnicalAnalysis (market 159 (rising 60)) rising60 in
  trend s = sideways /\
  support rising60 = 139 /\
  resistance rising60 = 160 /\
  entry s = 159 /\
  stopLoss s = 160 /\
  takeProfit1 s = 139 /\
  takeProfit2 s = 139 * 0.98 /\
  (stopLoss s =? support rising60) = false /\
  (takeProfit1 s =? resistance rising60) = false /\
  (takeProfit2 s =? resistance rising60 * 1.02) = false.
Proof. repeat apply conj; vm_compute; reflexivity. Qed.

(** ** Risk/reward *)

(** C5, as the code has it: the ratio is always
    [|takeProfit1 - entry| / |entry - stopLoss|] in binary64 arithmetic, and
    when entry and stop compare equal it is NaN or an infinity: no other
    value signals the undefined ratio. *)
Theorem riskReward_is_the_plain_quotient (marketData : MarketData)
  (indicators : TechnicalIndicators) :
  let s := performTechnicalAnalysis marketData indicators in
  riskReward s = Math_abs (takeProfit1 s - entry s) / Math_abs (entry s - stopLoss s) /\
  ((entry s =? stopLoss s) = true ->
   is_nan (riskReward s) || is_infinity (riskReward s) = true).
Proof.
  intros s. split.
  - apply riskReward_formula.
  - intros Heq. unfold s. rewrite riskReward_formula.
    apply Binary64.div_by_zero_or_nan, Binary64.abs_sub_of_eqb, Heq.
Qed.

(** At the latest close of the tight rising series the stop sits on the
    entry, and the ratio is infinite. *)
Lemma riskReward_is_the_plain_quotient_witness :
  let s := performTechnicalAnalysis (market 159 (rising_tight 60))
             (result (calculateTechnicalIndicators (rising_tight 60))) in
  riskReward s = infinity /\
  is_nan (riskReward s) || is_infinity (riskReward s) = true.
Proof.
  intros s.
  destruct (riskReward_is_the_plain_quotient (market 159 (rising_tight 60))
              (result (calculateTechnicalIndicators (rising_tight 60)))) as [Hq Hz].
  split.
  - fold s in Hq. rewrite Hq. reflexivity.
  - apply Hz. reflexivity.
Defined.

(** C5 as stated fails: on the flat series entry, stop and target are all
    100, and the ratio is NaN, one of the values the claim rules out. *)
Lemma riskReward_without_sentinel :
  let s := performTechnicalAnalysis (market 100 (flat 60))
             (result (calculateTechnicalIndicators (flat 60))) in
  entry s = 100 /\ stopLoss s = 100 /\
  (entry s =? stopLoss s) = true /\
  is_nan (riskReward s) = true.
Proof. repeat apply conj; vm_compute; reflexivity. Qed.

(** ** Confidence *)

(** The clamp of [calculateConfidence] on the scores a branch can produce:
    each score is its weight or 0. *)
Lemma calculateConfidence_bounds (b1 b2 b3 b4 b5 : bool) :
  let c := calculateConfidence
             [ if b1 then 20 else 0; if b2 then 25 else 0; if b3 then 20 else 0;
               if b4 then 15 else 0; if b5 then 20 else 0 ] in
  (25 <=? c) = true /\ (c <=? 95) = true.
Proof.
  destruct b1, b2, b3, b4, b5; split; vm_compute; reflexivity.
Qed.

(** C6: whatever the price and the bundle, the confidence of the setup is
    within [25, 95], and it is exactly 45 when the trend is sideways. *)
Theorem confidence_bounds (marketData : MarketData) (indicators : TechnicalIndicators) :
  let s := performTechnicalAnalysis marketData indicators in
  (25 <=? confidence s) = true /\
  (confidence s <=? 95) = true /\
  (trend s = sideways -> confidence s = 45).
Proof.
  intros s.
  assert (Hside : trend s = sideways -> confidence s = 45).
  { intros H. now apply sideways_levels. }
  assert (Hbounds : (25 <=? confidence s) = true /\ (confidence s <=? 95) = true).
  { unfold s, performTechnicalAnalysis.
    match goal with
    | |- context [if ?c then bullish else _] => destruct c
    end;
    [ | match goal with
        | |- context [if ?c then bearish else _] => destruct c
        end ].
    - apply calculateConfidence_bounds.
    - apply calculateConfidence_bounds.
    - split; reflexivity. }
  destruct Hbounds as [Hlo Hhi]. repeat apply conj; assumption.
Qed.

Lemma confidence_bounds_witness :
  confidence (performTechnicalAnalysis (market 159 (rising 60)) rising60) = 45.
Proof.
  apply (confidence_bounds (market 159 (rising 60)) rising60).
  reflexivity.
Defined.

(** The bullish branch on a bundle that is not produced by the engine (its
    signal is below its MACD value): all five conditions hold, the raw score
    is 100 and the clamp brings it down to 95. *)
Example confidence_is_clamped :
  let ind := mkIndicators 55 (Macd.mk 2 (Number 1) 1) (Number 100) (Number 90)
               (Number 100) (mkBollinger 110 (Number 100) 90) 95 120 in
  let s := performTechnicalAnalysis (market 105 []) ind in
  trend s = bullish /\ confidence s = 95.
Proof. split; reflexivity. Qed.

(** ** Support and resistance *)

Section Extrema.

Import Binary64.

(** [Math.min] of numbers none of which is NaN is below its starting value
    and below each of them. *)
Lemma min_from_below (a : list float) :
  forall lowest,
  is_nan lowest = false ->
  (forall x, In x a -> is_nan x = false) ->
  (min_from lowest a <=? lowest) = true /\
  (forall x, In x a -> (min_from lowest a <=? x) = true).
Proof.
  induction a as [|number rest IH]; intros lowest Hl Ha; simpl.
  - split; [now apply leb_refl | intros x []].
  - assert (Hn : is_nan number = false) by (apply Ha; now left).
    rewrite Hn.
    set (l1 := if is_neg_zero number && is_pos_zero lowest then neg_zero else lowest).
    set (l2 := if number <? l1 then number else l1).
    assert (H1 : (l1 <=? lowest) = true).
    { unfold l1. destruct (is_neg_zero number && is_pos_zero lowest) eqn:E.
      - apply andb_prop in E. destruct E as [_ E].
        apply is_pos_zero_eq in E. subst lowest. reflexivity.
      - now apply leb_refl. }
    assert (Hl1 : is_nan l1 = false) by (apply leb_not_nan in H1; tauto).
    assert (H2 : (l2 <=? l1) = true /\ (l2 <=? number) = true).
    { unfold l2. destruct (number <? l1) eqn:E.
      - split; [now apply ltb_leb | now apply leb_refl].
      - split; [now apply leb_refl | now apply not_ltb_leb]. }
    destruct H2 as [H2 H3].
    assert (Hl2 : is_nan l2 = false) by (apply leb_not_nan in H2; tauto).
    destruct (IH l2 Hl2) as [IH1 IH2].
    { intros x Hx. apply Ha. now right. }
    split.
    + apply leb_trans with l2; [exact IH1|]. now apply leb_trans with l1.
    + intros x [<-|Hx].
      * now apply leb_trans with l2.
      * now apply IH2.
Qed.

Lemma max_from_above (a : list float) :
  forall highest,
  is_nan highest = false ->
  (forall x, In x a -> is_nan x = false) ->
  (highest <=? max_from highest a) = true /\
  (forall x, In x a -> (x <=? max_from highest a) = true).
Proof.
  induction a as [|number rest IH]; intros highest Hh Ha; simpl.
  - split; [now apply leb_refl | intros x []].
  - assert (Hn : is_nan number = false) by (apply Ha; now left).
    rewrite Hn.
    set (h1 := if is_pos_zero number && is_neg_zero highest then zero else highest).
    set (h2 := if h1 <? number then number else h1).
    assert (H1 : (highest <=? h1) = true).
    { unfold h1. destruct (is_pos_zero number && is_neg_zero highest) eqn:E.
      - apply andb_prop in E. destruct E as [_ E].
        apply is_neg_zero_eq in E. subst highest. reflexivity.
      - now apply leb_refl. }
    assert (Hh1 : is_nan h1 = false) by (apply leb_not_nan in H1; tauto).
    assert (H2 : (h1 <=? h2) = true /\ (number <=? h2) = true).
    { unfold h2. destruct (h1 <? number) eqn:E.
      - split; [now apply ltb_leb | now apply leb_refl].
      - split; [now apply leb_refl | now apply not_ltb_leb]. }
    destruct H2 as [H2 H3].
    assert (Hh2 : is_nan h2 = false) by (apply leb_not_nan in H2; tauto).
    destruct (IH h2 Hh2) as [IH1 IH2].
    { intros x Hx. apply Ha. now right. }
    split.
    + apply leb_trans with h1; [exact H1|]. now apply leb_trans with h2.
    + intros x [<-|Hx].
      * now apply leb_trans with h2.
      * now apply IH2.
Qed.

Lemma slice_from_map {X : Type} (f : X -> float) (start : Z) (l : list X) :
  slice_from start (map f l) = map f (skipn (clamp_index (length l) start) l).
Proof.
  unfold slice_from. rewrite length_map. apply skipn_map.
Qed.

(** [Math.min] of numbers returns its starting value or one of them: the
    [-0] it prefers to [+0] is the argument that is [-0]. *)
Lemma min_from_member (a : list float) :
  forall lowest,
  (forall x, In x a -> is_nan x = false) ->
  min_from lowest a = lowest \/ In (min_from lowest a) a.
Proof.
  induction a as [|number rest IH]; intros lowest Ha; cbn [min_from].
  - now left.
  - rewrite (Ha number (or_introl eq_refl)).
    set (l1 := if is_neg_zero number && is_pos_zero lowest then neg_zero else lowest).
    set (l2 := if number <? l1 then number else l1).
    assert (H1 : l1 = lowest \/ l1 = number).
    { unfold l1. destruct (is_neg_zero number && is_pos_zero lowest) eqn:E; [|now left].
      apply andb_prop in E. destruct E as [E _].
      apply is_neg_zero_eq in E. now right. }
    assert (H2 : l2 = lowest \/ l2 = number).
    { unfold l2. destruct (number <? l1); [now right | exact H1]. }
    destruct (IH l2) as [->|Hin].
    + intros x Hx. apply Ha. now right.
    + destruct H2 as [->| ->]; [now left | right; now left].
    + right. now right.
Qed.

Lemma max_from_member (a : list float) :
  forall highest,
  (forall x, In x a -> is_nan x = false) ->
  max_from highest a = highest \/ In (max_from highest a) a.
Proof.
  induction a as [|number rest IH]; intros highest Ha; cbn [max_from].
  - now left.
  - rewrite (Ha number (or_introl eq_refl)).
    set (h1 := if is_pos_zero number && is_neg_zero highest then zero else highest).
    set (h2 := if h1 <? number then number else h1).
    assert (H1 : h1 = highest \/ h1 = number).
    { unfold h1. destruct (is_pos_zero number && is_neg_zero highest) eqn:E; [|now left].
      apply andb_prop in E. destruct E as [E _].
      apply is_pos_zero_eq in E. now right. }
    assert (H2 : h2 = highest \/ h2 = number).
    { unfold h2. destruct (h1 <? number); [now right | exact H1]. }
    destruct (IH h2) as [->|Hin].
    + intros x Hx. apply Ha. now right.
    + destruct H2 as [->| ->]; [now left | right; now left].
    + right. now right.
Qed.

(** Nothing is above [+Infinity] or below [-Infinity]. *)
Lemma infinity_leb (x : float) : (infinity <=? x) = true -> x = infinity.
Proof.
  rewrite leb_spec. intros H. apply Prim2SF_inj.
  change (Prim2SF infinity) with (S754_infinity false) in *.
  destruct (Prim2SF x) as [s|[|]| |s m e]; try discriminate H; reflexivity.
Qed.

Lemma leb_neg_infinity (x : float) : (x <=? neg_infinity) = true -> x = neg_infinity.
Proof.
  rewrite leb_spec. intros H. apply Prim2SF_inj.
  change (Prim2SF neg_infinity) with (S754_infinity true) in *.
  destruct (Prim2SF x) as [[|]|[|]| |[|] m e]; try discriminate H; reflexivity.
Qed.

(** The minimum and the maximum of numbers are attained. *)
Lemma Math_min_attained (a : list float) :
  a <> [] -> (forall x, In x a -> is_nan x = false) -> In (Math_min a) a.
Proof.
  intros Hne Ha. unfold Math_min.
  destruct (min_from_member a infinity Ha) as [Heq|Hin]; [|exact Hin].
  destruct a as [|x rest]; [congruence|].
  destruct (min_from_below (x :: rest) infinity eq_refl Ha) as [_ Hbelow].
  specialize (Hbelow x (or_introl eq_refl)). rewrite Heq in Hbelow.
  apply infinity_leb in Hbelow. rewrite Heq, <- Hbelow. now left.
Qed.

Lemma Math_max_attained (a : list float) :
  a <> [] -> (forall x, In x a -> is_nan x = false) -> In (Math_max a) a.
Proof.
  intros Hne Ha. unfold Math_max.
  destruct (max_from_member a neg_infinity Ha) as [Heq|Hin]; [|exact Hin].
  destruct a as [|x rest]; [congruence|].
  destruct (max_from_above (x :: rest) neg_infinity eq_refl Ha) as [_ Habove].
  specialize (Habove x (or_introl eq_refl)). rewrite Heq in Habove.
  apply leb_neg_infinity in Habove. rewrite Heq, <- Habove. now left.
Qed.

End Extrema.

(** C8: on a non-empty series whose candles all have low <= high, the
    support is the minimum of the lows of the last 20 candles (of all of
    them when there are fewer): it is the low of one of these candles and at
    most the low of each of them.  The resistance is the maximum of their
    highs in the same sense, and the support is at most the resistance. *)
Theorem support_le_resistance (candlesticks : list CandlestickData) :
  candlesticks <> [] ->
  (forall c, In c candlesticks -> (low c <=? high c) = true) ->
  let indicators := result (calculateTechnicalIndicators candlesticks) in
  let window := skipn (length candlesticks - 20) candlesticks in
  (exists c, In c window /\ support indicators = low c) /\
  (forall c, In c window -> (support indicators <=? low c) = true) /\
  (exists c, In c window /\ resistance indicators = high c) /\
  (forall c, In c window -> (high c <=? resistance indicators) = true) /\
  (support indicators <=? resistance indicators) = true.
Proof.
  intros Hne Hcandles indicators window.
  assert (Hsup : support indicators = Math_min (map low window)).
  { change (support indicators) with (Math_min (slice_from (-20) (map low candlesticks))).
    rewrite slice_from_map. change (-20)%Z with (- Z.of_nat 20)%Z.
    now rewrite clamp_index_last. }
  assert (Hres : resistance indicators = Math_max (map high window)).
  { change (resistance indicators)
      with (Math_max (slice_from (-20) (map high candlesticks))).
    rewrite slice_from_map. change (-20)%Z with (- Z.of_nat 20)%Z.
    now rewrite clamp_index_last. }
  rewrite Hsup, Hres.
  assert (Hwin : forall c, In c window -> (low c <=? high c) = true).
  { intros c Hc. apply Hcandles. unfold window in Hc.
    rewrite <- (firstn_skipn (length candlesticks - 20) candlesticks).
    apply in_or_app. now right. }
  assert (Hsome : window <> []).
  { intros E. apply (f_equal (@length CandlestickData)) in E.
    unfold window in E. rewrite length_skipn in E.
    assert (length candlesticks <> 0)%nat
      by (destruct candlesticks; [congruence | discriminate]).
    simpl in E. lia. }
  assert (Hlows : forall x, In x (map low window) -> is_nan x = false).
  { intros x Hx. apply in_map_iff in Hx. destruct Hx as (c' & <- & Hc').
    apply Hwin, Binary64.leb_not_nan in Hc'. tauto. }
  assert (Hhighs : forall x, In x (map high window) -> is_nan x = false).
  { intros x Hx. apply in_map_iff in Hx. destruct Hx as (c' & <- & Hc').
    apply Hwin, Binary64.leb_not_nan in Hc'. tauto. }
  destruct (min_from_below (map low window) infinity eq_refl Hlows) as [_ Hmin].
  destruct (max_from_above (map high window) neg_infinity eq_refl Hhighs) as [_ Hmax].
  fold (Math_min (map low window)) in Hmin. fold (Math_max (map high window)) in Hmax.
  assert (Hlowest : exists c, In c window /\ Math_min (map low window) = low c).
  { pose proof (Math_min_attained (map low window) (map_nonempty low window Hsome) Hlows)
      as Hin.
    apply in_map_iff in Hin. destruct Hin as (c & Heq & Hc). now exists c. }
  assert (Hhighest : exists c, In c window /\ Math_max (map high window) = high c).
  { pose proof (Math_max_attained (map high window) (map_nonempty high window Hsome) Hhighs)
      as Hin.
    apply in_map_iff in Hin. destruct Hin as (c & Heq & Hc). now exists c. }
  repeat apply conj.
  - exact Hlowest.
  - intros c Hc. apply Hmin. now apply in_map.
  - exact Hhighest.
  - intros c Hc. apply Hmax. now apply in_map.
  - destruct Hlowest as (c & Hc & _).
    apply Binary64.leb_trans with (low c); [apply Hmin; now apply in_map|].
    apply Binary64.leb_trans with (high c); [now apply Hwin|].
    apply Hmax. now apply in_map.
Qed.

(** On the series with an old spike the window is its last twenty candles:
    the five candles that range from 1 to 1000 are outside it. *)
Lemma support_le_resistance_witness :
  let indicators := result (calculateTechnicalIndicators spiked) in
  let window := skipn 5 spiked in
  (exists c, In c window /\ support indicators = low c) /\
  (forall c, In c window -> (support indicators <=? low c) = true) /\
  (exists c, In c window /\ resistance indicators = high c) /\
  (forall c, In c window -> (high c <=? resistance indicators) = true) /\
  (support indicators <=? resistance indicators) = true.
Proof.
  assert (Hne : spiked <> []) by discriminate.
  refine (support_le_resistance spiked Hne _).
  apply (proj1 (forallb_forall (fun c => low c <=? high c) spiked)).
  vm_compute. reflexivity.
Defined.

(** There the support is 49 and the resistance 51, not the 1 and the 1000 of
    the whole series. *)
Example support_and_resistance_skip_old_candles :
  support (result (calculateTechnicalIndicators spiked)) = 49 /\
  resistance (result (calculateTechnicalIndicators spiked)) = 51 /\
  Math_min (map low spiked) = 1 /\ Math_max (map high spiked) = 1000.
Proof. repeat apply conj; vm_compute; reflexivity. Qed.

(** With fewer than twenty candles the window is the whole series. *)
Example support_and_resistance_of_short_series :
  support (result (calculateTechnicalIndicators (rising 3))) = 99 /\
  resistance (result (calculateTechnicalIndicators (rising 3))) = 103.
Proof. split; vm_compute; reflexivity. Qed.

(** Without the non-empty precondition the order fails: the extrema of no
    argument are [+Infinity] and [-Infinity]. *)
Example support_above_resistance_on_empty_series :
  let indicators := result (calculateTechnicalIndicators []) in
  support indicators = infinity /\ resistance indicators = neg_infinity /\
  (support indicators <=? resistance indicators) = false.
Proof. repeat apply conj; reflexivity. Qed.

(** ** Bollinger bands *)

Section Bands.

Import Binary64.

(** The sum of squared deviations from a finite middle, over finite prices,
    is never negative and never NaN; it may be [+Infinity]. *)
Lemma squared_deviations_nonneg (m : float) (prices : list float) :
  is_finite m = true ->
  (forall p, In p prices -> is_finite p = true) ->
  forall acc, nonneg acc ->
  nonneg (reduce (fun sum price => sum + Math_pow2 (price - m)) acc prices).
Proof.
  intros Hm. unfold reduce.
  induction prices as [|p rest IH]; intros Hfin acc Hacc; simpl.
  - exact Hacc.
  - apply IH.
    + intros q Hq. apply Hfin. now right.
    + apply add_nonneg; [exact Hacc|].
      apply square_nonneg, sub_finite_not_nan; [|exact Hm].
      apply Hfin. now left.
Qed.

Lemma in_slice_from (start : Z) (a : list float) (x : float) :
  In x (slice_from start a) -> In x a.
Proof.
  unfold slice_from. intros H.
  rewrite <- (firstn_skipn (clamp_index (length a) start) a).
  apply in_or_app. now right.
Qed.

(** The band half-width [standardDeviation * 2] of the engine. *)
Lemma band_width_nonneg (v : float) : nonneg v -> nonneg (Math_sqrt (v / of_nat 20) * 2).
Proof.
  intros Hv. unfold Math_sqrt.
  eapply mul_nonneg; [reflexivity|].
  apply sqrt_nonneg.
  eapply div_nonneg; [reflexivity | exact Hv].
Qed.

Lemma calculateBollingerBands_order (prices : list float) :
  (forall p, In p prices -> is_finite p = true) ->
  let b := result (calculateBollingerBands prices 20 2) in
  is_finite (ToNumber (middle b)) = true ->
  (lower b <=? ToNumber (middle b)) = true /\
  (ToNumber (middle b) <=? upper b) = true.
Proof.
  intros Hfin b Hmid.
  unfold b, calculateBollingerBands in Hmid |- *.
  rewrite result_bind in Hmid |- *. cbn [result ret middle upper lower] in Hmid |- *.
  set (m := ToNumber (result (calculateSMA prices 20))) in *.
  set (t := Math_sqrt _ * 2).
  assert (Ht : nonneg t).
  { apply band_width_nonneg, squared_deviations_nonneg.
    - exact Hmid.
    - intros p Hp. apply Hfin. eapply in_slice_from, Hp.
    - exact I. }
  destruct (add_sub_order m t Hmid Ht) as [Hup Hlow].
  split; assumption.
Qed.

End Bands.



(** On fewer than 20 closes the middle band is the last close, which is
    finite with the others: nothing can overflow. *)
Lemma bollinger_bands_ordered_short (candlesticks : list CandlestickData) :
  candlesticks <> [] ->
  (length candlesticks < 20)%nat ->
  (forall c, In c candlesticks -> is_finite (close c) = true) ->
  let b := bollinger (result (calculateTechnicalIndicators candlesticks)) in
  middle b = Number (last (map close candlesticks) nan) /\
  (lower b <=? ToNumber (middle b)) = true /\
  (ToNumber (middle b) <=? upper b) = true.
Proof.
  intros Hne Hlen Hfin b.
  assert (Hcloses : forall p, In p (map close candlesticks) -> is_finite p = true).
  { intros p Hp. apply in_map_iff in Hp. destruct Hp as (c & <- & Hc). now apply Hfin. }
  assert (Hmid : middle b = Number (last (map close candlesticks) nan)).
  { change (middle b) with (result (calculateSMA (map close candlesticks) 20)).
    rewrite calculateSMA_short; [reflexivity | now apply map_nonempty |].
    now rewrite length_map. }
  split; [exact Hmid|].
  apply (calculateBollingerBands_order (map close candlesticks) Hcloses).
  change (is_finite (ToNumber (middle b)) = true). rewrite Hmid. simpl ToNumber.
  apply Hcloses.
  destruct (exists_last (map_nonempty close candlesticks Hne)) as (front & x & E).
  rewrite E, last_last. apply in_or_app. right. now left.
Qed.


(** On a series shorter than the period the middle band is the last close,
    so it is finite as soon as the closes are. *)
Example bollinger_bands_of_short_series :
  let b := bollinger (result (calculateTechnicalIndicators (rising 10))) in
  middle b = Number 109 /\
  (lower b <=? 109) = true /\ (109 <=? upper b) = true.
Proof. repeat apply conj; vm_compute; reflexivity. Qed.

(** * Further properties of the indicator engine *)

(** ** Loops and windows *)

Lemma for_each_ext {S : Type} (body1 body2 : S -> nat -> Reads S) (indices : list nat) :
  (forall s i, In i indices -> body1 s i = body2 s i) ->
  forall s, for_each body1 indices s = for_each body2 indices s.
Proof.
  induction indices as [|i rest IH]; intros Hbody s; simpl.
  - reflexivity.
  - rewrite (Hbody s i) by now left.
    unfold bind. rewrite IH; [reflexivity|].
    intros s0 j Hj. apply Hbody. now right.
Qed.

Lemma for_each_app {S : Type} (body : S -> nat -> Reads S) (l1 l2 : list nat) :
  forall s,
  for_each body (l1 ++ l2) s = bind (for_each body l1 s) (for_each body l2).
Proof.
  induction l1 as [|i rest IH]; intros s; simpl.
  - unfold bind, ret. simpl. now destruct (for_each body l2 s).
  - unfold bind in *. simpl. rewrite IH. simpl.
    now rewrite andb_assoc.
Qed.

Lemma get_app_left (a b : list float) (i : Z) :
  (i < Z.of_nat (length a))%Z -> get (a ++ b) i = get a i.
Proof.
  intros Hi. unfold get.
  destruct (Z.ltb_spec i 0) as [Hneg|Hpos]; [reflexivity|].
  rewrite nth_error_app1 by lia. reflexivity.
Qed.

Lemma get_app_right (a b : list float) (i : Z) :
  (Z.of_nat (length a) <= i)%Z -> get (a ++ b) i = get b (i - Z.of_nat (length a)).
Proof.
  intros Hi. unfold get.
  destruct (Z.ltb_spec i 0) as [Hneg|Hpos]; [lia|].
  destruct (Z.ltb_spec (i - Z.of_nat (length a)) 0) as [Hneg'|_]; [lia|].
  rewrite nth_error_app2 by lia.
  replace (Z.to_nat (i - Z.of_nat (length a))) with (Z.to_nat i - length a)%nat by lia.
  reflexivity.
Qed.

Lemma slice_prefix (a : list float) (n : nat) :
  slice 0 (Z.of_nat n) a = firstn n a.
Proof.
  unfold slice, clamp_index.
  destruct (Z.ltb_spec (Z.of_nat n) 0) as [Hneg|_]; [lia|].
  simpl. rewrite Nat.sub_0_r, Nat2Z.id.
  destruct (Nat.le_gt_cases n (length a)) as [Hle|Hgt].
  - now rewrite Nat.min_l.
  - rewrite Nat.min_r by lia. rewrite firstn_all. symmetry. apply firstn_all2. lia.
Qed.

(** [a.slice(-n)] only looks at the last [n] elements, for a positive [n];
    [a.slice(-0)] is the whole array. *)
Lemma slice_from_window (front window : list float) (n : nat) :
  (0 < n <= length window)%nat ->
  slice_from (- Z.of_nat n) (front ++ window) = slice_from (- Z.of_nat n) window.
Proof.
  intros Hn. unfold slice_from. rewrite !clamp_index_last, length_app.
  destruct (Nat.eqb_spec n 0) as [->|_]; [lia|].
  replace (length front + length window - n)%nat
    with (length front + (length window - n))%nat by lia.
  rewrite skipn_app, skipn_all2 by lia.
  simpl. f_equal. lia.
Qed.

Example slice_from_zero_is_everything (a : list float) : slice_from (- Z.of_nat 0) a = a.
Proof. reflexivity. Qed.

(** ** EMA *)

(** With no more closes than the period there is nothing to fold: the EMA is
    the SMA, fallback included. *)
Theorem calculateEMA_is_SMA_up_to_period (prices : list float) (period : nat) :
  (length prices <= period)%nat ->
  calculateEMA prices period = calculateSMA prices period.
Proof.
  intros Hlen. unfold calculateEMA.
  destruct (Nat.ltb_spec (length prices) period) as [Hshort|Hlong].
  - unfold calculateSMA.
    destruct (Nat.ltb_spec (length prices) period); [reflexivity | lia].
  - assert (Heq : length prices = period) by lia.
    rewrite slice_prefix, <- Heq, firstn_all, Nat.sub_diag.
    rewrite calculateSMA_full_window by reflexivity.
    reflexivity.
Qed.

Lemma calculateEMA_is_SMA_up_to_period_witness :
  calculateEMA (map close (rising 20)) 20 = calculateSMA (map close (rising 20)) 20.
Proof.
  apply (calculateEMA_is_SMA_up_to_period (map close (rising 20)) 20).
  simpl. lia.
Defined.

(** Once the seed window is full, one more close moves the EMA by one step of
    the recurrence [ema = close * k + ema * (1 - k)] with [k = 2 / (period + 1)]:
    the EMA of a series is the seed SMA of its first [period] closes folded
    through all the later ones. *)
Theorem calculateEMA_step (prices : list float) (p : float) (period : nat) :
  (period <= length prices)%nat ->
  let k := 2 / (of_nat period + 1) in
  calculateEMA (prices ++ [p]) period =
  (ema <- calculateEMA prices period ;;
   ret (Number (p * k + ToNumber ema * (1 - k)))).
Proof.
  intros Hlen k. unfold calculateEMA.
  rewrite length_app. simpl length.
  destruct (Nat.ltb_spec (length prices + 1) period) as [Habs|_]; [lia|].
  destruct (Nat.ltb_spec (length prices) period) as [Habs|_]; [lia|].
  fold k.
  rewrite !slice_prefix, firstn_app.
  replace (period - length prices)%nat with 0%nat by lia.
  simpl firstn. rewrite app_nil_r.
  destruct (calculateSMA (firstn period prices) period) as [seed ok].
  replace (length prices + 1 - period)%nat with (S (length prices - period)) by lia.
  rewrite seq_S, Nat.add_comm, Nat.sub_add by lia.
  unfold bind at 1 3 4. cbn [result in_bounds].
  rewrite for_each_app.
  rewrite (for_each_ext _
             (fun ema i => x <- get prices (Z.of_nat i) ;;
                           ret (Number (ToNumber x * k + ToNumber ema * (1 - k))))).
  2:{ intros s i Hi. apply in_seq in Hi. rewrite get_app_left by lia. reflexivity. }
  destruct (for_each _ (seq period (length prices - period)) seed) as [ema ok'].
  cbn [for_each].
  rewrite get_app_right by lia. rewrite Z.sub_diag.
  unfold bind, ret, get. cbn.
  now rewrite !andb_true_r.
Qed.

Lemma calculateEMA_step_witness :
  result (calculateEMA (map close (rising 21)) 20) =
  Number (120 * (2 / 21) + 109.5 * (1 - 2 / 21)).
Proof.
  change (map close (rising 21)) with (map close (rising 20) ++ [120]).
  rewrite (calculateEMA_step (map close (rising 20)) 120 20) by (simpl; lia).
  reflexivity.
Defined.

(** ** Lookback windows *)

Section Lookback.

Variables front window : list float.

Lemma calculateSMA_window (period : nat) :
  (0 < period <= length window)%nat ->
  calculateSMA (front ++ window) period = calculateSMA window period.
Proof.
  intros Hp. unfold calculateSMA. rewrite length_app.
  destruct (Nat.ltb_spec (length front + length window) period) as [Habs|_]; [lia|].
  destruct (Nat.ltb_spec (length window) period) as [Habs|_]; [lia|].
  now rewrite slice_from_window.
Qed.

Lemma calculateBollingerBands_window (period : nat) (stdDev : float) :
  (0 < period <= length window)%nat ->
  calculateBollingerBands (front ++ window) period stdDev =
  calculateBollingerBands window period stdDev.
Proof.
  intros Hp. unfold calculateBollingerBands.
  now rewrite calculateSMA_window, slice_from_window.
Qed.

Lemma calculateRSI_window (period : nat) :
  (period + 1 <= length window)%nat ->
  calculateRSI (front ++ window) period = calculateRSI window period.
Proof.
  intros Hp. unfold calculateRSI. rewrite length_app.
  destruct (Nat.ltb_spec (length front + length window) (period + 1)) as [Habs|_]; [lia|].
  destruct (Nat.ltb_spec (length window) (period + 1)) as [Habs|_]; [lia|].
  f_equal. apply for_each_ext. intros [gains losses] i Hi. apply in_seq in Hi.
  rewrite !get_app_right by lia.
  replace (Z.of_nat (length front + length window) - Z.of_nat i -
           Z.of_nat (length front))%Z
    with (Z.of_nat (length window) - Z.of_nat i)%Z by lia.
  replace (Z.of_nat (length front + length window) - Z.of_nat i - 1 -
           Z.of_nat (length front))%Z
    with (Z.of_nat (length window) - Z.of_nat i - 1)%Z by lia.
  reflexivity.
Qed.

End Lookback.

(** Everything the bundle holds except [sma50], [ema20] and the MACD triple
    is decided by the last 20 candles: older history changes none of RSI,
    SMA20, the Bollinger bands, support and resistance. *)
Theorem indicators_of_the_last_20_candles (front window : list CandlestickData) :
  length window = 20%nat ->
  let all := result (calculateTechnicalIndicators (front ++ window)) in
  let last20 := result (calculateTechnicalIndicators window) in
  rsi all = rsi last20 /\
  sma20 all = sma20 last20 /\
  bollinger all = bollinger last20 /\
  support all = support last20 /\
  resistance all = resistance last20.
Proof.
  intros Hlen all last20.
  assert (Hw : forall f : CandlestickData -> float, length (map f window) = 20%nat)
    by (intros f; now rewrite length_map).
  repeat apply conj.
  - change (result (calculateRSI (map close (front ++ window)) 14) =
            result (calculateRSI (map close window) 14)).
    rewrite map_app, calculateRSI_window; [reflexivity | rewrite Hw; lia].
  - change (result (calculateSMA (map close (front ++ window)) 20) =
            result (calculateSMA (map close window) 20)).
    rewrite map_app, calculateSMA_window; [reflexivity | rewrite Hw; lia].
  - change (result (calculateBollingerBands (map close (front ++ window)) 20 2) =
            result (calculateBollingerBands (map close window) 20 2)).
    rewrite map_app, calculateBollingerBands_window; [reflexivity | rewrite Hw; lia].
  - change (Math_min (slice_from (-20) (map low (front ++ window))) =
            Math_min (slice_from (-20) (map low window))).
    rewrite map_app. change (-20)%Z with (- Z.of_nat 20)%Z.
    rewrite slice_from_window; [reflexivity | rewrite Hw; lia].
  - change (Math_max (slice_from (-20) (map high (front ++ window))) =
            Math_max (slice_from (-20) (map high window))).
    rewrite map_app. change (-20)%Z with (- Z.of_nat 20)%Z.
    rewrite slice_from_window; [reflexivity | rewrite Hw; lia].
Qed.

Lemma indicators_of_the_last_20_candles_witness :
  rsi (result (calculateTechnicalIndicators (flat 5 ++ rising 20))) =
  rsi (result (calculateTechnicalIndicators (rising 20))).
Proof.
  apply (indicators_of_the_last_20_candles (flat 5) (rising 20)). reflexivity.
Defined.

(** The EMA is not a function of a trailing window: its seed is the SMA of
    the first closes, so older history does change [ema20]. *)
Example ema20_depends_on_old_history :
  ema20 (result (calculateTechnicalIndicators (flat 5 ++ rising 20))) = Number 109.9547082087343 /\
  ema20 (result (calculateTechnicalIndicators (rising 20))) = Number 109.5.
Proof. split; vm_compute; reflexivity. Qed.

(** ** Degenerate series *)

(** Fewer than 12 closes: both EMAs are the last close, so the MACD value,
    its signal and the histogram are exactly 0 when that close is finite. *)
Theorem calculateMACD_of_short_series (prices : list float) :
  prices <> [] -> (length prices < 12)%nat ->
  is_finite (last prices nan) = true ->
  calculateMACD prices = ret (Macd.mk 0 (Number 0) 0).
Proof.
  intros Hne Hlen Hfin. unfold calculateMACD.
  rewrite !calculateEMA_short by (assumption || lia).
  unfold bind at 1 2. cbn [result in_bounds ret ToNumber].
  rewrite Binary64.sub_diag, Hfin. reflexivity.
Qed.

Lemma calculateMACD_of_short_series_witness :
  calculateMACD (map close (rising 10)) = ret (Macd.mk 0 (Number 0) 0).
Proof.
  apply (calculateMACD_of_short_series (map close (rising 10))).
  - discriminate.
  - simpl. lia.
  - reflexivity.
Defined.

(** A loop whose body leaves the state as it is. *)
Lemma for_each_fixed {S : Type} (body : S -> nat -> Reads S) (indices : list nat) (s : S) :
  (forall i, In i indices -> body s i = ret s) ->
  for_each body indices s = ret s.
Proof.
  induction indices as [|i rest IH]; intros Hbody; simpl.
  - reflexivity.
  - rewrite (Hbody i) by now left.
    unfold bind, ret. cbn [result in_bounds].
    rewrite IH; [reflexivity|]. intros j Hj. apply Hbody. now right.
Qed.

Lemma get_repeat (c : float) (n : nat) (i : Z) :
  (0 <= i < Z.of_nat n)%Z -> get (repeat c n) i = ret (Number c).
Proof.
  intros Hi. unfold get.
  destruct (Z.ltb_spec i 0) as [Hneg|_]; [lia|].
  rewrite nth_error_repeat by lia. reflexivity.
Qed.

(** A flat market: when the last 15 closes are one and the same finite
    price, gains and losses are both 0 and the RSI is [0 / 0], NaN, not the
    neutral 50 of the short-series fallback. *)
Theorem calculateRSI_of_flat_window (front : list float) (c : float) :
  is_finite c = true ->
  calculateRSI (front ++ repeat c 15) 14 = ret nan.
Proof.
  intros Hfin.
  rewrite calculateRSI_window by (rewrite repeat_length; lia).
  unfold calculateRSI. rewrite repeat_length.
  change (15 <? 14 + 1)%nat with false. cbv iota.
  rewrite (for_each_fixed _ (seq 1 14) (0, 0)); [reflexivity|].
  intros i Hi. apply in_seq in Hi.
  rewrite !get_repeat by lia.
  unfold bind, ret. cbn [result in_bounds ToNumber andb].
  rewrite Binary64.sub_diag, Hfin. reflexivity.
Qed.

Lemma calculateRSI_of_flat_window_witness :
  rsi (result (calculateTechnicalIndicators (flat 60))) = nan.
Proof.
  change (rsi (result (calculateTechnicalIndicators (flat 60))))
    with (result (calculateRSI (repeat 100 45 ++ repeat 100 15) 14)).
  rewrite (calculateRSI_of_flat_window (repeat 100 45) 100); reflexivity.
Defined.

(** ** One-way markets *)

(** *** Counting units of the smallest positive number *)

Module Units64.
Import SF64 Rounding64.
Local Open Scope Z_scope.

Lemma mag_lt_numeric (m1 : positive) (e1 : Z) (m2 : positive) (e2 ez : Z) :
  bounded prec emax m1 e1 = true -> bounded prec emax m2 e2 = true ->
  ez <= e1 -> ez <= e2 ->
  e1 < e2 \/ (e1 = e2 /\ (m1 < m2)%positive) ->
  Zpos m1 * 2 ^ (e1 - ez) < Zpos m2 * 2 ^ (e2 - ez).
Proof.
  intros B1 B2 H1 H2 Hlt.
  destruct (bounded_spec m1 e1 B1) as (D1 & E1 & C1).
  destruct (bounded_spec m2 e2 B2) as (D2 & E2 & C2).
  destruct Hlt as [Hlt|[-> Hlt]].
  - assert (Hm2 : 2 ^ 52 <= Zpos m2).
    { destruct (digits2_bounds m2) as [Lo _].
      replace (Zpos (digits2_pos m2)) with 53 in Lo by lia. exact Lo. }
    assert (Hm1 : Zpos m1 < 2 ^ 53).
    { destruct (digits2_bounds m1) as [_ Hi].
      eapply Z.lt_le_trans; [exact Hi|]. apply Z.pow_le_mono_r; lia. }
    change (2 ^ 52) with 4503599627370496 in Hm2.
    change (2 ^ 53) with 9007199254740992 in Hm1.
    replace (e2 - ez) with ((e1 - ez) + (e2 - e1)) by lia.
    rewrite Z.pow_add_r by lia.
    assert (HA : 0 < 2 ^ (e1 - ez)) by (apply Z.pow_pos_nonneg; lia).
    assert (HB : 2 <= 2 ^ (e2 - e1)) by (apply pow2_ge_2; lia).
    set (A := 2 ^ (e1 - ez)) in *. set (B := 2 ^ (e2 - e1)) in *.
    assert (Zpos m1 * A < 9007199254740992 * A) by (apply Z.mul_lt_mono_pos_r; lia).
    assert (H2A : A * 2 <= A * B) by (apply Z.mul_le_mono_nonneg_l; lia).
    assert (H3 : 4503599627370496 * (A * B) <= Zpos m2 * (A * B))
      by (apply Z.mul_le_mono_nonneg_r; lia).
    lia.
  - apply Z.mul_lt_mono_pos_r; [apply Z.pow_pos_nonneg; lia | lia].
Qed.

Lemma bounded_exponent (m : positive) (e : Z) :
  bounded prec emax m e = true -> -1074 <= e.
Proof. intros H. destruct (bounded_spec m e H) as (_ & He & _). lia. Qed.

(** A representable number other than 0 is at least one unit. *)
Lemma finite_at_least_1 (s : bool) (m : positive) (e : Z) :
  bounded prec emax m e = true -> at_least s 1 (S754_finite s m e).
Proof.
  intros H. pose proof (bounded_exponent m e H) as He. unfold at_least.
  repeat apply conj; [reflexivity|exact He|].
  assert (0 < 2 ^ (e + 1074)) by (apply Z.pow_pos_nonneg; lia).
  change 1 with (1 * 1). apply Z.mul_le_mono_nonneg; lia.
Qed.

Lemma at_least_weaken (s : bool) (a b : Z) (x : spec_float) :
  b <= a -> at_least s a x -> at_least s b x.
Proof.
  intros Hab. destruct x as [s'|s'| |s' m e]; unfold at_least; try tauto; try lia.
  intros (Hs & He & H). repeat apply conj; auto; lia.
Qed.

(** The outcome of rounding a sum that is not 0: a number of the same sign,
    at least what was rounded when that is below [2^53] units. *)
Lemma binary_round_at_least (s : bool) (P : positive) (ez n : Z) :
  -1074 <= ez -> n <= Zpos P * 2 ^ (ez + 1074) -> n <= 2 ^ 53 ->
  at_least s n (binary_round prec emax s P ez).
Proof.
  intros Hez Hn Hsmall.
  destruct (binary_round_cases s P ez Hez)
    as [(Hd & mz & f & Hf & Hf' & Hmz & Hdz & ->)
       |(Hd & mt & rem & up & HP & Hrem & Hmt & Hup & ->)].
  - unfold round_result. destruct (f <=? 971); unfold at_least; [|reflexivity].
    repeat apply conj; [reflexivity|exact Hf'|].
    rewrite Hmz, <- Z.mul_assoc, <- Z.pow_add_r by lia.
    replace (ez - f + (f + 1074)) with (ez + 1074) by lia. exact Hn.
  - set (k := Zpos (digits2_pos P) - 53) in *.
    change (2 ^ 52) with 4503599627370496 in *.
    change (2 ^ 53) with 9007199254740992 in *.
    assert (Hk : 0 < k) by (unfold k; lia).
    destruct (Z.eqb_spec (mt + Z.b2z up) 9007199254740992) as [Hc|Hc].
    + unfold round_result. destruct (ez + k + 1 <=? 971); unfold at_least; [|reflexivity].
      repeat apply conj; [reflexivity|lia|].
      assert (Hp : 2 <= 2 ^ (ez + k + 1 + 1074)) by (apply pow2_ge_2; lia).
      change (Zpos (2 ^ 52)) with 4503599627370496.
      transitivity (4503599627370496 * 2); [lia|].
      apply Z.mul_le_mono_nonneg_l; lia.
    + unfold round_result. destruct (ez + k <=? 971); unfold at_least; [|reflexivity].
      repeat apply conj; [reflexivity|lia|].
      assert (Hp : 2 <= 2 ^ (ez + k + 1074)) by (apply pow2_ge_2; lia).
      assert (Hpos : 0 < mt + Z.b2z up) by (destruct up; cbn; lia).
      rewrite Z2Pos.id by exact Hpos.
      assert (Hm : 4503599627370496 <= mt + Z.b2z up) by (destruct up; cbn; lia).
      transitivity (4503599627370496 * 2); [lia|].
      apply Z.mul_le_mono_nonneg; lia.
Qed.

Lemma binary_normalize_at_least (s : bool) (z ez n : Z) :
  -1074 <= ez -> 0 < cond_Zopp s z -> n <= cond_Zopp s z * 2 ^ (ez + 1074) -> n <= 2 ^ 53 ->
  at_least s n (binary_normalize prec emax z ez false).
Proof.
  intros Hez Hz Hn Hsmall.
  destruct s, z as [|P|P]; cbn [cond_Zopp Z.opp] in Hz, Hn; try lia; cbn [binary_normalize];
    now apply binary_round_at_least.
Qed.

Lemma one_unit (z ez : Z) : -1074 <= ez -> 0 < z -> 1 <= z * 2 ^ (ez + 1074).
Proof.
  intros Hez Hz.
  assert (0 < 2 ^ (ez + 1074)) by (apply Z.pow_pos_nonneg; lia).
  change 1 with (1 * 1). apply Z.mul_le_mono_nonneg; lia.
Qed.

(** The aligned mantissas of two representable numbers compare as the
    numbers do. *)
Lemma aligned_lt (m1 : positive) (e1 : Z) (m2 : positive) (e2 : Z) :
  bounded prec emax m1 e1 = true -> bounded prec emax m2 e2 = true ->
  e1 < e2 \/ (e1 = e2 /\ (m1 < m2)%positive) ->
  Zpos (fst (shl_align m1 e1 (Z.min e2 e1))) < Zpos (fst (shl_align m2 e2 (Z.min e2 e1))).
Proof.
  intros B1 B2 Hlt.
  rewrite !shl_align_min by lia.
  apply mag_lt_numeric; auto; lia.
Qed.

(** What [x < y] says of the mantissas when both are finite and not 0. *)
Lemma SFltb_finite (sx : bool) (mx : positive) (ex : Z) (sy : bool) (my : positive) (ey : Z) :
  bounded prec emax mx ex = true -> bounded prec emax my ey = true ->
  SFltb (S754_finite sx mx ex) (S754_finite sy my ey) = true ->
  let ez := Z.min ey ex in
  cond_Zopp sx (Zpos (fst (shl_align mx ex ez))) < cond_Zopp sy (Zpos (fst (shl_align my ey ez))).
Proof.
  intros Bx By H ez. unfold SFltb in H. cbn [SFcompare] in H.
  change (Pos.compare_cont Eq mx my) with (Pos.compare mx my) in H.
  destruct sx, sy; cbn [cond_Zopp]; try discriminate H; try lia.
  - assert (Hlt : ey < ex \/ (ey = ex /\ (my < mx)%positive)).
    { destruct (Z.compare_spec ex ey) as [->| |]; try discriminate H; [|lia].
      destruct (Pos.compare_spec mx my); try discriminate H. right. split; [reflexivity|lia]. }
    pose proof (aligned_lt my ey mx ex By Bx Hlt) as Hal.
    rewrite Z.min_comm in Hal. fold ez in Hal. lia.
  - assert (Hlt : ex < ey \/ (ex = ey /\ (mx < my)%positive)).
    { destruct (Z.compare_spec ex ey) as [->| |]; try discriminate H; [|lia].
      destruct (Pos.compare_spec mx my); try discriminate H. right. split; [reflexivity|lia]. }
    pose proof (aligned_lt mx ex my ey Bx By Hlt) as Hal. fold ez in Hal. lia.
Qed.

(** [a - b] for [b < a]: a positive number, never 0. *)
Lemma SFsub_of_smaller (a b : spec_float) :
  valid_binary a = true -> valid_binary b = true ->
  SFltb b a = true -> at_least false 1 (SFsub prec emax a b).
Proof.
  intros Va Vb.
  destruct a as [sa|sa| |sa ma ea], b as [sb|sb| |sb mb eb];
    try (unfold SFltb; cbn [SFcompare]; discriminate);
    try (unfold SFltb; destruct sa, sb; cbn; intros H; try discriminate H; reflexivity);
    try (unfold SFltb; destruct sa; cbn; intros H; try discriminate H; reflexivity);
    try (unfold SFltb; destruct sb; cbn; intros H; try discriminate H; reflexivity).
  - unfold SFltb. destruct sb; cbn; intros H; try discriminate H.
    now apply (finite_at_least_1 false).
  - unfold SFltb. destruct sa; cbn; intros H; try discriminate H.
    now apply (finite_at_least_1 false).
  - cbn [valid_binary] in Va, Vb. intros H.
    pose proof (bounded_exponent ma ea Va) as Hea.
    pose proof (bounded_exponent mb eb Vb) as Heb.
    pose proof (SFltb_finite _ _ _ _ _ _ Vb Va H) as Hlt. cbv zeta in Hlt.
    unfold SFsub.
    apply binary_normalize_at_least; cbn [cond_Zopp]; try lia.
    apply one_unit; lia.
Qed.

(** [a - b] for [a < b]: a negative number, never 0. *)
Lemma SFsub_of_larger (a b : spec_float) :
  valid_binary a = true -> valid_binary b = true ->
  SFltb a b = true -> at_least true 1 (SFsub prec emax a b).
Proof.
  intros Va Vb.
  destruct a as [sa|sa| |sa ma ea], b as [sb|sb| |sb mb eb];
    try (unfold SFltb; cbn [SFcompare]; discriminate);
    try (unfold SFltb; destruct sa, sb; cbn; intros H; try discriminate H; reflexivity);
    try (unfold SFltb; destruct sa; cbn; intros H; try discriminate H; reflexivity);
    try (unfold SFltb; destruct sb; cbn; intros H; try discriminate H; reflexivity).
  - unfold SFltb. destruct sb; cbn; intros H; try discriminate H.
    now apply (finite_at_least_1 true).
  - unfold SFltb. destruct sa; cbn; intros H; try discriminate H.
    now apply (finite_at_least_1 true).
  - cbn [valid_binary] in Va, Vb. intros H.
    pose proof (bounded_exponent ma ea Va) as Hea.
    pose proof (bounded_exponent mb eb Vb) as Heb.
    pose proof (SFltb_finite _ _ _ _ _ _ Va Vb H) as Hlt. cbv zeta in Hlt.
    rewrite Z.min_comm in Hlt.
    unfold SFsub.
    apply binary_normalize_at_least; cbn [cond_Zopp]; try lia.
    apply one_unit; lia.
Qed.

(** Adding what is at least [a] and at least [b] units gives at least
    [a + b] units, as long as that many are counted exactly. *)
Lemma aligned_units (m : positive) (e ez : Z) :
  -1074 <= ez -> ez <= e ->
  Zpos (fst (shl_align m e ez)) * 2 ^ (ez + 1074) = Zpos m * 2 ^ (e + 1074).
Proof.
  intros H1 H2. rewrite shl_align_min by lia.
  rewrite <- Z.mul_assoc, <- Z.pow_add_r by lia.
  do 2 f_equal. lia.
Qed.

Lemma SFadd_at_least (a b : Z) (x y : spec_float) :
  0 <= a -> 0 <= b -> a + b <= 2 ^ 53 ->
  at_least false a x -> at_least false b y ->
  at_least false (a + b) (SFadd prec emax x y).
Proof.
  intros Ha Hb Hab.
  destruct x as [sx|sx| |sx mx ex], y as [sy|sy| |sy my ey];
    try (cbn [at_least SFadd]; tauto);
    try (destruct sx, sy; cbn [at_least SFadd];
         intuition (try discriminate; try lia); fail).
  cbn [at_least SFadd].
  intros (-> & Hex & Hx) (-> & Hey & Hy).
  pose proof (aligned_units mx ex (Z.min ex ey) ltac:(lia) ltac:(lia)) as Ux.
  pose proof (aligned_units my ey (Z.min ex ey) ltac:(lia) ltac:(lia)) as Uy.
  apply binary_normalize_at_least; cbn [cond_Zopp]; try lia.
Qed.

Lemma SFsub_at_least (a b : Z) (x y : spec_float) :
  0 <= a -> 0 <= b -> a + b <= 2 ^ 53 ->
  at_least false a x -> at_least true b y ->
  at_least false (a + b) (SFsub prec emax x y).
Proof.
  intros Ha Hb Hab.
  destruct x as [sx|sx| |sx mx ex], y as [sy|sy| |sy my ey];
    try (cbn [at_least SFsub]; tauto);
    try (destruct sx, sy; cbn [at_least SFsub negb];
         intuition (try discriminate; try lia); fail).
  cbn [at_least SFsub].
  intros (-> & Hex & Hx) (-> & Hey & Hy).
  pose proof (aligned_units mx ex (Z.min ex ey) ltac:(lia) ltac:(lia)) as Ux.
  pose proof (aligned_units my ey (Z.min ex ey) ltac:(lia) ltac:(lia)) as Uy.
  apply binary_normalize_at_least; cbn [cond_Zopp]; try lia.
Qed.

(** *** Rounding a quotient *)

Lemma shr_1_m (mrs : shr_record) : 0 <= shr_m mrs -> shr_m (shr_1 mrs) = shr_m mrs / 2.
Proof.
  destruct mrs as [m r s]. cbn [shr_m shr_1]. intros Hm.
  destruct m as [|[p|p|]|p]; cbn [shr_m]; try lia.
  - reflexivity.
  - apply Z.div_unique with 1; lia.
  - apply Z.div_unique with 0; lia.
  - reflexivity.
Qed.

Lemma iter_shr_m (p : positive) :
  forall mrs, 0 <= shr_m mrs -> shr_m (iter_pos shr_1 p mrs) = shr_m mrs / 2 ^ Zpos p.
Proof.
  induction p as [p IH|p IH|]; intros mrs Hm; cbn [iter_pos].
  - assert (H1 : 0 <= shr_m (shr_1 mrs)) by now apply shr_nonneg_1.
    assert (H2 : 0 <= shr_m (iter_pos shr_1 p (shr_1 mrs))) by now apply iter_shr_nonneg.
    rewrite IH, IH, shr_1_m by assumption.
    assert (Hp : 0 < 2 ^ Zpos p) by (apply Z.pow_pos_nonneg; lia).
    rewrite !Z.div_div by lia. f_equal.
    replace (Zpos p~1) with (1 + Zpos p + Zpos p) by lia.
    rewrite !Z.pow_add_r by lia. lia.
  - assert (H2 : 0 <= shr_m (iter_pos shr_1 p mrs)) by now apply iter_shr_nonneg.
    rewrite IH, IH by assumption.
    assert (Hp : 0 < 2 ^ Zpos p) by (apply Z.pow_pos_nonneg; lia).
    rewrite !Z.div_div by lia. f_equal.
    replace (Zpos p~0) with (Zpos p + Zpos p) by lia.
    rewrite !Z.pow_add_r by lia. lia.
  - now apply shr_1_m.
Qed.

(** Shifting to the exponent of the format keeps a mantissa that is not 0. *)
Lemma shr_fexp_positive (m e : Z) (l : location) :
  1 <= m -> -1074 <= e ->
  1 <= shr_m (fst (shr_fexp prec emax m e l)) /\ -1074 <= snd (shr_fexp prec emax m e l).
Proof.
  intros Hm He. unfold shr_fexp. destruct m as [|P|P]; try lia.
  cbn [Zdigits2]. rewrite fexp64_eq.
  set (n := Z.max (Zpos (digits2_pos P) + e - 53) (-1074) - e).
  unfold shr. destruct n as [|k|k] eqn:En; cbn [fst snd];
    try (rewrite shr_record_of_loc_m; lia).
  rewrite iter_shr_m by (rewrite shr_record_of_loc_m; lia).
  rewrite shr_record_of_loc_m. split; [|lia].
  assert (Hk : Zpos k = Zpos (digits2_pos P) - 53) by lia.
  destruct (digits2_bounds P) as [Lo _].
  replace (Zpos (digits2_pos P) - 1) with (52 + Zpos k) in Lo by lia.
  rewrite Z.pow_add_r in Lo by lia.
  assert (Hp : 0 < 2 ^ Zpos k) by (apply Z.pow_pos_nonneg; lia).
  apply Z.div_le_lower_bound; [exact Hp|].
  change (2 ^ 52) with 4503599627370496 in Lo. nia.
Qed.

Lemma round_nearest_even_ge (mrs : shr_record) :
  shr_m mrs <= round_nearest_even (shr_m mrs) (loc_of_shr_record mrs).
Proof. destruct (round_nearest_even_cases mrs) as [H|[H _]]; cbv zeta in H; lia. Qed.

(** A quotient of at least one unit rounds to a number that is not 0. *)
Lemma binary_round_aux_positive (s : bool) (m e : Z) (l : location) :
  1 <= m -> -1074 <= e -> at_least s 1 (binary_round_aux prec emax s m e l).
Proof.
  intros Hm He. unfold binary_round_aux.
  destruct (shr_fexp_positive m e l Hm He) as [H1 E1].
  destruct (shr_fexp prec emax m e l) as [mrs' e']. cbn [fst snd] in H1, E1.
  pose proof (round_nearest_even_ge mrs') as Hr.
  destruct (shr_fexp_positive (round_nearest_even (shr_m mrs') (loc_of_shr_record mrs'))
              e' loc_Exact ltac:(lia) E1) as [H2 E2].
  destruct (shr_fexp prec emax _ e' loc_Exact) as [mrs'' e'']. cbn [fst snd] in H2, E2.
  destruct (shr_m mrs'') as [|q|q]; try lia.
  destruct (e'' <=? emax - prec); cbn [at_least]; [|reflexivity].
  repeat apply conj; [reflexivity|exact E2|]. apply one_unit; lia.
Qed.

(** [x / 14] for [x] of at least 14 units: a positive number, never 0. *)
Lemma SFdiv_14_positive (x : spec_float) :
  valid_binary x = true -> at_least false 14 x ->
  at_least false 1 (SFdiv prec emax x (S754_finite false 7881299347898368 (-49))).
Proof.
  intros V. destruct x as [sx|sx| |sx mx ex]; cbn [at_least]; try lia; try tauto.
  - intros ->. reflexivity.
  - intros (-> & Hex & Hx). cbn [valid_binary] in V.
    destruct (bounded_spec mx ex V) as (D & E & C).
    cbn [SFdiv xorb].
    unfold SFdiv_core_binary. cbn [Zdigits2].
    change (Zpos (digits2_pos 7881299347898368)) with 53.
    rewrite fexp64_eq.
    set (d := Zpos (digits2_pos mx)) in *.
    assert (Hd : 1 <= d).
    { unfold d. lia. }
    replace (Z.min (Z.max (d + ex - (53 + -49) - 53) (-1074)) (ex - -49))
      with (Z.max (d + ex - 57) (-1074)) by lia.
    set (f := Z.max (d + ex - 57) (-1074)).
    destruct (ex - -49 - f) as [|k|k] eqn:Es; try lia.
    rewrite Z.shiftl_mul_pow2 by lia.
    pose proof (Z_div_mod (Zpos mx * 2 ^ Zpos k) 7881299347898368 ltac:(lia)) as Hdiv.
    destruct (Z.div_eucl (Zpos mx * 2 ^ Zpos k) 7881299347898368) as [q r].
    destruct Hdiv as [Hq Hr].
    apply binary_round_aux_positive; [|unfold f; lia].
    assert (Hbig : 7881299347898368 <= Zpos mx * 2 ^ Zpos k).
    { destruct (Z.max_spec (d + ex - 57) (-1074)) as [[_ Hf]|[_ Hf]]; fold f in Hf.
      - (* the smallest exponent *)
        replace (Zpos k) with ((ex + 1074) + 49) by lia.
        rewrite Z.pow_add_r, Z.mul_assoc by lia.
        change (2 ^ 49) with 562949953421312. lia.
      - destruct (digits2_bounds mx) as [Lo _]. fold d in Lo.
        replace (Zpos k) with (106 - d) by lia.
        assert (Hp : 2 ^ (d - 1) * 2 ^ (106 - d) = 2 ^ 105).
        { rewrite <- Z.pow_add_r by lia. f_equal. lia. }
        assert (0 < 2 ^ (106 - d)) by (apply Z.pow_pos_nonneg; lia).
        assert (2 ^ (d - 1) * 2 ^ (106 - d) <= Zpos mx * 2 ^ (106 - d))
          by (apply Z.mul_le_mono_nonneg_r; lia).
        change (2 ^ 105) with 40564819207303340847894502572032 in Hp. lia. }
    nia.
Qed.

End Units64.

(** *** Numbers *)

Section OneWay.
Import Units64.

Lemma sub_of_smaller (a b : float) :
  (b <? a) = true -> at_least false 1 (Prim2SF (a - b)).
Proof.
  intros H. rewrite sub_spec. rewrite ltb_spec in H.
  apply SFsub_of_smaller; auto using Prim2SF_valid.
Qed.

Lemma sub_of_larger (a b : float) :
  (a <? b) = true -> at_least true 1 (Prim2SF (a - b)).
Proof.
  intros H. rewrite sub_spec. rewrite ltb_spec in H.
  apply SFsub_of_larger; auto using Prim2SF_valid.
Qed.

Lemma positive_gt_0 (x : float) : at_least false 1 (Prim2SF x) -> gt x 0 = true.
Proof.
  unfold gt. rewrite ltb_spec. change (Prim2SF 0) with (S754_zero false).
  destruct (Prim2SF x) as [s|s| |s m e]; cbn [at_least]; try lia; try tauto.
  - intros ->. reflexivity.
  - intros (-> & _). reflexivity.
Qed.

Lemma negative_not_gt_0 (x : float) : at_least true 1 (Prim2SF x) -> gt x 0 = false.
Proof.
  unfold gt. rewrite ltb_spec. change (Prim2SF 0) with (S754_zero false).
  destruct (Prim2SF x) as [s|s| |s m e]; cbn [at_least]; try lia; try tauto.
  - intros ->. reflexivity.
  - intros (-> & _). reflexivity.
Qed.

Lemma div_14_positive (x : float) :
  at_least false 14 (Prim2SF x) -> at_least false 1 (Prim2SF (x / of_nat 14)).
Proof.
  intros H. rewrite div_spec.
  change (Prim2SF (of_nat 14)) with (S754_finite false 7881299347898368 (-49)).
  apply SFdiv_14_positive; auto using Prim2SF_valid.
Qed.

Lemma positive_div_0 (x : float) : at_least false 1 (Prim2SF x) -> x / 0 = infinity.
Proof.
  intros H. apply Prim2SF_inj. rewrite div_spec.
  change (Prim2SF 0) with (S754_zero false).
  change (Prim2SF infinity) with (S754_infinity false).
  destruct (Prim2SF x) as [s|s| |s m e]; cbn [at_least] in H; try lia; try tauto.
  - subst s. reflexivity.
  - destruct H as (-> & _). reflexivity.
Qed.

Lemma zero_div_positive (x : float) : at_least false 1 (Prim2SF x) -> 0 / x = 0.
Proof.
  intros H. apply Prim2SF_inj. rewrite div_spec.
  change (Prim2SF 0) with (S754_zero false).
  destruct (Prim2SF x) as [s|s| |s m e]; cbn [at_least] in H; try lia; try tauto.
  - subst s. reflexivity.
  - destruct H as (-> & _). reflexivity.
Qed.

(** ** Loops *)

Lemma for_each_seq_invariant {S : Type} (body : S -> nat -> Reads S)
  (Inv : nat -> S -> Prop) (n : nat) :
  forall (start : nat) (s : S),
  (forall i s, (start <= i < start + n)%nat -> Inv i s ->
     in_bounds (body s i) = true /\ Inv (Datatypes.S i) (result (body s i))) ->
  Inv start s ->
  in_bounds (for_each body (seq start n) s) = true /\
  Inv (start + n)%nat (result (for_each body (seq start n) s)).
Proof.
  induction n as [|n IH]; intros start s Hbody H0; cbn [seq for_each].
  - rewrite Nat.add_0_r. split; [reflexivity|exact H0].
  - destruct (Hbody start s ltac:(lia) H0) as [Hb H1].
    destruct (IH (Datatypes.S start) (result (body s start))) as [Hb' H2].
    + intros i s' Hi. apply Hbody. lia.
    + exact H1.
    + unfold bind. cbn [result in_bounds]. rewrite Hb, Hb'.
      split; [reflexivity|].
      replace (start + Datatypes.S n)%nat with (Datatypes.S start + n)%nat by lia.
      exact H2.
Qed.

Lemma get_nth_error (a : list float) (k : nat) (x : float) :
  nth_error a k = Some x -> get a (Z.of_nat k) = ret (Number x).
Proof.
  intros H. unfold get.
  destruct (Z.ltb_spec (Z.of_nat k) 0) as [Hneg|_]; [lia|].
  now rewrite Nat2Z.id, H.
Qed.

Lemma rises_nth (w : list float) :
  rises w = true ->
  forall k, (k + 1 < length w)%nat ->
  exists a b, nth_error w k = Some a /\ nth_error w (k + 1) = Some b /\ (a <? b) = true.
Proof.
  induction w as [|a [|b rest] IH]; intros H k Hk; cbn [length] in Hk; try lia.
  cbn [rises] in H. apply andb_prop in H. destruct H as [Hab Hrest].
  destruct k as [|k].
  - exists a, b. auto.
  - destruct (IH Hrest k) as (x & y & Hx & Hy & Hxy); [cbn [length]; lia|].
    exists x, y. auto.
Qed.

Lemma falls_nth (w : list float) :
  falls w = true ->
  forall k, (k + 1 < length w)%nat ->
  exists a b, nth_error w k = Some a /\ nth_error w (k + 1) = Some b /\ (b <? a) = true.
Proof.
  induction w as [|a [|b rest] IH]; intros H k Hk; cbn [length] in Hk; try lia.
  cbn [falls] in H. apply andb_prop in H. destruct H as [Hab Hrest].
  destruct k as [|k].
  - exists a, b. auto.
  - destruct (IH Hrest k) as (x & y & Hx & Hy & Hxy); [cbn [length]; lia|].
    exists x, y. auto.
Qed.

(** ** RSI of a one-way market *)

(** The reads of one turn of the RSI loop over a window of 15 closes. *)
Lemma rsi_reads (window : list float) (i : nat) :
  length window = 15%nat -> (1 <= i < 1 + 14)%nat ->
  exists older newer,
    nth_error window (14 - i) = Some older /\ nth_error window (14 - i + 1) = Some newer /\
    get window (Z.of_nat 15 - Z.of_nat i)%Z = ret (Number newer) /\
    get window (Z.of_nat 15 - Z.of_nat i - 1)%Z = ret (Number older).
Proof.
  intros Hlen Hi.
  destruct (nth_error window (14 - i)) as [older|] eqn:E1;
    [|apply nth_error_None in E1; lia].
  destruct (nth_error window (14 - i + 1)) as [newer|] eqn:E2;
    [|apply nth_error_None in E2; lia].
  exists older, newer. repeat apply conj; try reflexivity.
  - replace (Z.of_nat 15 - Z.of_nat i)%Z with (Z.of_nat (14 - i + 1)) by lia.
    now apply get_nth_error.
  - replace (Z.of_nat 15 - Z.of_nat i - 1)%Z with (Z.of_nat (14 - i)) by lia.
    now apply get_nth_error.
Qed.

(** A market that only rises: when each of the last 15 closes is above the one
    before, no loss is counted, the relative strength is [gain / 0], and the
    RSI is exactly 100, whatever the size of the rises. *)
Theorem calculateRSI_of_rising_window (front window : list float) :
  length window = 15%nat -> rises window = true ->
  calculateRSI (front ++ window) 14 = ret 100.
Proof.
  intros Hlen Hrises.
  rewrite calculateRSI_window by lia.
  unfold calculateRSI. rewrite Hlen.
  change (15 <? 14 + 1)%nat with false. cbv iota zeta.
  match goal with |- context [for_each ?b _ _] => set (body := b) end.
  destruct (for_each_seq_invariant body
              (fun i gl => at_least false (Z.of_nat i - 1) (Prim2SF (fst gl)) /\ snd gl = 0)
              14 1 (0, 0)) as [Hb [Hg Hl]].
  - intros i [gains losses] Hi [Hg Hl]. cbn [fst snd] in Hg, Hl. subst losses.
    destruct (rsi_reads window i Hlen Hi) as (older & newer & E1 & E2 & G1 & G2).
    destruct (rises_nth window Hrises (14 - i)) as (x & y & Hx & Hy & Hxy); [lia|].
    rewrite E1 in Hx. rewrite E2 in Hy. injection Hx as <-. injection Hy as <-.
    unfold body. rewrite G1, G2. unfold bind, ret. cbn [result in_bounds ToNumber andb].
    pose proof (sub_of_smaller newer older Hxy) as Hchange.
    rewrite (positive_gt_0 _ Hchange). cbn [fst snd].
    repeat apply conj; try reflexivity.
    rewrite add_spec.
    replace (Z.of_nat (S i) - 1)%Z with ((Z.of_nat i - 1) + 1)%Z by lia.
    apply SFadd_at_least; try lia; assumption.
  - cbn [fst snd]. split; [|reflexivity]. change (Prim2SF 0) with (S754_zero false).
    cbn. lia.
  - destruct (for_each body (seq 1 14) (0, 0)) as [[gains losses] ib].
    cbn [result in_bounds fst snd] in *. subst ib losses.
    unfold bind, ret. cbn [result in_bounds fst snd andb].
    change (0 / of_nat 14) with 0.
    rewrite (positive_div_0 (gains / of_nat 14)) by now apply div_14_positive.
    reflexivity.
Qed.

Lemma calculateRSI_of_rising_window_witness :
  rsi (result (calculateTechnicalIndicators (rising 60))) = 100.
Proof.
  change (rsi (result (calculateTechnicalIndicators (rising 60))))
    with (result (calculateRSI (map close (rising 45) ++
                                map (fun i => of_nat (145 + i)) (seq 0 15)) 14)).
  rewrite (calculateRSI_of_rising_window (map close (rising 45))
             (map (fun i => of_nat (145 + i)) (seq 0 15))); reflexivity.
Defined.

(** A market that only falls: when each of the last 15 closes is below the one
    before, no gain is counted, the relative strength is [0 / loss], and the
    RSI is exactly 0. *)
Theorem calculateRSI_of_falling_window (front window : list float) :
  length window = 15%nat -> falls window = true ->
  calculateRSI (front ++ window) 14 = ret 0.
Proof.
  intros Hlen Hfalls.
  rewrite calculateRSI_window by lia.
  unfold calculateRSI. rewrite Hlen.
  change (15 <? 14 + 1)%nat with false. cbv iota zeta.
  match goal with |- context [for_each ?b _ _] => set (body := b) end.
  destruct (for_each_seq_invariant body
              (fun i gl => fst gl = 0 /\ at_least false (Z.of_nat i - 1) (Prim2SF (snd gl)))
              14 1 (0, 0)) as [Hb [Hg Hl]].
  - intros i [gains losses] Hi [Hg Hl]. cbn [fst snd] in Hg, Hl. subst gains.
    destruct (rsi_reads window i Hlen Hi) as (older & newer & E1 & E2 & G1 & G2).
    destruct (falls_nth window Hfalls (14 - i)) as (x & y & Hx & Hy & Hxy); [lia|].
    rewrite E1 in Hx. rewrite E2 in Hy. injection Hx as <-. injection Hy as <-.
    unfold body. rewrite G1, G2. unfold bind, ret. cbn [result in_bounds ToNumber andb].
    pose proof (sub_of_larger newer older Hxy) as Hchange.
    rewrite (negative_not_gt_0 _ Hchange). cbn [fst snd].
    repeat apply conj; try reflexivity.
    rewrite sub_spec.
    replace (Z.of_nat (S i) - 1)%Z with ((Z.of_nat i - 1) + 1)%Z by lia.
    apply SFsub_at_least; try lia; assumption.
  - cbn [fst snd]. split; [reflexivity|]. change (Prim2SF 0) with (S754_zero false).
    cbn. lia.
  - destruct (for_each body (seq 1 14) (0, 0)) as [[gains losses] ib].
    cbn [result in_bounds fst snd] in *. subst ib gains.
    unfold bind, ret. cbn [result in_bounds fst snd andb].
    change (0 / of_nat 14) with 0.
    rewrite (zero_div_positive (losses / of_nat 14)) by now apply div_14_positive.
    reflexivity.
Qed.

Lemma calculateRSI_of_falling_window_witness :
  calculateRSI ([50; 60] ++ map of_nat (rev (seq 1 15))) 14 = ret 0.
Proof.
  apply (calculateRSI_of_falling_window [50; 60] (map of_nat (rev (seq 1 15))));
    reflexivity.
Defined.

End OneWay.

(** ** Extrema over the window *)

Lemma min_from_nan (a : list float) :
  (exists x, In x a /\ is_nan x = true) ->
  forall lowest, min_from lowest a = nan.
Proof.
  induction a as [|number rest IH]; intros (x & Hx & Hnan) lowest; simpl.
  - destruct Hx.
  - destruct (is_nan number) eqn:E; [reflexivity|].
    destruct Hx as [->|Hx]; [congruence|].
    apply IH. now exists x.
Qed.

Lemma max_from_nan (a : list float) :
  (exists x, In x a /\ is_nan x = true) ->
  forall highest, max_from highest a = nan.
Proof.
  induction a as [|number rest IH]; intros (x & Hx & Hnan) highest; simpl.
  - destruct Hx.
  - destruct (is_nan number) eqn:E; [reflexivity|].
    destruct Hx as [->|Hx]; [congruence|].
    apply IH. now exists x.
Qed.

(** The candles the support and the resistance are taken over. *)
Lemma last_20_candles (candlesticks : list CandlestickData) (f : CandlestickData -> float) :
  slice_from (-20) (map f candlesticks) =
  map f (skipn (length candlesticks - 20) candlesticks).
Proof.
  rewrite slice_from_map. change (-20)%Z with (- Z.of_nat 20)%Z.
  now rewrite clamp_index_last.
Qed.

(** When none of the last 20 lows and highs is NaN, the support is below
    every one of these lows and the resistance above every one of these
    highs. *)
Theorem support_and_resistance_bound_the_window (candlesticks : list CandlestickData) :
  let window := skipn (length candlesticks - 20) candlesticks in
  let indicators := result (calculateTechnicalIndicators candlesticks) in
  (forall c, In c window -> is_nan (low c) = false /\ is_nan (high c) = false) ->
  forall c, In c window ->
  (support indicators <=? low c) = true /\ (high c <=? resistance indicators) = true.
Proof.
  intros window indicators Hnum c Hc.
  change (support indicators) with (Math_min (slice_from (-20) (map low candlesticks))).
  change (resistance indicators) with (Math_max (slice_from (-20) (map high candlesticks))).
  rewrite !last_20_candles. fold window.
  assert (Hlows : forall x, In x (map low window) -> is_nan x = false).
  { intros x Hx. apply in_map_iff in Hx. destruct Hx as (c' & <- & Hc'). now apply Hnum. }
  assert (Hhighs : forall x, In x (map high window) -> is_nan x = false).
  { intros x Hx. apply in_map_iff in Hx. destruct Hx as (c' & <- & Hc'). now apply Hnum. }
  destruct (min_from_below (map low window) infinity eq_refl Hlows) as [_ Hmin].
  destruct (max_from_above (map high window) neg_infinity eq_refl Hhighs) as [_ Hmax].
  split; [apply Hmin | apply Hmax]; now apply in_map.
Qed.

Lemma support_and_resistance_bound_the_window_witness :
  (support rising60 <=? 150) = true /\ (152 <=? resistance rising60) = true.
Proof.
  refine (support_and_resistance_bound_the_window (rising 60) _
            (mkCandle (JS.of_nat 51) 151 152 150 151 0) _).
  - intros c Hc.
    assert (H : forallb (fun c => negb (is_nan (low c)) && negb (is_nan (high c)))
                  (skipn (length (rising 60) - 20) (rising 60)) = true)
      by (vm_compute; reflexivity).
    rewrite forallb_forall in H. specialize (H c Hc).
    apply andb_prop in H. destruct H as [H1 H2].
    apply negb_true_iff in H1, H2. now split.
  - vm_compute. do 11 right. now left.
Defined.

(** One NaN among the last 20 lows makes the support NaN, and one among the
    last 20 highs makes the resistance NaN: [Math.min] and [Math.max] do not
    skip it. *)
Theorem support_and_resistance_propagate_nan (candlesticks : list CandlestickData) :
  let window := skipn (length candlesticks - 20) candlesticks in
  let indicators := result (calculateTechnicalIndicators candlesticks) in
  ((exists c, In c window /\ is_nan (low c) = true) -> support indicators = nan) /\
  ((exists c, In c window /\ is_nan (high c) = true) -> resistance indicators = nan).
Proof.
  intros window indicators.
  change (support indicators) with (Math_min (slice_from (-20) (map low candlesticks))).
  change (resistance indicators) with (Math_max (slice_from (-20) (map high candlesticks))).
  rewrite !last_20_candles. fold window.
  split; intros (c & Hc & Hnan).
  - apply min_from_nan. exists (low c). split; [now apply in_map | exact Hnan].
  - apply max_from_nan. exists (high c). split; [now apply in_map | exact Hnan].
Qed.

Lemma support_and_resistance_propagate_nan_witness :
  support (result (calculateTechnicalIndicators
                     (rising 30 ++ [mkCandle 0 1 2 nan 1 0] ++ rising 5))) = nan.
Proof.
  apply (support_and_resistance_propagate_nan
           (rising 30 ++ [mkCandle 0 1 2 nan 1 0] ++ rising 5)).
  exists (mkCandle 0 1 2 nan 1 0). split; [|reflexivity].
  vm_compute. do 14 right. now left.
Defined.

(** * The mock feed *)

(** ** Sizes of binary64 numbers *)

Module Sizes64.
Import SF64 Rounding64.
Local Open Scope Z_scope.

Lemma within_finite (n : Z) (x : spec_float) : within n x -> SF_is_finite x = true.
Proof. destruct x; cbn; tauto. Qed.

Lemma within_weaken (a b : Z) (x : spec_float) : a <= b -> within a x -> within b x.
Proof.
  intros Hab. destruct x as [s|s| |s m e]; cbn; try tauto.
  intros [He Hm]. split; [lia|].
  eapply Z.le_trans; [exact Hm|]. apply Z.pow_le_mono_r; lia.
Qed.

Lemma pow2_le_exponent (a b : Z) : 0 <= b -> 2 ^ a <= 2 ^ b -> a <= b.
Proof.
  intros Hb H. destruct (Z_le_gt_dec a b) as [|Hgt]; [assumption|].
  assert (2 ^ b < 2 ^ a) by (apply Z.pow_lt_mono_r; lia). lia.
Qed.

(** Rounding what is at most [2^n] gives at most [2^n], which is a number of
    the format. *)
Lemma binary_round_aux_within (s : bool) (M : positive) (e n : Z) :
  -1074 <= n <= 1023 -> e <= n -> e <= 971 -> Zpos M <= 2 ^ (n - e) ->
  within n (binary_round_aux prec emax s (Zpos M) e loc_Exact).
Proof.
  intros Hn Hen He HM.
  set (d := Zpos (digits2_pos M)).
  destruct (digits2_bounds M) as [Dlo Dhi]. fold d in Dlo, Dhi.
  assert (Hd1 : 1 <= d) by (unfold d; lia).
  assert (Hd : d - 1 <= n - e) by (apply pow2_le_exponent; lia).
  unfold binary_round_aux. unfold shr_fexp at 1.
  cbn [Zdigits2 shr_record_of_loc]. rewrite fexp64_eq. fold d.
  set (k := Z.max (d + e - 53) (-1074) - e).
  destruct (Z_le_gt_dec k 0) as [Hk|Hk].
  - (* nothing to drop *)
    rewrite shr_nonpos by exact Hk. cbn [shr_m loc_of_shr_record round_nearest_even].
    unfold shr_fexp. cbn [Zdigits2 shr_record_of_loc]. rewrite fexp64_eq. fold d. fold k.
    rewrite shr_nonpos by exact Hk. cbn [shr_m].
    change (emax - prec) with 971.
    destruct (Z.leb_spec e 971); [|lia]. cbn [within]. split; assumption.
  - unfold shr at 1. destruct k as [|p|p] eqn:Ek; try lia.
    rewrite <- Ek in *.
    pose proof (iter_shr_1_inv (Zpos M) p 0 (Build_shr_record (Zpos M) false false)) as Hinv.
    simpl Z.add in Hinv. rewrite <- Ek in Hinv.
    destruct Hinv as (Hmt & rem & HMeq & Hrem & Hr).
    { lia. }
    { split; [simpl; lia|]. exists 0; simpl; repeat split; try lia; discriminate. }
    set (mrs := iter_pos shr_1 p (Build_shr_record (Zpos M) false false)) in *.
    set (mt := shr_m mrs) in *.
    set (e' := e + k).
    assert (He' : -1074 <= e' <= n - 52 \/ e' = -1074) by (unfold e', k; lia).
    assert (He'n : -1074 <= e' <= n) by lia.
    assert (Hpk : 0 < 2 ^ k) by (apply Z.pow_pos_nonneg; lia).
    assert (Hsplit : 2 ^ (n - e) = 2 ^ (n - e') * 2 ^ k).
    { rewrite <- Z.pow_add_r by lia. f_equal. unfold e'. lia. }
    assert (Hpe : 0 < 2 ^ (n - e')) by (apply Z.pow_pos_nonneg; lia).
    assert (Hmt53 : mt < 2 ^ 53).
    { assert (Hdk : 2 ^ d <= 2 ^ 53 * 2 ^ k).
      { rewrite <- Z.pow_add_r by lia. apply Z.pow_le_mono_r; unfold k; lia. }
      change (2 ^ 53) with 9007199254740992 in *. nia. }
    pose proof (round_nearest_even_cases mrs) as Hcases. cbv zeta in Hcases. fold mt in Hcases.
    set (m1 := round_nearest_even mt (loc_of_shr_record mrs)) in *.
    assert (Hm1 : 0 <= m1 <= 2 ^ (n - e') /\ m1 <= 2 ^ 53).
    { destruct Hcases as [->|[-> Hup]].
      - repeat split; try lia. rewrite Hsplit in HM. nia.
      - specialize (Hr Hup). repeat split; try lia.
        rewrite Hsplit in HM.
        assert (mt < 2 ^ (n - e')) by nia. lia. }
    destruct Hm1 as [[Hm0 Hm1n] Hm153].
    change (2 ^ 53) with 9007199254740992 in *.
    destruct m1 as [|q|q] eqn:Eq; try lia.
    + (* everything dropped *)
      unfold shr_fexp. cbn [Zdigits2 shr_record_of_loc]. rewrite fexp64_eq.
      rewrite shr_nonpos by lia. cbn [shr_m within]. exact I.
    + destruct (Z.eq_dec (Zpos q) 9007199254740992) as [Hq|Hq].
      * (* carried into the next binade *)
        injection Hq as ->.
        assert (He'' : e' + 1 <= n - 52).
        { assert (53 <= n - e'); [|lia].
          apply pow2_le_exponent; [lia|]. change (2 ^ 53) with 9007199254740992. lia. }
        unfold shr_fexp.
        change (Zdigits2 9007199254740992) with 54. rewrite fexp64_eq.
        replace (Z.max (54 + e' - 53) (-1074) - e') with 1 by lia.
        cbn [shr shr_record_of_loc iter_pos shr_1 shr_m].
        change (emax - prec) with 971.
        destruct (Z.leb_spec (e' + 1) 971); [|lia]. cbn [within].
        split; [lia|]. change 4503599627370496 with (2 ^ 52).
        apply Z.pow_le_mono_r; lia.
      * assert (Hdq : Zpos (digits2_pos q) <= 53).
        { destruct (digits2_bounds q) as [Qlo _].
          destruct (Z_le_gt_dec (Zpos (digits2_pos q)) 53) as [|Hgt]; [assumption|].
          assert (2 ^ 53 <= 2 ^ (Zpos (digits2_pos q) - 1)) by (apply Z.pow_le_mono_r; lia).
          change (2 ^ 53) with 9007199254740992 in *. lia. }
        rewrite shr_fexp_small by lia. cbn [shr_m].
        change (emax - prec) with 971.
        assert (He971 : e' <= 971).
        { destruct He' as [He'|He']; [|lia].
          lia. }
        destruct (Z.leb_spec e' 971); [|lia]. cbn [within]. split; lia.
Qed.

Lemma binary_round_within (s : bool) (P : positive) (ez n : Z) :
  -1074 <= n <= 1023 -> ez <= n -> Zpos P <= 2 ^ (n - ez) ->
  within n (binary_round prec emax s P ez).
Proof.
  intros Hn Hez HP. unfold binary_round.
  pose proof (shl_align_spec P ez (fexp prec emax (Zpos (digits2_pos P) + ez))) as Hal.
  destruct (shl_align P ez _) as [mz f]. cbn [fst snd] in Hal.
  destruct Hal as [Hf Hmz]. change (fexp prec emax) with fexp64 in Hf.
  rewrite fexp64_eq in Hf.
  destruct (digits2_bounds P) as [Dlo _].
  assert (Hd : Zpos (digits2_pos P) - 1 <= n - ez) by (apply pow2_le_exponent; lia).
  apply binary_round_aux_within; try lia.
  rewrite Hmz.
  replace (n - f) with ((n - ez) + (ez - f)) by lia.
  rewrite Z.pow_add_r by lia.
  apply Z.mul_le_mono_nonneg_r; [apply Z.pow_nonneg; lia | exact HP].
Qed.

Lemma binary_normalize_within (z ez n : Z) :
  -1074 <= n <= 1023 -> ez <= n -> Z.abs z <= 2 ^ (n - ez) ->
  within n (binary_normalize prec emax z ez false).
Proof.
  intros Hn Hez Hz. destruct z as [|P|P]; cbn [binary_normalize].
  - exact I.
  - apply binary_round_within; auto.
  - apply binary_round_within; auto.
Qed.

Lemma aligned_within (m : positive) (e ez n : Z) :
  ez <= e -> e <= n -> Zpos m <= 2 ^ (n - e) ->
  Zpos (fst (shl_align m e ez)) <= 2 ^ (n - ez).
Proof.
  intros H1 H2 Hm. rewrite shl_align_min by exact H1.
  replace (n - ez) with ((n - e) + (e - ez)) by lia.
  rewrite Z.pow_add_r by lia.
  apply Z.mul_le_mono_nonneg_r; [apply Z.pow_nonneg; lia | exact Hm].
Qed.

(** Sums and differences of numbers of size at most [2^n] are finite, of size
    at most [2^(n+1)]. *)
Lemma SFadd_within (n : Z) (x y : spec_float) :
  -1074 <= n -> n + 1 <= 1023 -> within n x -> within n y ->
  within (n + 1) (SFadd prec emax x y).
Proof.
  intros Hlo Hhi.
  destruct x as [sx|sx| |sx mx ex], y as [sy|sy| |sy my ey]; cbn [within]; try tauto.
  - intros _ _. cbn [SFadd]. destruct sx, sy; exact I.
  - intros _ Hy. cbn [SFadd]. apply (within_weaken n); [lia|exact Hy].
  - intros Hx _. cbn [SFadd]. apply (within_weaken n); [lia|exact Hx].
  - intros [Hex Hmx] [Hey Hmy]. cbn [SFadd].
    match goal with |- context [shl_align mx ex ?z] => set (ez := z) end.
    assert (Hez : ez = Z.min ex ey) by reflexivity.
    pose proof (aligned_within mx ex ez n ltac:(lia) Hex Hmx) as Ax.
    pose proof (aligned_within my ey ez n ltac:(lia) Hey Hmy) as Ay.
    apply binary_normalize_within; try lia.
    replace (n + 1 - ez) with (1 + (n - ez)) by lia.
    rewrite Z.pow_add_r, Z.pow_1_r by lia.
    destruct sx, sy; cbn [cond_Zopp]; lia.
Qed.

Lemma SFsub_within (n : Z) (x y : spec_float) :
  -1074 <= n -> n + 1 <= 1023 -> within n x -> within n y ->
  within (n + 1) (SFsub prec emax x y).
Proof.
  intros Hlo Hhi.
  destruct x as [sx|sx| |sx mx ex], y as [sy|sy| |sy my ey]; cbn [within]; try tauto.
  - intros _ _. cbn [SFsub]. destruct sx, sy; exact I.
  - intros _ Hy. cbn [SFsub within]. apply (within_weaken n _ (S754_finite sy my ey)); [lia|exact Hy].
  - intros Hx _. cbn [SFsub]. apply (within_weaken n); [lia|exact Hx].
  - intros [Hex Hmx] [Hey Hmy]. cbn [SFsub].
    match goal with |- context [shl_align mx ex ?z] => set (ez := z) end.
    assert (Hez : ez = Z.min ex ey) by reflexivity.
    pose proof (aligned_within mx ex ez n ltac:(lia) Hex Hmx) as Ax.
    pose proof (aligned_within my ey ez n ltac:(lia) Hey Hmy) as Ay.
    apply binary_normalize_within; try lia.
    replace (n + 1 - ez) with (1 + (n - ez)) by lia.
    rewrite Z.pow_add_r, Z.pow_1_r by lia.
    destruct sx, sy; cbn [cond_Zopp]; lia.
Qed.

(** Products of numbers of the format, of sizes at most [2^a] and [2^b]. *)
Lemma SFmul_within (a b : Z) (x y : spec_float) :
  valid_binary x = true -> valid_binary y = true ->
  -1074 <= a + b <= 1023 -> within a x -> within b y ->
  within (a + b) (SFmul prec emax x y).
Proof.
  intros Vx Vy Hab.
  destruct x as [sx|sx| |sx mx ex], y as [sy|sy| |sy my ey]; cbn [within SFmul]; try tauto.
  intros [Hex Hmx] [Hey Hmy]. cbn [valid_binary] in Vx, Vy.
  destruct (bounded_spec mx ex Vx) as (Dx & Ex & Cx).
  destruct (bounded_spec my ey Vy) as (Dy & Ey & Cy).
  destruct (digits2_bounds mx) as [Xlo _].
  destruct (digits2_bounds my) as [Ylo _].
  apply binary_round_aux_within; try lia.
  - destruct Cx as [Cx|Cx]; [lia|]. destruct Cy as [Cy|Cy]; [lia|].
    rewrite Cx in Xlo. rewrite Cy in Ylo.
    assert (52 <= a - ex) by (apply pow2_le_exponent; [lia|]; change (53 - 1) with 52 in Xlo; lia).
    assert (52 <= b - ey) by (apply pow2_le_exponent; [lia|]; change (53 - 1) with 52 in Ylo; lia).
    lia.
  - rewrite Pos2Z.inj_mul.
    replace (a + b - (ex + ey)) with ((a - ex) + (b - ey)) by lia.
    rewrite Z.pow_add_r by lia.
    apply Z.mul_le_mono_nonneg; lia.
Qed.

Lemma SFabs_within (n : Z) (x : spec_float) : within n x -> within n (SFabs x).
Proof. destruct x; cbn; tauto. Qed.

Lemma SFabs_NN (x : spec_float) : SF_is_nan x = false -> NN (SFabs x).
Proof. destruct x; cbn; try discriminate; tauto. Qed.

(** What is below 1: at most [2^0]. *)
Lemma below_one_within (x : spec_float) :
  valid_binary x = true ->
  SFltb x (S754_finite false 4503599627370496 (-52)) = true -> NN x ->
  within 0 x.
Proof.
  intros V. destruct x as [s|s| |s m e]; cbn [NN within]; try tauto.
  - unfold SFltb. destruct s; cbn; intros H1 H2; try discriminate H1; tauto.
  - cbn [valid_binary] in V. destruct (bounded_spec m e V) as (D & E & C).
    destruct (digits2_bounds m) as [_ Hi].
    unfold SFltb. destruct s; [tauto|]. cbn [SFcompare].
    intros H _.
    assert (He : e <= -52).
    { destruct (Z.compare_spec e (-52)); try discriminate H; lia. }
    split; [lia|].
    destruct (Z.eq_dec e (-52)) as [->|Hne].
    + rewrite Z.compare_refl in H.
      pose proof (Pos.compare_spec m 4503599627370496) as Hc. unfold Pos.compare in Hc.
      destruct Hc; try discriminate H.
      change (2 ^ (0 - -52)) with 4503599627370496.
      match goal with Hlt : (m < _)%positive |- _ =>
        apply Z.lt_le_incl; exact (Pos2Z.pos_lt_pos _ _ Hlt) end.
    + assert (2 ^ Zpos (digits2_pos m) <= 2 ^ (0 - e)) by (apply Z.pow_le_mono_r; lia).
      lia.
Qed.

Lemma SFmul_NN_within (a b : Z) (x y : spec_float) :
  NN x -> NN y -> within a x -> within b y -> NN (SFmul prec emax x y).
Proof.
  destruct x as [[|]|[|]| |[|] mx ex], y as [[|]|[|]| |[|] my ey]; cbn [NN within SFmul xorb];
    try tauto.
  intros _ _ _ _. apply has_sign_NN, binary_round_aux_sign. lia.
Qed.

End Sizes64.

Section MockNumbers.
Import SF64 Rounding64 Sizes64 Binary64.

Lemma sized_is_finite (n : Z) (x : float) : sized n x -> is_finite x = true.
Proof. rewrite is_finite_spec. apply within_finite. Qed.

Lemma sized_weaken (a b : Z) (x : float) : (a <= b)%Z -> sized a x -> sized b x.
Proof. apply within_weaken. Qed.

Lemma add_sized (a b n : Z) (x y : float) :
  sized a x -> sized b y -> (a <= n)%Z -> (b <= n)%Z -> (-1074 <= n)%Z -> (n + 1 <= 1023)%Z ->
  sized (n + 1) (x + y).
Proof.
  intros Hx Hy Ha Hb Hlo Hhi. unfold sized. rewrite add_spec.
  apply SFadd_within; try assumption;
    [apply (within_weaken a) | apply (within_weaken b)]; assumption.
Qed.

Lemma sub_sized (a b n : Z) (x y : float) :
  sized a x -> sized b y -> (a <= n)%Z -> (b <= n)%Z -> (-1074 <= n)%Z -> (n + 1 <= 1023)%Z ->
  sized (n + 1) (x - y).
Proof.
  intros Hx Hy Ha Hb Hlo Hhi. unfold sized. rewrite sub_spec.
  apply SFsub_within; try assumption;
    [apply (within_weaken a) | apply (within_weaken b)]; assumption.
Qed.

Lemma mul_sized (a b : Z) (x y : float) :
  sized a x -> sized b y -> (-1074 <= a + b <= 1023)%Z -> sized (a + b) (x * y).
Proof.
  intros Hx Hy Hab. unfold sized. rewrite mul_spec.
  apply SFmul_within; auto using Prim2SF_valid.
Qed.

Lemma abs_sized (n : Z) (x : float) : sized n x -> sized n (abs x).
Proof. unfold sized. rewrite abs_spec. apply SFabs_within. Qed.

Lemma abs_nonneg (x : float) : is_nan x = false -> nonneg (abs x).
Proof. rewrite is_nan_spec. unfold nonneg. rewrite abs_spec. apply SFabs_NN. Qed.

Lemma mul_nonneg_sized (a b : Z) (x y : float) :
  nonneg x -> nonneg y -> sized a x -> sized b y -> nonneg (x * y).
Proof. unfold nonneg, sized. rewrite mul_spec. apply SFmul_NN_within. Qed.

Lemma is_finite_not_nan (x : float) : is_finite x = true -> is_nan x = false.
Proof. unfold is_finite. destruct (is_nan x); [discriminate|reflexivity]. Qed.

(** What [Math.random] returns. *)
Lemma unit_interval_spec (r : float) :
  Mock.in_unit_interval r = true -> nonneg r /\ sized 0 r.
Proof.
  unfold Mock.in_unit_interval. intros H.
  apply andb_prop in H. destruct H as [H Hz].
  apply andb_prop in H. destruct H as [H0 H1].
  assert (Hnn : nonneg r).
  { unfold nonneg. rewrite leb_spec, SFleb_SFle in H0.
    change (Prim2SF 0) with (S754_zero false) in H0.
    destruct (Prim2SF r) as [s|s| |s m e] eqn:E; cbn [SFle NN] in *; try tauto.
    - destruct s; [|exact I].
      assert (r = neg_zero) by (apply Prim2SF_inj; exact E).
      subst r. discriminate Hz.
    - destruct s; [discriminate H0|exact I].
    - destruct s; [discriminate H0|exact I]. }
  split; [exact Hnn|].
  rewrite ltb_spec in H1. apply below_one_within; auto using Prim2SF_valid.
Qed.

(** ** [Math.max] and [Math.min] of two finite numbers *)

Lemma neg_infinity_ltb_finite (x : float) : is_finite x = true -> (neg_infinity <? x) = true.
Proof.
  rewrite is_finite_spec, ltb_spec. change (Prim2SF neg_infinity) with (S754_infinity true).
  destruct (Prim2SF x) as [s|[|]| |s m e]; cbn; try discriminate; reflexivity.
Qed.

Lemma ltb_infinity_finite (x : float) : is_finite x = true -> (x <? infinity) = true.
Proof.
  rewrite is_finite_spec, ltb_spec. change (Prim2SF infinity) with (S754_infinity false).
  destruct (Prim2SF x) as [s|[|]| |s m e]; cbn; try discriminate; reflexivity.
Qed.

Lemma Math_max_of_two (a b : float) :
  is_finite a = true -> is_finite b = true ->
  Math_max [a; b] = a \/ Math_max [a; b] = b \/ Math_max [a; b] = zero.
Proof.
  intros Ha Hb. unfold Math_max. cbn [max_from].
  rewrite (is_finite_not_nan a Ha), (is_finite_not_nan b Hb).
  change (is_neg_zero neg_infinity) with false. rewrite andb_false_r.
  rewrite (neg_infinity_ltb_finite a Ha).
  destruct (is_pos_zero b && is_neg_zero a).
  - destruct (zero <? b); auto.
  - destruct (a <? b); auto.
Qed.

Lemma Math_min_of_two (a b : float) :
  is_finite a = true -> is_finite b = true ->
  Math_min [a; b] = a \/ Math_min [a; b] = b \/ Math_min [a; b] = neg_zero.
Proof.
  intros Ha Hb. unfold Math_min. cbn [min_from].
  rewrite (is_finite_not_nan a Ha), (is_finite_not_nan b Hb).
  change (is_pos_zero infinity) with false. rewrite andb_false_r.
  rewrite (ltb_infinity_finite a Ha).
  destruct (is_neg_zero b && is_pos_zero a).
  - destruct (b <? neg_zero); auto.
  - destruct (b <? a); auto.
Qed.

Lemma Math_max_sized (n : Z) (a b : float) :
  sized n a -> sized n b -> sized n (Math_max [a; b]).
Proof.
  intros Ha Hb.
  destruct (Math_max_of_two a b) as [->|[->| ->]]; eauto using sized_is_finite.
  exact I.
Qed.

Lemma Math_min_sized (n : Z) (a b : float) :
  sized n a -> sized n b -> sized n (Math_min [a; b]).
Proof.
  intros Ha Hb.
  destruct (Math_min_of_two a b) as [->|[->| ->]]; eauto using sized_is_finite.
  exact I.
Qed.

Lemma Math_max_above (a b : float) :
  is_finite a = true -> is_finite b = true ->
  (a <=? Math_max [a; b]) = true /\ (b <=? Math_max [a; b]) = true.
Proof.
  intros Ha Hb.
  destruct (max_from_above [a; b] neg_infinity) as [_ H].
  - reflexivity.
  - intros x [<-|[<-|[]]]; now apply is_finite_not_nan.
  - split; apply H; cbn; auto.
Qed.

Lemma Math_min_below (a b : float) :
  is_finite a = true -> is_finite b = true ->
  (Math_min [a; b] <=? a) = true /\ (Math_min [a; b] <=? b) = true.
Proof.
  intros Ha Hb.
  destruct (min_from_below [a; b] infinity) as [_ H].
  - reflexivity.
  - intros x [<-|[<-|[]]]; now apply is_finite_not_nan.
  - split; apply H; cbn; auto.
Qed.

(** ** One mock candle *)

Lemma basePrice_sized (symbol : string) : sized 16 (Mock.basePrice symbol).
Proof.
  unfold Mock.basePrice.
  destruct (Mock.includes symbol "BTC"); [|destruct (Mock.includes symbol "ETH")];
    unfold sized; vm_compute; split; discriminate.
Qed.

Lemma candle_formulas (basePrice r1 r2 r3 r4 : float) :
  sized 16 basePrice ->
  Mock.in_unit_interval r1 = true -> Mock.in_unit_interval r2 = true ->
  Mock.in_unit_interval r3 = true -> Mock.in_unit_interval r4 = true ->
  let open := basePrice + (r1 - 0.5) * basePrice * 0.02 in
  let close := open + (r2 - 0.5) * open * 0.01 in
  let high := Math_max [open; close] + r3 * Math_abs (open - close) in
  let low := Math_min [open; close] - r4 * Math_abs (open - close) in
  (sized 18 open /\ sized 20 close /\ sized 22 high /\ sized 22 low) /\
  (low <=? open) = true /\ (low <=? close) = true /\
  (open <=? high) = true /\ (close <=? high) = true.
Proof.
  intros Hbase H1 H2 H3 H4 open close high low.
  destruct (unit_interval_spec r1 H1) as [_ S1].
  destruct (unit_interval_spec r2 H2) as [_ S2].
  destruct (unit_interval_spec r3 H3) as [N3 S3].
  destruct (unit_interval_spec r4 H4) as [N4 S4].
  assert (Shalf : sized 0 0.5) by (unfold sized; vm_compute; split; discriminate).
  assert (S002 : sized 0 0.02) by (unfold sized; vm_compute; split; discriminate).
  assert (S001 : sized 0 0.01) by (unfold sized; vm_compute; split; discriminate).
  assert (Sopen : sized 18 open).
  { unfold open. apply (add_sized 16 17 17); try lia; [exact Hbase|].
    apply (mul_sized 17 0); [|exact S002|lia].
    apply (mul_sized 1 16); [|exact Hbase|lia].
    apply (sub_sized 0 0 0); try lia; assumption. }
  assert (Sclose : sized 20 close).
  { unfold close. apply (add_sized 18 19 19); try lia; [exact Sopen|].
    apply (mul_sized 19 0); [|exact S001|lia].
    apply (mul_sized 1 18); [|exact Sopen|lia].
    apply (sub_sized 0 0 0); try lia; assumption. }
  pose proof (sized_is_finite _ _ Sopen) as Fopen.
  pose proof (sized_is_finite _ _ Sclose) as Fclose.
  assert (Sdiff : sized 21 (open - close)) by (apply (sub_sized 18 20 20); try lia; assumption).
  assert (Sabs : sized 21 (Math_abs (open - close))) by now apply abs_sized.
  assert (Nabs : nonneg (Math_abs (open - close))).
  { apply abs_nonneg. now apply is_finite_not_nan, (sized_is_finite 21). }
  assert (Sup : sized 21 (r3 * Math_abs (open - close))) by (apply (mul_sized 0 21); try lia; assumption).
  assert (Sdown : sized 21 (r4 * Math_abs (open - close))) by (apply (mul_sized 0 21); try lia; assumption).
  assert (Nup : nonneg (r3 * Math_abs (open - close))) by (apply (mul_nonneg_sized 0 21); assumption).
  assert (Ndown : nonneg (r4 * Math_abs (open - close))) by (apply (mul_nonneg_sized 0 21); assumption).
  assert (Smax : sized 20 (Math_max [open; close])).
  { apply Math_max_sized; [|exact Sclose]. apply (sized_weaken 18); [lia|exact Sopen]. }
  assert (Smin : sized 20 (Math_min [open; close])).
  { apply Math_min_sized; [|exact Sclose]. apply (sized_weaken 18); [lia|exact Sopen]. }
  destruct (Math_max_above open close Fopen Fclose) as [Mo Mc].
  destruct (Math_min_below open close Fopen Fclose) as [mo mc].
  destruct (add_sub_order (Math_max [open; close]) (r3 * Math_abs (open - close))
              (sized_is_finite _ _ Smax) Nup) as [Hhigh _].
  destruct (add_sub_order (Math_min [open; close]) (r4 * Math_abs (open - close))
              (sized_is_finite _ _ Smin) Ndown) as [_ Hlow].
  fold high in Hhigh. fold low in Hlow.
  repeat apply conj.
  - exact Sopen.
  - exact Sclose.
  - unfold high. apply (add_sized 20 21 21); try lia; assumption.
  - unfold low. apply (sub_sized 20 21 21); try lia; assumption.
  - apply leb_trans with (Math_min [open; close]); assumption.
  - apply leb_trans with (Math_min [open; close]); assumption.
  - apply leb_trans with (Math_max [open; close]); assumption.
  - apply leb_trans with (Math_max [open; close]); assumption.
Qed.

Lemma candle_spec (env : Mock.Env) (basePrice : float) (i : nat) (calls : Mock.Calls) :
  sized 16 basePrice ->
  (forall k, Mock.in_unit_interval (Mock.random env k) = true) ->
  Mock.well_formed (fst (Mock.candle env basePrice i calls)) = true.
Proof.
  intros Hbase Hrandom.
  destruct (candle_formulas basePrice
              (Mock.random env (Mock.randoms calls))
              (Mock.random env (S (Mock.randoms calls)))
              (Mock.random env (S (S (Mock.randoms calls))))
              (Mock.random env (S (S (S (Mock.randoms calls)))))
              Hbase (Hrandom _) (Hrandom _) (Hrandom _) (Hrandom _))
    as ((So & Sc & Sh & Sl) & H1 & H2 & H3 & H4).
  cbv zeta in *.
  unfold Mock.well_formed, Mock.candle, Mock.Gen_bind, Mock.Math_random, Mock.Date_now,
    Mock.Gen_ret.
  cbn [fst snd Mock.randoms Mock.clocks open close high low].
  rewrite (sized_is_finite _ _ So), (sized_is_finite _ _ Sc),
    (sized_is_finite _ _ Sh), (sized_is_finite _ _ Sl), H1, H2, H3, H4.
  reflexivity.
Qed.

Lemma candle_calls (env : Mock.Env) (basePrice : float) (i : nat) (calls : Mock.Calls) :
  snd (Mock.candle env basePrice i calls) =
  Mock.mkCalls (Mock.randoms calls + 5) (Mock.clocks calls + 1).
Proof.
  unfold Mock.candle, Mock.Gen_bind, Mock.Math_random, Mock.Date_now, Mock.Gen_ret.
  cbn [fst snd Mock.randoms Mock.clocks]. f_equal; lia.
Qed.

End MockNumbers.

(** The base price goes by the first of 'BTC' and 'ETH' the symbol holds, in
    this order and in upper case only. *)
Example basePrice_by_symbol :
  Mock.basePrice "BTC/USDT" = 45000 /\ Mock.basePrice "ETH/USDT" = 2800 /\
  Mock.basePrice "SOL/USDT" = 1 /\ Mock.basePrice "ETHBTC" = 45000 /\
  Mock.basePrice "btc/usdt" = 1.
Proof. repeat apply conj; reflexivity. Qed.

(** The oldest candle of the feed on the example draws 0.25, 0.75, 0.25, ... *)
Example oldest_mock_candle :
  option_map (fun m => hd_error (candlesticks m))
    (fst (Mock.getMockMarketData example_env "BTC/USDT" (Mock.mkCalls 0 0))) =
  Some (Some (mkCandle 1699643600000 44775 44914.921875 44691.046875 44886.9375 250000)).
Proof. vm_compute. reflexivity. Qed.

(** ** The loop of the mock feed *)

Lemma loop_invariant {S : Type} (body : S -> nat -> Mock.Gen S)
  (Inv : nat -> S -> Mock.Calls -> Prop) (indices : list nat) :
  (forall k i s calls, Inv k s calls ->
     Inv (Datatypes.S k) (fst (body s i calls)) (snd (body s i calls))) ->
  forall k s calls, Inv k s calls ->
  Inv (k + length indices)%nat (fst (Mock.loop body indices s calls))
      (snd (Mock.loop body indices s calls)).
Proof.
  intros Hbody. induction indices as [|i rest IH]; intros k s calls H; cbn [Mock.loop length].
  - rewrite Nat.add_0_r. exact H.
  - unfold Mock.Gen_bind. specialize (Hbody k i s calls H).
    destruct (body s i calls) as [s' calls']. cbn [fst snd] in Hbody.
    replace (k + Datatypes.S (length rest))%nat with (Datatypes.S k + length rest)%nat by lia.
    now apply IH.
Qed.

Section MockFeed.
Import Binary64.

Variables (env : Mock.Env) (pair : string) (calls : Mock.Calls).

Let push_candle (candlesticks : list CandlestickData) (i : nat)
  : Mock.Gen (list CandlestickData) :=
  Mock.Gen_bind (Mock.candle env (Mock.basePrice pair) i)
    (fun c => Mock.Gen_ret (candlesticks ++ [c])).

Lemma push_candle_spec (candlesticks : list CandlestickData) (i : nat) (c : Mock.Calls) :
  fst (push_candle candlesticks i c) =
    candlesticks ++ [fst (Mock.candle env (Mock.basePrice pair) i c)] /\
  snd (push_candle candlesticks i c) = Mock.mkCalls (Mock.randoms c + 5) (Mock.clocks c + 1).
Proof.
  unfold push_candle, Mock.Gen_bind, Mock.Gen_ret.
  pose proof (candle_calls env (Mock.basePrice pair) i c) as Hc.
  destruct (Mock.candle env (Mock.basePrice pair) i c) as [x c']. cbn [fst snd] in *.
  now subst c'.
Qed.

(** The candles of the feed: 100 of them, after 500 draws and 100 readings of
    the clock; each of them well formed when the draws are in [0, 1). *)
Lemma mock_loop :
  let r := Mock.loop push_candle (rev (seq 0 100)) [] calls in
  length (fst r) = 100%nat /\
  snd r = Mock.mkCalls (Mock.randoms calls + 500) (Mock.clocks calls + 100) /\
  ((forall k, Mock.in_unit_interval (Mock.random env k) = true) ->
   forallb Mock.well_formed (fst r) = true).
Proof.
  pose proof (loop_invariant push_candle
    (fun k candlesticks c =>
       length candlesticks = k /\
       c = Mock.mkCalls (Mock.randoms calls + 5 * k) (Mock.clocks calls + k) /\
       ((forall k, Mock.in_unit_interval (Mock.random env k) = true) ->
        forallb Mock.well_formed candlesticks = true))
    (rev (seq 0 100))) as H.
  specialize (H ltac:(
    intros k i s c (Hlen & Hc & Hwf);
    destruct (push_candle_spec s i c) as [-> ->];
    repeat apply conj;
    [ rewrite length_app; cbn [length]; lia
    | subst c; cbn [Mock.randoms Mock.clocks]; f_equal; lia
    | intros Hrandom; rewrite forallb_app, (Hwf Hrandom); cbn [forallb andb];
      rewrite (candle_spec env _ i c (basePrice_sized pair) Hrandom); reflexivity ])).
  specialize (H 0%nat [] calls).
  rewrite length_rev, length_seq in H. cbn [Nat.add] in H.
  intros r. subst r. destruct H as (H1 & H2 & H3).
  - repeat apply conj; [reflexivity | destruct calls; cbn; f_equal; lia | reflexivity].
  - repeat apply conj; [exact H1 | rewrite H2; f_equal; lia | exact H3].
Qed.

(** What [getMockMarketData] returns. *)
Lemma getMockMarketData_shape :
  exists candles newest,
    length candles = 100%nat /\ nth_error candles 99 = Some newest /\
    ((forall k, Mock.in_unit_interval (Mock.random env k) = true) ->
     forallb Mock.well_formed candles = true) /\
    Mock.getMockMarketData env pair calls =
    (Some (mkMarketData pair (close newest)
             ((Mock.random env (Mock.randoms calls + 500) - 0.5) * 10)
             (Mock.random env (Mock.randoms calls + 501) * 50000000)
             (Math_max (map high candles)) (Math_min (map low candles)) candles),
     Mock.mkCalls (Mock.randoms calls + 502) (Mock.clocks calls + 100)).
Proof.
  destruct mock_loop as (Hlen & Hcalls & Hwf).
  unfold Mock.getMockMarketData. cbv zeta.
  match goal with |- context [Mock.loop ?b _ _] => change b with push_candle end.
  unfold Mock.Gen_bind at 1.
  destruct (Mock.loop push_candle (rev (seq 0 100)) [] calls) as [candles calls'].
  cbn [fst snd] in Hlen, Hcalls, Hwf. subst calls'.
  destruct (nth_error candles 99) as [newest|] eqn:E;
    [|apply nth_error_None in E; lia].
  exists candles, newest. repeat apply conj; try assumption.
  rewrite Hlen. change (100 - 1)%nat with 99%nat. rewrite E.
  unfold Mock.Gen_bind, Mock.Math_random, Mock.Gen_ret. cbn [Mock.randoms Mock.clocks].
  repeat f_equal; lia.
Qed.

(** The mock feed never fails: it returns 100 candles under the symbol it was
    asked for, priced at the close of the newest candle, after 502 draws and
    100 readings of the clock. *)
Theorem getMockMarketData_returns :
  exists m,
    Mock.getMockMarketData env pair calls =
      (Some m, Mock.mkCalls (Mock.randoms calls + 502) (Mock.clocks calls + 100)) /\
    symbol m = pair /\
    length (candlesticks m) = 100%nat /\
    option_map close (nth_error (candlesticks m) 99) = Some (price m).
Proof.
  destruct getMockMarketData_shape as (candles & newest & Hlen & Hnewest & _ & ->).
  eexists. split; [reflexivity|]. cbn [symbol candlesticks price].
  rewrite Hnewest. auto.
Qed.

Hypothesis random_in_unit_interval :
  forall k, Mock.in_unit_interval (Mock.random env k) = true.

(** Every mock candle is well formed: its four prices are finite, the low is
    at most the open and the close, and the high is at least both. *)
Theorem mock_candles_are_well_formed :
  exists m calls',
    Mock.getMockMarketData env pair calls = (Some m, calls') /\
    forallb Mock.well_formed (candlesticks m) = true.
Proof.
  destruct getMockMarketData_shape as (candles & newest & Hlen & Hnewest & Hwf & ->).
  do 2 eexists. split; [reflexivity|]. cbn [candlesticks]. now apply Hwf.
Qed.

Lemma well_formed_spec (c : CandlestickData) :
  Mock.well_formed c = true ->
  (is_nan (low c) = false /\ is_nan (high c) = false) /\
  (low c <=? close c) = true /\ (close c <=? high c) = true.
Proof.
  unfold Mock.well_formed. intros H.
  repeat (apply andb_prop in H; destruct H as [H ?]).
  repeat apply conj; try assumption; now apply is_finite_not_nan.
Qed.

Lemma all_well_formed (candles : list CandlestickData) :
  forallb Mock.well_formed candles = true ->
  (forall x, In x (map low candles) -> is_nan x = false) /\
  (forall x, In x (map high candles) -> is_nan x = false).
Proof.
  intros H. rewrite forallb_forall in H.
  split; intros x Hx; apply in_map_iff in Hx; destruct Hx as (c & <- & Hc);
    now apply (well_formed_spec c (H c Hc)).
Qed.

(** The mock price lies in the day's range of the mock ticker. *)
Theorem mock_price_within_day_range :
  exists m calls',
    Mock.getMockMarketData env pair calls = (Some m, calls') /\
    (low24h m <=? price m) = true /\ (price m <=? high24h m) = true.
Proof.
  destruct getMockMarketData_shape as (candles & newest & Hlen & Hnewest & Hwf & ->).
  specialize (Hwf random_in_unit_interval).
  do 2 eexists. split; [reflexivity|]. cbn [low24h high24h price].
  destruct (all_well_formed candles Hwf) as [Hlows Hhighs].
  apply nth_error_In in Hnewest.
  rewrite forallb_forall in Hwf.
  destruct (well_formed_spec newest (Hwf newest Hnewest)) as (_ & Hlc & Hch).
  destruct (min_from_below (map low candles) infinity eq_refl Hlows) as [_ Hmin].
  destruct (max_from_above (map high candles) neg_infinity eq_refl Hhighs) as [_ Hmax].
  split.
  - apply leb_trans with (low newest); [|exact Hlc]. apply Hmin. now apply in_map.
  - apply leb_trans with (high newest); [exact Hch|]. apply Hmax. now apply in_map.
Qed.

Lemma mock_feed_levels :
  exists m calls',
    Mock.getMockMarketData env pair calls = (Some m, calls') /\
    let indicators := result (calculateTechnicalIndicators (candlesticks m)) in
    (support indicators <=? price m) = true /\
    (price m <=? resistance indicators) = true.
Proof.
  destruct getMockMarketData_shape as (candles & newest & Hlen & Hnewest & Hwf & ->).
  specialize (Hwf random_in_unit_interval).
  do 2 eexists. split; [reflexivity|]. cbn [candlesticks price]. cbv zeta.
  change (support (result (calculateTechnicalIndicators candles)))
    with (Math_min (slice_from (-20) (map low candles))).
  change (resistance (result (calculateTechnicalIndicators candles)))
    with (Math_max (slice_from (-20) (map high candles))).
  rewrite !last_20_candles, Hlen. change (100 - 20)%nat with 80%nat.
  assert (Hin : In newest (skipn 80 candles)).
  { apply (nth_error_In _ 19). rewrite nth_error_skipn. exact Hnewest. }
  assert (Hwf' : forallb Mock.well_formed (skipn 80 candles) = true).
  { rewrite forallb_forall in *. intros c Hc. apply Hwf.
    rewrite <- (firstn_skipn 80 candles). apply in_or_app. now right. }
  destruct (all_well_formed _ Hwf') as [Hlows Hhighs].
  rewrite forallb_forall in Hwf'.
  destruct (well_formed_spec newest (Hwf' newest Hin)) as (_ & Hlc & Hch).
  destruct (min_from_below (map low (skipn 80 candles)) infinity eq_refl Hlows) as [_ Hmin].
  destruct (max_from_above (map high (skipn 80 candles)) neg_infinity eq_refl Hhighs)
    as [_ Hmax].
  split.
  - apply leb_trans with (low newest); [|exact Hlc]. apply Hmin. now apply in_map.
  - apply leb_trans with (high newest); [exact Hch|]. apply Hmax. now apply in_map.
Qed.

(** On the mock feed the indicator engine reads inside its arrays, and the
    price it is given lies between the support and the resistance. *)
Theorem mock_price_between_support_and_resistance :
  exists m calls',
    Mock.getMockMarketData env pair calls = (Some m, calls') /\
    let indicators := calculateTechnicalIndicators (candlesticks m) in
    in_bounds indicators = true /\
    (support (result indicators) <=? price m) = true /\
    (price m <=? resistance (result indicators)) = true.
Proof.
  destruct mock_feed_levels as (m & calls' & Hm & Hsup & Hres).
  exists m, calls'. split; [exact Hm|]. cbv zeta.
  repeat apply conj; try assumption.
  destruct getMockMarketData_shape as (candles & newest & Hlen & _ & _ & Heq).
  rewrite Heq in Hm. injection Hm as <- _. cbn [candlesticks].
  assert (Hne : map close candles <> []).
  { apply map_nonempty. destruct candles; [discriminate Hlen | discriminate]. }
  unfold calculateTechnicalIndicators.
  apply in_bounds_bind_true; [now apply calculateRSI_in_bounds|]. intros rsi0.
  apply in_bounds_bind_true; [now apply calculateSMA_defined|]. intros s20.
  apply in_bounds_bind_true; [now apply calculateSMA_defined|]. intros s50.
  apply in_bounds_bind_true; [now apply calculateEMA_defined|]. intros e20.
  apply in_bounds_bind_true; [now apply calculateMACD_in_bounds|]. intros m.
  apply in_bounds_bind_true; [now apply calculateBollingerBands_defined|].
  reflexivity.
Qed.

(** What an analysis answers when it runs on the mock feed: the range setup,
    entered at the mock price, with the first target at or below the entry
    and the stop at or above it. *)
Theorem mock_setup_brackets_the_entry :
  exists m calls',
    Mock.getMockMarketData env pair calls = (Some m, calls') /\
    let s := performTechnicalAnalysis m
               (result (calculateTechnicalIndicators (candlesticks m))) in
    trend s = sideways /\ confidence s = 45 /\ entry s = price m /\
    (takeProfit1 s <=? entry s) = true /\ (entry s <=? stopLoss s) = true.
Proof.
  destruct mock_feed_levels as (m & calls' & Hm & Hsup & Hres).
  exists m, calls'. split; [exact Hm|]. intros s.
  assert (Hside : trend s = sideways).
  { apply sideways_when_signal_is_macd.
    rewrite macd_of_indicators. apply calculateMACD_signal. }
  destruct (sideways_levels m _ Hside) as (He & Hstop & Htp & _ & Hconf).
  fold s in He, Hstop, Htp, Hconf.
  rewrite He, Hstop, Htp. auto.
Qed.

End MockFeed.

Lemma mock_candles_are_well_formed_witness :
  exists m calls',
    Mock.getMockMarketData example_env "BTC/USDT" (Mock.mkCalls 0 0) = (Some m, calls') /\
    forallb Mock.well_formed (candlesticks m) = true.
Proof.
  apply (mock_candles_are_well_formed example_env "BTC/USDT" (Mock.mkCalls 0 0)).
  intros k. unfold example_env. cbn [Mock.random]. destruct (Nat.even k); reflexivity.
Defined.

Lemma mock_price_within_day_range_witness :
  exists m calls',
    Mock.getMockMarketData example_env "ETH/USDT" (Mock.mkCalls 0 0) = (Some m, calls') /\
    (low24h m <=? price m) = true /\ (price m <=? high24h m) = true.
Proof.
  apply (mock_price_within_day_range example_env "ETH/USDT" (Mock.mkCalls 0 0)).
  intros k. unfold example_env. cbn [Mock.random]. destruct (Nat.even k); reflexivity.
Defined.

Lemma mock_setup_brackets_the_entry_witness :
  exists m calls',
    Mock.getMockMarketData example_env "DOGE/USDT" (Mock.mkCalls 0 0) = (Some m, calls') /\
    let s := performTechnicalAnalysis m
               (result (calculateTechnicalIndicators (candlesticks m))) in
    trend s = sideways /\ confidence s = 45 /\ entry s = price m /\
    (takeProfit1 s <=? entry s) = true /\ (entry s <=? stopLoss s) = true.
Proof.
  apply (mock_setup_brackets_the_entry example_env "DOGE/USDT" (Mock.mkCalls 0 0)).
  intros k. unfold example_env. cbn [Mock.random]. destruct (Nat.even k); reflexivity.
Defined.

Lemma mock_price_between_support_and_resistance_witness :
  exists m calls',
    Mock.getMockMarketData example_env "SOL/USDT" (Mock.mkCalls 0 0) = (Some m, calls') /\
    let indicators := calculateTechnicalIndicators (candlesticks m) in
    in_bounds indicators = true /\
    (support (result indicators) <=? price m) = true /\
    (price m <=? resistance (result indicators)) = true.
Proof.
  apply (mock_price_between_support_and_resistance example_env "SOL/USDT" (Mock.mkCalls 0 0)).
  intros k. unfold example_env. cbn [Mock.random]. destruct (Nat.even k); reflexivity.
Defined.

(** * Further properties of the setup generator *)

(** ** The clamp of calculateConfidence *)

(** [Math.min(95, Math.max(25, total))] written out. *)
Lemma calculateConfidence_unfold (scores : list float) :
  let total := reduce (fun sum score => sum + score) 0 scores in
  calculateConfidence scores =
  if is_nan total then nan
  else let raised := if 25 <? total then total else 25 in
       if raised <? 95 then raised else 95.
Proof.
  intros total. unfold calculateConfidence. fold total.
  unfold Math_min, Math_max. cbn -[is_nan PrimFloat.ltb].
  change (is_nan 25) with false. change (is_nan 95) with false.
  change (is_pos_zero 25) with false. change (is_pos_zero 95) with false.
  change (is_neg_zero 25) with false.
  change (neg_infinity <? 25) with true. change (95 <? infinity) with true.
  cbn -[is_nan PrimFloat.ltb].
  destruct (is_nan total) eqn:Ht; [reflexivity|].
  rewrite !andb_false_r.
  assert (Hraised : is_nan (if 25 <? total then total else 25) = false)
    by (destruct (25 <? total); [exact Ht | reflexivity]).
  rewrite Hraised. reflexivity.
Qed.

(** For any list of scores whatever, the confidence is NaN when the total is
    NaN and within [25, 95] otherwise. *)
Theorem calculateConfidence_clamps (scores : list float) :
  let total := reduce (fun sum score => sum + score) 0 scores in
  let c := calculateConfidence scores in
  if is_nan total then c = nan
  else (25 <=? c) = true /\ (c <=? 95) = true.
Proof.
  intros total c. unfold c. rewrite calculateConfidence_unfold. fold total.
  destruct (is_nan total) eqn:Ht; [reflexivity|].
  cbv zeta.
  destruct (25 <? total) eqn:Hlow.
  - destruct (total <? 95) eqn:Hhigh.
    + split; now apply Binary64.ltb_leb.
    + split; reflexivity.
  - change (25 <? 95) with true. cbv iota. split; reflexivity.
Qed.

Example calculateConfidence_of_nan : calculateConfidence [20; nan; 15] = nan.
Proof. reflexivity. Qed.

Example calculateConfidence_of_wild_scores :
  calculateConfidence [1000; 2000] = 95 /\ calculateConfidence [-50] = 25 /\
  calculateConfidence [] = 25.
Proof. repeat apply conj; reflexivity. Qed.

(** ** The values the confidence takes *)

(** A bullish or bearish setup has passed the three tests of its trend, which
    are also worth 25 + 20 + 15 points: its confidence is 60, 80 or 95 (the
    clamp of 100), never lower, and the lower clamp 25 is never reached; a
    sideways setup has 45. *)
Theorem confidence_values (marketData : MarketData) (indicators : TechnicalIndicators) :
  let s := performTechnicalAnalysis marketData indicators in
  match trend s with
  | sideways => confidence s = 45
  | _ => confidence s = 60 \/ confidence s = 80 \/ confidence s = 95
  end.
Proof.
  intros s. unfold s, performTechnicalAnalysis.
  match goal with
  | |- context [if ?c then bullish else _] => destruct c eqn:Hbull
  end;
  [ | match goal with
      | |- context [if ?c then bearish else _] => destruct c eqn:Hbear
      end ].
  - apply andb_prop in Hbull. destruct Hbull as [Hbull H3].
    apply andb_prop in Hbull. destruct Hbull as [H1 H2].
    cbn [trend confidence]. rewrite H1, H2, H3.
    destruct (lt (rsi indicators) 70);
      destruct (gt (price marketData) (ToNumber (middle (bollinger indicators))));
      vm_compute; auto.
  - apply andb_prop in Hbear. destruct Hbear as [Hbear H3].
    apply andb_prop in Hbear. destruct Hbear as [H1 H2].
    cbn [trend confidence]. rewrite H1, H2, H3.
    destruct (gt (rsi indicators) 30);
      destruct (lt (price marketData) (ToNumber (middle (bollinger indicators))));
      vm_compute; auto.
  - reflexivity.
Qed.

Example bearish_confidence_is_at_least_60 :
  let ind := mkIndicators 20 (Macd.mk 1 (Number 2) (-1)) (Number 100) (Number 110)
               (Number 100) (mkBollinger 110 (Number 90) 80) 85 120 in
  let s := performTechnicalAnalysis (market 95 []) ind in
  trend s = bearish /\ confidence s = 60.
Proof. split; reflexivity. Qed.

(** ** The sign of the risk/reward ratio *)

Module Quotients.

Import SF64 Rounding64.

Lemma SFdiv_of_abs (x y : spec_float) :
  let r := SFdiv prec emax (SFabs x) (SFabs y) in
  SF_is_nan r = true \/ NN r.
Proof.
  destruct x as [sx|sx| |sx mx ex], y as [sy|sy| |sy my ey]; simpl; auto.
  right. apply (SFdiv_NN (S754_finite false mx ex) my ey). exact I.
Qed.

Lemma NN_above_zero (r : spec_float) : NN r -> SFle (S754_zero false) r.
Proof. destruct r as [[|]|[|]| |[|] m e]; simpl; tauto. Qed.

(** A quotient of two absolute values is NaN or at least 0. *)
Lemma div_of_abs (x y : float) :
  is_nan (abs x / abs y) = true \/ (0 <=? abs x / abs y) = true.
Proof.
  rewrite Binary64.is_nan_spec, leb_spec, SFleb_SFle, div_spec, !abs_spec.
  change (Prim2SF 0) with (S754_zero false).
  destruct (SFdiv_of_abs (Prim2SF x) (Prim2SF y)) as [H|H]; [now left|right].
  now apply NN_above_zero.
Qed.

End Quotients.

(** The ratio of a setup is never negative: it is NaN (entry on the stop
    with the target on the entry, or a NaN level) or at least 0, [+Infinity]
    included. *)
Theorem riskReward_is_never_negative (marketData : MarketData)
  (indicators : TechnicalIndicators) :
  let s := performTechnicalAnalysis marketData indicators in
  is_nan (riskReward s) = true \/ (0 <=? riskReward s) = true.
Proof.
  intros s. unfold s. rewrite riskReward_formula. apply Quotients.div_of_abs.
Qed.

(** ** Directional levels and inputs that are not numbers *)

Section Levels.
Import SF64 Rounding64 Binary64.

Lemma ltb_not_nan (x y : float) : (x <? y) = true -> is_nan x = false /\ is_nan y = false.
Proof. intros H. apply leb_not_nan. now apply ltb_leb. Qed.

Lemma ltb_of_nan (x y : float) :
  is_nan x = true \/ is_nan y = true -> (x <? y) = false.
Proof.
  intros H. destruct (x <? y) eqn:E; [|reflexivity].
  destruct (ltb_not_nan x y E) as [Hx Hy]. destruct H; congruence.
Qed.

(** A number times a finite constant other than 0 is a number. *)
Lemma mul_constant_not_nan (x c : float) (s : bool) (m : positive) (e : Z) :
  Prim2SF c = S754_finite s m e -> is_nan x = false -> is_nan (x * c) = false.
Proof.
  rewrite !is_nan_spec, mul_spec. intros ->.
  destruct (Prim2SF x) as [sx|sx| |sx mx ex]; cbn [SFmul SF_is_nan]; try reflexivity;
    try discriminate.
  intros _. apply (has_sign_not_nan (xorb sx s)), binary_round_aux_sign. lia.
Qed.

(** In a directional setup the stop and the first target are capped by the
    price: a long is stopped at most 5% under it and takes profit at most 8%
    over it, a short is stopped at most 5% over it and takes profit at most
    8% under it, as long as the four levels they are taken from are numbers. *)
Theorem directional_levels_are_capped (marketData : MarketData)
  (indicators : TechnicalIndicators) :
  let s := performTechnicalAnalysis marketData indicators in
  let p := price marketData in
  is_nan (support indicators) = false -> is_nan (resistance indicators) = false ->
  is_nan (lower (bollinger indicators)) = false ->
  is_nan (upper (bollinger indicators)) = false ->
  match trend s with
  | bullish => (p * 0.95 <=? stopLoss s) = true /\ (takeProfit1 s <=? p * 1.08) = true
  | bearish => (stopLoss s <=? p * 1.05) = true /\ (p * 0.92 <=? takeProfit1 s) = true
  | sideways => True
  end.
Proof.
  intros s p Hs Hr Hl Hu. unfold s, performTechnicalAnalysis. fold p.
  destruct (gt p (ToNumber (sma20 indicators)) && _ && _) eqn:Ebull.
  - apply andb_prop in Ebull. destruct Ebull as [Ebull _].
    apply andb_prop in Ebull. destruct Ebull as [Hp _].
    apply ltb_not_nan in Hp. destruct Hp as [_ Hp].
    cbn [trend stopLoss takeProfit1].
    destruct (max_from_above [support indicators; lower (bollinger indicators); p * 0.95]
                neg_infinity eq_refl) as [_ Hmax].
    { intros x [<-|[<-|[<-|[]]]]; auto.
      eapply mul_constant_not_nan; [reflexivity|exact Hp]. }
    destruct (min_from_below [resistance indicators; upper (bollinger indicators); p * 1.08]
                infinity eq_refl) as [_ Hmin].
    { intros x [<-|[<-|[<-|[]]]]; auto.
      eapply mul_constant_not_nan; [reflexivity|exact Hp]. }
    split; [apply Hmax | apply Hmin]; cbn; auto.
  - destruct (lt p (ToNumber (sma20 indicators)) && _ && _) eqn:Ebear; [|exact I].
    apply andb_prop in Ebear. destruct Ebear as [Ebear _].
    apply andb_prop in Ebear. destruct Ebear as [Hp _].
    apply ltb_not_nan in Hp. destruct Hp as [Hp _].
    cbn [trend stopLoss takeProfit1].
    destruct (max_from_above [support indicators; lower (bollinger indicators); p * 0.92]
                neg_infinity eq_refl) as [_ Hmax].
    { intros x [<-|[<-|[<-|[]]]]; auto.
      eapply mul_constant_not_nan; [reflexivity|exact Hp]. }
    destruct (min_from_below [resistance indicators; upper (bollinger indicators); p * 1.05]
                infinity eq_refl) as [_ Hmin].
    { intros x [<-|[<-|[<-|[]]]]; auto.
      eapply mul_constant_not_nan; [reflexivity|exact Hp]. }
    split; [apply Hmin | apply Hmax]; cbn; auto.
Qed.

Lemma directional_levels_are_capped_witness :
  let long := performTechnicalAnalysis (market 108 []) bullish_example in
  let short := performTechnicalAnalysis (market 103 []) bearish_example in
  (trend long = bullish /\
   (108 * 0.95 <=? stopLoss long) = true /\ (takeProfit1 long <=? 108 * 1.08) = true) /\
  (trend short = bearish /\
   (stopLoss short <=? 103 * 1.05) = true /\ (103 * 0.92 <=? takeProfit1 short) = true).
Proof.
  intros long short.
  pose proof (directional_levels_are_capped (market 108 []) bullish_example
                eq_refl eq_refl eq_refl eq_refl) as Hlong.
  pose proof (directional_levels_are_capped (market 103 []) bearish_example
                eq_refl eq_refl eq_refl eq_refl) as Hshort.
  split; (split; [reflexivity|]); [exact Hlong | exact Hshort].
Defined.

(** A price, a moving average or a MACD value that is not a number fails
    every comparison: the setup is the range setup, entered at the price as
    it is, with confidence 45. *)
Theorem nan_inputs_give_sideways (marketData : MarketData) (indicators : TechnicalIndicators) :
  is_nan (price marketData) = true \/
  is_nan (ToNumber (sma20 indicators)) = true \/
  is_nan (ToNumber (sma50 indicators)) = true \/
  is_nan (Macd.macd (macd indicators)) = true \/
  is_nan (ToNumber (Macd.signal (macd indicators))) = true ->
  let s := performTechnicalAnalysis marketData indicators in
  trend s = sideways /\ confidence s = 45 /\ entry s = price marketData.
Proof.
  intros H s.
  assert (Hbull : gt (price marketData) (ToNumber (sma20 indicators))
                  && gt (ToNumber (sma20 indicators)) (ToNumber (sma50 indicators))
                  && gt (Macd.macd (macd indicators))
                       (ToNumber (Macd.signal (macd indicators))) = false).
  { unfold gt. destruct H as [H|[H|[H|[H|H]]]];
      first [ rewrite (ltb_of_nan _ _ (or_introl H)) | rewrite (ltb_of_nan _ _ (or_intror H)) ];
      rewrite ?andb_false_r; reflexivity. }
  assert (Hbear : lt (price marketData) (ToNumber (sma20 indicators))
                  && lt (ToNumber (sma20 indicators)) (ToNumber (sma50 indicators))
                  && lt (Macd.macd (macd indicators))
                       (ToNumber (Macd.signal (macd indicators))) = false).
  { unfold lt. destruct H as [H|[H|[H|[H|H]]]];
      first [ rewrite (ltb_of_nan _ _ (or_introl H)) | rewrite (ltb_of_nan _ _ (or_intror H)) ];
      rewrite ?andb_false_r; reflexivity. }
  unfold s, performTechnicalAnalysis. rewrite Hbull, Hbear.
  repeat apply conj; reflexivity.
Qed.

Lemma nan_inputs_give_sideways_witness :
  let s := performTechnicalAnalysis (market 100 [])
             (result (calculateTechnicalIndicators [])) in
  trend s = sideways /\ confidence s = 45 /\ entry s = 100.
Proof.
  apply (nan_inputs_give_sideways (market 100 []) (result (calculateTechnicalIndicators []))).
  right. left. reflexivity.
Defined.

End Levels.

(** * The quota gate of analyzeChart *)

Section QuotaGate.

Import Orchestration.

Variable w : World.
Variable userId : string.
Variable kind : AnalysisType.
Variable symbol : string.
Variable imageFile : option File.

Local Abbreviation run := (analyzeChart w userId kind symbol imageFile []).

(** The paths through [analyzeChart], one per answer of the collaborators. *)
Lemma analyzeChart_paths :
  run =
  match list_users w userId with
  | Rejected =>
      (Resolved (failure "Analysis failed. Please try again."), [users_list userId])
  | Resolved None | Resolved (Some []) =>
      (Resolved (failure "User not found"), [users_list userId])
  | Resolved (Some (userData :: _)) =>
      let used := ToNumber (analysesUsedToday userData) in
      let limit := ToNumber (dailyLimit userData) in
      if ge used limit
      then (Resolved (failure "Daily analysis limit reached"), [users_list userId])
      else
        match analysis_answer w kind symbol imageFile with
        | Rejected =>
            (Resolved (failure "Analysis failed. Please try again."),
             [users_list userId; analysis_call kind symbol imageFile])
        | Resolved setup =>
            match create_analysis w userId setup with
            | Rejected =>
                (Resolved (failure "Analysis failed. Please try again."),
                 [users_list userId; analysis_call kind symbol imageFile;
                  analyses_create userId setup])
            | Resolved _ =>
                match update_user w (id userData) (used + 1) with
                | Rejected =>
                    (Resolved (failure "Analysis failed. Please try again."),
                     [users_list userId; analysis_call kind symbol imageFile;
                      analyses_create userId setup;
                      users_update (id userData) (used + 1)])
                | Resolved _ =>
                    (Resolved (mkResult true (Some setup) None (limit - (used + 1))),
                     [users_list userId; analysis_call kind symbol imageFile;
                      analyses_create userId setup;
                      users_update (id userData) (used + 1)])
                end
            end
        end
  end.
Proof.
  unfold analyzeChart, try_catch, and_then, await, resolve, analysis_answer, analysis_call.
  cbn [app].
  destruct (list_users w userId) as [[[|userData rest]|]|]; try reflexivity.
  cbv zeta.
  destruct (ge (ToNumber (analysesUsedToday userData)) (ToNumber (dailyLimit userData)));
    [reflexivity|].
  destruct kind.
  - destruct (run_upload w symbol imageFile) as [setup|]; [|reflexivity]. cbn [app].
    destruct (create_analysis w userId setup); [|reflexivity]. cbn [app].
    destruct (update_user w _ _); reflexivity.
  - destruct (run_live w symbol) as [setup|]; [|reflexivity]. cbn [app].
    destruct (create_analysis w userId setup); [|reflexivity]. cbn [app].
    destruct (update_user w _ _); reflexivity.
Qed.

(** Whatever the collaborators answer, [analyzeChart] resolves: a rejection
    never escapes it.  A result that is not a success carries no setup and
    reports 0 remaining analyses, whatever the quota of the user is. *)
Theorem analyzeChart_always_resolves :
  exists r, fst (analyzeChart w userId kind symbol imageFile []) = Resolved r /\
            (success r = false -> tradeSetup r = None /\ quotaRemaining r = 0).
Proof.
  rewrite analyzeChart_paths.
  destruct (list_users w userId) as [[[|userData rest]|]|];
    try (eexists; split; [reflexivity | intros _; split; reflexivity]).
  cbv zeta. destruct (ge _ _);
    try (eexists; split; [reflexivity | intros _; split; reflexivity]).
  destruct (analysis_answer w kind symbol imageFile) as [setup|];
    try (eexists; split; [reflexivity | intros _; split; reflexivity]).
  destruct (create_analysis w userId setup);
    try (eexists; split; [reflexivity | intros _; split; reflexivity]).
  destruct (update_user w _ _);
    try (eexists; split; [reflexivity | intros _; split; reflexivity]).
  eexists; split; [reflexivity | cbn; discriminate].
Qed.

(** A user whose counter has reached the limit is refused before anything
    else happens: the only call made is the lookup of the user; no analysis
    runs and nothing is written. *)
Theorem analyzeChart_refuses_exhausted_quota (userData : UserRow) (others : list UserRow) :
  list_users w userId = Resolved (Some (userData :: others)) ->
  ge (ToNumber (analysesUsedToday userData)) (ToNumber (dailyLimit userData)) = true ->
  run = (Resolved (failure "Daily analysis limit reached"), [users_list userId]).
Proof.
  intros Huser Hquota. rewrite analyzeChart_paths, Huser. cbv zeta.
  rewrite Hquota. reflexivity.
Qed.

(** A success is exactly the straight path: the user was found with its
    counter below its limit, and the analysis, the insertion of its row and
    the update of the counter all resolved, in this order.  The counter is
    written as [used + 1] and the result reports [limit - (used + 1)]. *)
Theorem analyzeChart_success (r : AnalysisResult) :
  fst run = Resolved r -> success r = true ->
  exists userData others setup,
    list_users w userId = Resolved (Some (userData :: others)) /\
    ge (ToNumber (analysesUsedToday userData)) (ToNumber (dailyLimit userData)) = false /\
    analysis_answer w kind symbol imageFile = Resolved setup /\
    create_analysis w userId setup = Resolved tt /\
    update_user w (id userData) (ToNumber (analysesUsedToday userData) + 1) = Resolved tt /\
    r = mkResult true (Some setup) None
          (ToNumber (dailyLimit userData) - (ToNumber (analysesUsedToday userData) + 1)) /\
    snd run = [ users_list userId;
                analysis_call kind symbol imageFile;
                analyses_create userId setup;
                users_update (id userData) (ToNumber (analysesUsedToday userData) + 1) ].
Proof.
  rewrite analyzeChart_paths.
  destruct (list_users w userId) as [[[|userData rest]|]|];
    try (cbn; intros [= <-]; discriminate).
  cbv zeta. destruct (ge _ _) eqn:Hge; try (cbn; intros [= <-]; discriminate).
  destruct (analysis_answer w kind symbol imageFile) as [setup|] eqn:Hrun;
    try (cbn; intros [= <-]; discriminate).
  destruct (create_analysis w userId setup) as [[]|] eqn:Hcreate;
    try (cbn; intros [= <-]; discriminate).
  destruct (update_user w _ _) as [[]|] eqn:Hupdate;
    try (cbn; intros [= <-]; discriminate).
  cbn. intros [= <-] _. exists userData, rest, setup.
  repeat apply conj; reflexivity || assumption.
Qed.

(** The counter is only written after the row of the analysis was inserted:
    a logged update comes with the analysis that resolved and the insertion
    that resolved before it, so a user is never charged for an analysis that
    failed or could not be saved. *)
Theorem analyzeChart_charges_after_saving (rowId : string) (used : float) :
  In (users_update rowId used) (snd run) ->
  exists setup,
    analysis_answer w kind symbol imageFile = Resolved setup /\
    create_analysis w userId setup = Resolved tt /\
    In (analyses_create userId setup) (snd run).
Proof.
  rewrite analyzeChart_paths.
  assert (Hcall : forall s f, users_update rowId used <> analysis_call kind s f)
    by (intros s f; destruct kind; discriminate).
  destruct (list_users w userId) as [[[|userData rest]|]|];
    try (cbn; intros [H|[]]; discriminate H).
  cbv zeta. destruct (ge _ _); try (cbn; intros [H|[]]; discriminate H).
  destruct (analysis_answer w kind symbol imageFile) as [setup|] eqn:Hrun.
  2:{ cbn. intros [H|[H|[]]]; [discriminate H | symmetry in H; now apply Hcall in H]. }
  destruct (create_analysis w userId setup) as [[]|] eqn:Hcreate.
  2:{ cbn. intros [H|[H|[H|[]]]];
        [discriminate H | symmetry in H; now apply Hcall in H | discriminate H]. }
  intros _. exists setup. split; [reflexivity|]. split; [exact Hcreate|].
  destruct (update_user w (id userData) _); cbn; auto.
Qed.

(** A row without a [dailyLimit] (or with a NaN one) is never refused for
    its quota: [used >= undefined] is false, the analysis runs, and a
    success reports NaN remaining analyses. *)
Theorem analyzeChart_missing_limit_is_no_limit (userData : UserRow) (others : list UserRow)
  (setup : TradeSetup) :
  list_users w userId = Resolved (Some (userData :: others)) ->
  is_nan (ToNumber (dailyLimit userData)) = true ->
  analysis_answer w kind symbol imageFile = Resolved setup ->
  create_analysis w userId setup = Resolved tt ->
  update_user w (id userData) (ToNumber (analysesUsedToday userData) + 1) = Resolved tt ->
  exists remaining,
    fst run = Resolved (mkResult true (Some setup) None remaining) /\
    is_nan remaining = true.
Proof.
  intros Huser Hnan Hrun Hcreate Hupdate.
  assert (Hge : ge (ToNumber (analysesUsedToday userData)) (ToNumber (dailyLimit userData))
                = false).
  { unfold ge. destruct (_ <=? _) eqn:E; [|reflexivity].
    apply Binary64.leb_not_nan in E. destruct E as [E _]. congruence. }
  rewrite analyzeChart_paths, Huser. cbv zeta. rewrite Hge, Hrun, Hcreate, Hupdate.
  eexists. split; [reflexivity|].
  rewrite Binary64.is_nan_spec, sub_spec.
  rewrite Binary64.is_nan_spec in Hnan.
  destruct (Prim2SF (ToNumber (dailyLimit userData))); try discriminate Hnan.
  reflexivity.
Qed.

End QuotaGate.

Lemma analyzeChart_refuses_exhausted_quota_witness :
  Orchestration.analyzeChart (example_world (Number 3) (Number 3)) "user_1"
    Orchestration.live "BTC/USDT" None [] =
  (Orchestration.Resolved (Orchestration.failure "Daily analysis limit reached"),
   [Orchestration.users_list "user_1"]).
Proof.
  apply (analyzeChart_refuses_exhausted_quota (example_world (Number 3) (Number 3))
           "user_1" Orchestration.live "BTC/USDT" None
           (Orchestration.mkUserRow "row_1" (Number 3) (Number 3)) []);
    reflexivity.
Defined.

Lemma analyzeChart_success_witness :
  exists userData others setup,
    Orchestration.list_users (example_world (Number 1) (Number 3)) "user_1" =
      Orchestration.Resolved (Some (userData :: others)) /\
    Orchestration.ge (ToNumber (Orchestration.analysesUsedToday userData))
      (ToNumber (Orchestration.dailyLimit userData)) = false /\
    Orchestration.analysis_answer (example_world (Number 1) (Number 3))
      Orchestration.live "BTC/USDT" None = Orchestration.Resolved setup /\
    Orchestration.create_analysis (example_world (Number 1) (Number 3)) "user_1" setup =
      Orchestration.Resolved tt /\
    Orchestration.update_user (example_world (Number 1) (Number 3))
      (Orchestration.id userData)
      (ToNumber (Orchestration.analysesUsedToday userData) + 1) = Orchestration.Resolved tt /\
    Orchestration.mkResult true (Some example_setup) None 1 =
      Orchestration.mkResult true (Some setup) None
        (ToNumber (Orchestration.dailyLimit userData) -
         (ToNumber (Orchestration.analysesUsedToday userData) + 1)) /\
    snd (Orchestration.analyzeChart (example_world (Number 1) (Number 3)) "user_1"
           Orchestration.live "BTC/USDT" None []) =
      [ Orchestration.users_list "user_1";
        Orchestration.analysis_call Orchestration.live "BTC/USDT" None;
        Orchestration.analyses_create "user_1" setup;
        Orchestration.users_update (Orchestration.id userData)
          (ToNumber (Orchestration.analysesUsedToday userData) + 1) ].
Proof.
  apply (analyzeChart_success (example_world (Number 1) (Number 3)) "user_1"
           Orchestration.live "BTC/USDT" None
           (Orchestration.mkResult true (Some example_setup) None 1));
    reflexivity.
Defined.

Lemma analyzeChart_charges_after_saving_witness :
  exists setup,
    Orchestration.analysis_answer (example_world (Number 1) (Number 3))
      Orchestration.upload "BTC/USDT" None = Orchestration.Resolved setup /\
    Orchestration.create_analysis (example_world (Number 1) (Number 3)) "user_1" setup =
      Orchestration.Resolved tt /\
    In (Orchestration.analyses_create "user_1" setup)
       (snd (Orchestration.analyzeChart (example_world (Number 1) (Number 3)) "user_1"
               Orchestration.upload "BTC/USDT" None [])).
Proof.
  apply (analyzeChart_charges_after_saving (example_world (Number 1) (Number 3)) "user_1"
           Orchestration.upload "BTC/USDT" None "row_1" 2).
  cbn. do 3 right. left. reflexivity.
Defined.

Lemma analyzeChart_missing_limit_is_no_limit_witness :
  exists remaining,
    fst (Orchestration.analyzeChart (example_world (Number 7) Undefined) "user_1"
           Orchestration.live "BTC/USDT" None []) =
      Orchestration.Resolved (Orchestration.mkResult true (Some example_setup) None remaining) /\
    is_nan remaining = true.
Proof.
  apply (analyzeChart_missing_limit_is_no_limit (example_world (Number 7) Undefined)
           "user_1" Orchestration.live "BTC/USDT" None
           (Orchestration.mkUserRow "row_1" (Number 7) Undefined) [] example_setup);
    reflexivity.
Defined.
